(** * TwitchIO [ext.commands.Bot]: command registry, invocation pipeline and
    event bus.

    A shallow embedding of [twitchio/ext/commands/bot.py].  The bot object is
    a record of its dictionaries; every method that mutates the bot is a
    function in a small state-and-exception monad, so that a method that
    raises half way keeps the mutations it had already made, exactly as the
    in-place Python code does.

    What the bot does that an observer can see (events published through
    [run_event], tasks handed to the event loop, user code called, warnings,
    printed tracebacks) is appended to a trace kept in the state. *)

From Stdlib Require Import String Ascii List Bool Arith Lia.
Import ListNotations.
Open Scope string_scope.
Open Scope list_scope.

(** ** Python preliminaries *)

(** The exception classes bot.py raises or catches.  All of them derive from
    [Exception]: the [except Exception] clauses of bot.py catch every value
    of [exn].  [KeyboardInterrupt], [SystemExit] and task cancellation, which
    derive from [BaseException] only, are interpreter signals and are not
    values of this type. *)
Inductive exn_class : Type :=
| TypeError | ValueError | KeyError | IndexError | AttributeError | ImportError
| TwitchCommandError | CommandNotFound | CheckFailure | CommandOnCooldown
| InvalidCog | MissingRequiredArgument | ParseError
| UserError.

Record exn : Type := Exn { exn_cls : exn_class; exn_msg : string }.

Definition exn_class_eqb (a b : exn_class) : bool :=
  match a, b with
  | TypeError, TypeError | ValueError, ValueError | KeyError, KeyError
  | IndexError, IndexError | AttributeError, AttributeError
  | ImportError, ImportError | TwitchCommandError, TwitchCommandError
  | CommandNotFound, CommandNotFound | CheckFailure, CheckFailure
  | CommandOnCooldown, CommandOnCooldown | InvalidCog, InvalidCog
  | MissingRequiredArgument, MissingRequiredArgument
  | ParseError, ParseError | UserError, UserError => true
  | _, _ => false
  end.

(** [isinstance(e, TwitchCommandError)]: the class itself and the command
    errors that errors.py derives from it.  [add_command] raises the base
    class only. *)
Definition is_TwitchCommandError (e : exn) : bool :=
  match exn_cls e with
  | TwitchCommandError | CommandNotFound | CheckFailure | CommandOnCooldown
  | InvalidCog | MissingRequiredArgument => true
  | _ => false
  end.

(** The result of running a piece of Python: a value or a raised exception. *)
Inductive outcome (A : Type) : Type :=
| Returned (a : A)
| Raised (e : exn).
Arguments Returned {A} a.
Arguments Raised {A} e.

(** Python values as far as the check engine looks at them.  [VCoro r] is a
    coroutine object: awaiting it gives [r]. *)
#[warnings="-register-all"]
Inductive PyVal : Type :=
| VBool (b : bool)
| VNone
| VObj (repr : string)
| VCoro (result : outcome PyVal).

(** [await v] *)
Definition await_value (v : PyVal) : outcome PyVal :=
  match v with
  | VCoro r => r
  | _ => Raised (Exn TypeError "object can't be used in 'await' expression")
  end.

(** The one-character string holding a double quote. *)
Definition dquote : string := String (Ascii.ascii_of_nat 34) EmptyString.

(** [v is False] *)
Definition is_False (v : PyVal) : bool :=
  match v with
  | VBool false => true
  | _ => false
  end.

(** *** Dictionaries

    A Python [dict] keeps its keys in insertion order and bot.py iterates
    over its dictionaries, so a dictionary is an association list with
    distinct keys. *)
Definition dict (V : Type) : Type := list (string * V).

Fixpoint dict_get {V} (k : string) (d : dict V) : option V :=
  match d with
  | [] => None
  | (k', v) :: r => if String.eqb k' k then Some v else dict_get k r
  end.

(** [k in d] *)
Definition dict_in {V} (k : string) (d : dict V) : bool :=
  match dict_get k d with Some _ => true | None => false end.

(** [d[k] = v]: an existing key keeps its place. *)
Fixpoint dict_set {V} (k : string) (v : V) (d : dict V) : dict V :=
  match d with
  | [] => [(k, v)]
  | (k', v') :: r =>
      if String.eqb k' k then (k, v) :: r else (k', v') :: dict_set k v r
  end.

Fixpoint dict_remove {V} (k : string) (d : dict V) : dict V :=
  match d with
  | [] => []
  | (k', v') :: r =>
      if String.eqb k' k then r else (k', v') :: dict_remove k r
  end.

(** [del d[k]]: [None] stands for the [KeyError] of an absent key. *)
Definition dict_delitem {V} (k : string) (d : dict V) : option (dict V) :=
  if dict_in k d then Some (dict_remove k d) else None.

(** [d.pop(k)] *)
Definition dict_pop {V} (k : string) (d : dict V) : option (V * dict V) :=
  match dict_get k d with
  | Some v => Some (v, dict_remove k d)
  | None => None
  end.

(** [list(d)]: iterating a dictionary yields its keys. *)
Definition dict_keys {V} (d : dict V) : list string := map fst d.

(** [d.update(other)] *)
Definition dict_update {V} (other d : dict V) : dict V :=
  fold_left (fun acc kv => dict_set (fst kv) (snd kv) acc) other d.

(** ** Data model *)

Record Message : Type := { content : string }.

(** The bot instance or cog a command is bound to. *)
Definition Inst : Type := string.

(** What user code is handed when it receives a [Context]: the context
    without the command object (named instead).  User callables are modelled
    by the outcome of calling them; they do not reach back into the bot's
    registries. *)
Record CtxView : Type := {
  cv_message : Message;
  cv_prefix : option string;
  cv_command : option string;
  cv_args : list string;
  cv_kwargs : list (string * string)
}.

(** A check predicate: any Python object put in a check list.
    [pred_isawaitable] is [inspect.isawaitable(predicate)], [pred_call] is
    [predicate(context)], [pred_repr] is what the f-string prints for it. *)
Record Predicate : Type := {
  pred_repr : string;
  pred_isawaitable : bool;
  pred_call : CtxView -> outcome PyVal
}.

(** A plain function [def check(ctx): ...]. *)
Definition sync_predicate (repr : string) (body : CtxView -> outcome PyVal)
  : Predicate :=
  {| pred_repr := repr; pred_isawaitable := false; pred_call := body |}.

(** A coroutine function [async def check(ctx): ...].  A function object is
    not awaitable; calling it runs nothing and returns a coroutine object
    that resolves to the body's result. *)
Definition async_predicate (repr : string) (body : CtxView -> outcome PyVal)
  : Predicate :=
  {| pred_repr := repr; pred_isawaitable := false;
     pred_call := fun ctx => Returned (VCoro (body ctx)) |}.

(** Cooldowns live in core.py; bot.py only calls [get_buckets] on a group and
    [update_bucket] on each bucket, and looks at what they raise. *)
Record Bucket : Type := {
  bucket_repr : string;
  update_bucket : CtxView -> outcome unit
}.

Record Cooldown : Type := {
  get_buckets : CtxView -> outcome (list Bucket)
}.

(** The callback given [*args] ([instance, context] or [context]) and the
    arguments of the context: the outcome of [await callback( ... )]. *)
Definition Callback : Type := option Inst -> CtxView -> outcome unit.

(** A hook given [*args].  [invoke] first calls the hook and then hands what
    the call returned to [try_run], which awaits it: the outer outcome is
    that of the call [hook( *args )] itself, which for a coroutine function
    raises only when the arguments do not fit, the inner one that of
    awaiting what the call returned. *)
Definition Hook : Type := option Inst -> CtxView -> outcome (outcome unit).

Record Command : Type := {
  name : string;
  aliases : list string;
  _callback : Callback;
  callback_iscoroutinefunction : bool;
  callback_module : string;
  _instance : option Inst;
  _checks : list Predicate;
  no_global_checks : bool;
  _cooldowns : list Cooldown;
  _before_invoke : option Hook;
  _after_invoke : option Hook;
  event_error : option (option Inst -> CtxView -> exn -> outcome (outcome unit));
  parse_args : option Inst -> list string
               -> outcome (list string * list (string * string));
  cog : option string
}.

Record Context : Type := {
  message : Message;
  prefix : option string;
  command : option Command;
  args : list string;
  kwargs : list (string * string);
  valid : bool
}.

Definition view (ctx : Context) : CtxView :=
  {| cv_message := message ctx;
     cv_prefix := prefix ctx;
     cv_command := option_map name (command ctx);
     cv_args := args ctx;
     cv_kwargs := kwargs ctx |}.

(** Arguments of a published event. *)
Inductive EventArg : Type :=
| ACtx (ctx : Context)
| AExn (e : exn)
| AData (s : string).

(** Objects handed to [add_event] or stored in [_events]. *)
Inductive CallableKind : Type :=
| PlainFunction        (* def f(...) *)
| CoroutineFunction    (* async def f(...) *)
| CoroutineObject.     (* the object f(...) of an async def f *)

Record Callable : Type := {
  c_name : string;                          (* __name__ *)
  c_kind : CallableKind;
  c_body : list EventArg -> outcome PyVal;  (* the function body *)
  c_event : option string                   (* the _event attribute *)
}.

(** [inspect.iscoroutine(cb)]: true of coroutine objects only. *)
Definition iscoroutine (cb : Callable) : bool :=
  match c_kind cb with CoroutineObject => true | _ => false end.

(** [inspect.iscoroutinefunction(cb)] *)
Definition iscoroutinefunction (cb : Callable) : bool :=
  match c_kind cb with CoroutineFunction => true | _ => false end.

(** [cb._event = v].  Functions take new attributes; a coroutine object has
    no [__dict__] and the assignment raises [AttributeError] ([None]). *)
Definition set_event_attr (v : string) (cb : Callable) : option Callable :=
  match c_kind cb with
  | CoroutineObject => None
  | _ => Some {| c_name := c_name cb; c_kind := c_kind cb;
                 c_body := c_body cb; c_event := Some v |}
  end.

(** [await cb( *args )] *)
Definition await_call (cb : Callable) (a : list EventArg) : outcome PyVal :=
  match c_kind cb with
  | CoroutineObject => Raised (Exn TypeError "'coroutine' object is not callable")
  | CoroutineFunction => c_body cb a
  | PlainFunction =>
      match c_body cb a with
      | Returned v => await_value v
      | Raised e => Raised e
      end
  end.

(** A module's [prepare(bot)] / [breakdown(bot)] is user code acting on the
    bot; it is given as the script of what it does. *)
Inductive ModuleAction : Type :=
| DoAddCommand (c : Command)
| DoRaise (e : exn).

Record Module : Type := {
  mod_name : string;
  mod_prepare : option (list ModuleAction);     (* None: no prepare attribute *)
  mod_breakdown : option (list ModuleAction)
}.

Record Cog : Type := {
  cog_name : string;
  cog_module : string      (* cog.__module__, the name of the defining module *)
}.

(** The configured prefix: a value, or a callable [(bot, message) -> value]. *)
Inductive PrefixValue : Type :=
| PStr (s : string)
| PSeq (l : list string)          (* list, tuple or set, in iteration order *)
| PInvalid (type_repr : string).  (* anything else *)

Inductive PrefixSpec : Type :=
| StaticPrefix (v : PrefixValue)
| CallablePrefix (f : Message -> outcome PrefixValue).

(** What [loop.create_task] was given. *)
Inductive Task : Type :=
| TaskHandler (cb : Callable) (a : list EventArg)   (* wrapped(event) *)
| TaskInner (attr : string) (a : list EventArg).    (* wrapped(inner_cb) *)

Inductive Callee : Type :=
| GlobalBeforeInvoke | BeforeInvoke | CommandCallback | CommandErrorHook
| AfterInvoke | GlobalAfterInvoke
| CheckCall (repr : string)
| BucketUpdate (repr : string)
| HandlerCall (nm : string).

Inductive Effect : Type :=
| Published (event : string) (a : list EventArg)   (* run_event(name, *args) *)
| Called (c : Callee)                              (* user code was run *)
| Warned (msg : string)                            (* warnings.warn *)
| PrintedTraceback (e : exn).                      (* traceback.print_exc *)

(** The bot, with the default (case-sensitive) dictionaries, and next to its
    own attributes the two pieces of the interpreter it works on:
    [sys.modules] and what importing a module from disk gives. *)
Record Bot : Type := {
  _prefix : PrefixSpec;
  _commands : dict Command;
  _command_aliases : dict string;
  _modules : dict Module;
  _cogs : dict Cog;
  _events : dict (list Callable);
  _global_checks : list Predicate;                  (* self._checks *)
  global_before_invoke : CtxView -> outcome (outcome unit);
  global_after_invoke : CtxView -> outcome (outcome unit);
  (* getattr(self, name, None): None when absent, else whether the attribute
     is a coroutine object *)
  instance_attr : string -> option bool;
  sys_modules : dict Module;                        (* sys.modules *)
  import_source : string -> outcome Module;         (* importing from disk *)
  loop_tasks : list Task;                           (* the loop's queue *)
  trace : list Effect
}.

(** ** The state-and-exception monad of bot methods *)

Definition M (A : Type) : Type := Bot -> outcome A * Bot.

Definition ret {A} (a : A) : M A := fun b => (Returned a, b).

Definition raise {A} (e : exn) : M A := fun b => (Raised e, b).

Definition bind {A B} (m : M A) (k : A -> M B) : M B :=
  fun b =>
    match m b with
    | (Returned a, b') => k a b'
    | (Raised e, b') => (Raised e, b')
    end.

Definition modify (f : Bot -> Bot) : M unit := fun b => (Returned tt, f b).

(** [try: m  except Exception as e: handler(e)] *)
Definition try_except {A} (m : M A) (handler : exn -> M A) : M A :=
  fun b =>
    match m b with
    | (Returned a, b') => (Returned a, b')
    | (Raised e, b') => handler e b'
    end.

Notation "x <- m ;; k" := (bind m (fun x => k))
  (at level 61, m at next level, right associativity).
Notation "m ;;; k" := (bind m (fun _ => k))
  (at level 61, right associativity).

(** Field updates. *)
Definition with_commands (d : dict Command) (b : Bot) : Bot :=
  {| _prefix := _prefix b; _commands := d;
     _command_aliases := _command_aliases b; _modules := _modules b;
     _cogs := _cogs b; _events := _events b;
     _global_checks := _global_checks b;
     global_before_invoke := global_before_invoke b;
     global_after_invoke := global_after_invoke b;
     instance_attr := instance_attr b; sys_modules := sys_modules b;
     import_source := import_source b; loop_tasks := loop_tasks b;
     trace := trace b |}.

Definition with_command_aliases (d : dict string) (b : Bot) : Bot :=
  {| _prefix := _prefix b; _commands := _commands b;
     _command_aliases := d; _modules := _modules b;
     _cogs := _cogs b; _events := _events b;
     _global_checks := _global_checks b;
     global_before_invoke := global_before_invoke b;
     global_after_invoke := global_after_invoke b;
     instance_attr := instance_attr b; sys_modules := sys_modules b;
     import_source := import_source b; loop_tasks := loop_tasks b;
     trace := trace b |}.

Definition with_modules (d : dict Module) (b : Bot) : Bot :=
  {| _prefix := _prefix b; _commands := _commands b;
     _command_aliases := _command_aliases b; _modules := d;
     _cogs := _cogs b; _events := _events b;
     _global_checks := _global_checks b;
     global_before_invoke := global_before_invoke b;
     global_after_invoke := global_after_invoke b;
     instance_attr := instance_attr b; sys_modules := sys_modules b;
     import_source := import_source b; loop_tasks := loop_tasks b;
     trace := trace b |}.

Definition with_cogs (d : dict Cog) (b : Bot) : Bot :=
  {| _prefix := _prefix b; _commands := _commands b;
     _command_aliases := _command_aliases b; _modules := _modules b;
     _cogs := d; _events := _events b;
     _global_checks := _global_checks b;
     global_before_invoke := global_before_invoke b;
     global_after_invoke := global_after_invoke b;
     instance_attr := instance_attr b; sys_modules := sys_modules b;
     import_source := import_source b; loop_tasks := loop_tasks b;
     trace := trace b |}.

Definition with_events (d : dict (list Callable)) (b : Bot) : Bot :=
  {| _prefix := _prefix b; _commands := _commands b;
     _command_aliases := _command_aliases b; _modules := _modules b;
     _cogs := _cogs b; _events := d;
     _global_checks := _global_checks b;
     global_before_invoke := global_before_invoke b;
     global_after_invoke := global_after_invoke b;
     instance_attr := instance_attr b; sys_modules := sys_modules b;
     import_source := import_source b; loop_tasks := loop_tasks b;
     trace := trace b |}.

Definition with_sys_modules (d : dict Module) (b : Bot) : Bot :=
  {| _prefix := _prefix b; _commands := _commands b;
     _command_aliases := _command_aliases b; _modules := _modules b;
     _cogs := _cogs b; _events := _events b;
     _global_checks := _global_checks b;
     global_before_invoke := global_before_invoke b;
     global_after_invoke := global_after_invoke b;
     instance_attr := instance_attr b; sys_modules := d;
     import_source := import_source b; loop_tasks := loop_tasks b;
     trace := trace b |}.

Definition with_loop_tasks (q : list Task) (b : Bot) : Bot :=
  {| _prefix := _prefix b; _commands := _commands b;
     _command_aliases := _command_aliases b; _modules := _modules b;
     _cogs := _cogs b; _events := _events b;
     _global_checks := _global_checks b;
     global_before_invoke := global_before_invoke b;
     global_after_invoke := global_after_invoke b;
     instance_attr := instance_attr b; sys_modules := sys_modules b;
     import_source := import_source b; loop_tasks := q;
     trace := trace b |}.

Definition with_trace (t : list Effect) (b : Bot) : Bot :=
  {| _prefix := _prefix b; _commands := _commands b;
     _command_aliases := _command_aliases b; _modules := _modules b;
     _cogs := _cogs b; _events := _events b;
     _global_checks := _global_checks b;
     global_before_invoke := global_before_invoke b;
     global_after_invoke := global_after_invoke b;
     instance_attr := instance_attr b; sys_modules := sys_modules b;
     import_source := import_source b; loop_tasks := loop_tasks b;
     trace := t |}.

(** Append one observable effect to the trace. *)
Definition record (e : Effect) (b : Bot) : Bot := with_trace (trace b ++ [e]) b.

(** [loop.create_task(t)] *)
Definition create_task (t : Task) (b : Bot) : Bot :=
  with_loop_tasks (loop_tasks b ++ [t]) b.

(** Run user code [r], noting in the trace that it was called. *)
Definition call_user {A} (c : Callee) (r : outcome A) : M A :=
  fun b => (r, record (Called c) b).

(** ** Event bus *)

(** [Bot.run_event]: [wrapped(inner_cb)] is scheduled when the attribute of
    that name is a coroutine object, then [wrapped(event)] for every
    subscriber in list order. *)
Definition run_event (event : string) (a : list EventArg) : M unit :=
  fun b =>
    let b0 := record (Published event a) b in
    let b1 :=
      match instance_attr b0 event with
      | None => b0
      | Some true => create_task (TaskInner event a) b0
      | Some false =>
          record (Warned ("event '" ++ event ++ "' callback is not a coroutine")) b0
      end in
    let b2 :=
      match dict_get event (_events b1) with
      | Some subscribers =>
          fold_left (fun acc cb => create_task (TaskHandler cb a) acc) subscribers b1
      | None => b1
      end in
    (Returned tt, b2).

(** The body of a scheduled task, [wrapped(func)]:
    [try: await func( *args )  except Exception as e: self.run_event("error", e)] *)
Definition wrapped (t : Task) : M unit :=
  match t with
  | TaskHandler cb a =>
      try_except
        (_ <- call_user (HandlerCall (c_name cb)) (await_call cb a) ;; ret tt)
        (fun e => run_event "error" [AExn e])
  | TaskInner attr a =>
      try_except
        (raise (Exn TypeError "'coroutine' object is not callable"))
        (fun e => run_event "error" [AExn e])
  end.

(** One turn of the event loop: the oldest scheduled task is started.  Tasks
    are started in the order they were created; a task is taken through to
    its end here, the trace showing when each handler is called, not how
    suspended handlers interleave. *)
Definition loop_step (b : Bot) : Bot :=
  match loop_tasks b with
  | [] => b
  | t :: rest => snd (wrapped t (with_loop_tasks rest b))
  end.

Fixpoint run_loop (turns : nat) (b : Bot) : Bot :=
  match turns with
  | O => b
  | S n => run_loop n (loop_step b)
  end.

(** [name or callback.__name__] *)
Definition or_name (nm : option string) (cb : Callable) : string :=
  match nm with
  | Some (String c s) => String c s
  | _ => c_name cb
  end.

(** The last statement of [add_event]: the callback is appended to the list
    of its event, or starts that list. *)
Definition append_subscriber (event_name : string) (callback : Callable) (b : Bot)
  : Bot :=
  match dict_get event_name (_events b) with
  | Some subscribers =>
      with_events (dict_set event_name (subscribers ++ [callback]) (_events b)) b
  | None =>
      with_events (dict_set event_name [callback] (_events b)) b
  end.

(** [Bot.add_event] *)
Definition add_event (callback : Callable) (nm : option string) : M unit :=
  if negb (iscoroutine callback) then
    raise (Exn ValueError "callback must be a coroutine")
  else
    let event_name := or_name nm callback in
    match set_event_attr event_name callback with
    | None =>
        raise (Exn AttributeError "'coroutine' object has no attribute '_event'")
    | Some callback' => modify (append_subscriber event_name callback')
    end.

(** ** Command registry *)

Definition duplicate_name_error (c : Command) : exn :=
  Exn TwitchCommandError
    ("Failed to load command <" ++ name c ++ ">, a command with that name already exists.").

Definition not_coroutine_error (c : Command) : exn :=
  Exn TwitchCommandError
    ("Failed to load command <" ++ name c ++ ">. Commands must be coroutines.").

Definition duplicate_alias_error (c : Command) : exn :=
  Exn TwitchCommandError
    ("Failed to load command <" ++ name c ++ ">, a command with that name/alias already exists.").

(** The loop [for alias in command.aliases] of [add_command]. *)
Fixpoint add_aliases (c : Command) (als : list string) : M unit :=
  match als with
  | [] => ret tt
  | alias :: rest =>
      fun b =>
        if dict_in alias (_commands b) then
          match dict_delitem (name c) (_commands b) with
          | Some d => (Raised (duplicate_alias_error c), with_commands d b)
          | None => (Raised (Exn KeyError (name c)), b)
          end
        else
          add_aliases c rest
            (with_command_aliases (dict_set alias (name c) (_command_aliases b)) b)
  end.

(** [Bot.add_command].  The argument is a [Command], so the [isinstance]
    guard is passed. *)
Definition add_command (c : Command) : M unit :=
  fun b =>
    if dict_in (name c) (_commands b) then
      (Raised (duplicate_name_error c), b)
    else if negb (callback_iscoroutinefunction c) then
      (Raised (not_coroutine_error c), b)
    else
      let b1 := with_commands (dict_set (name c) c (_commands b)) b in
      match aliases c with
      | [] => (Returned tt, b1)
      | _ => add_aliases c (aliases c) b1
      end.

(** [Bot.get_command] *)
Definition get_command (nm : string) (b : Bot) : option Command :=
  let nm' :=
    match dict_get nm (_command_aliases b) with
    | Some target => target
    | None => nm
    end in
  dict_get nm' (_commands b).

(** [obj._instance = self] *)
Definition bind_instance (self : Inst) (c : Command) : Command :=
  {| name := name c; aliases := aliases c; _callback := _callback c;
     callback_iscoroutinefunction := callback_iscoroutinefunction c;
     callback_module := callback_module c; _instance := Some self;
     _checks := _checks c; no_global_checks := no_global_checks c;
     _cooldowns := _cooldowns c; _before_invoke := _before_invoke c;
     _after_invoke := _after_invoke c; event_error := event_error c;
     parse_args := parse_args c; cog := cog c |}.

(** A member of the instance as [inspect.getmembers] lists it. *)
Inductive Member : Type :=
| MemberCommand (c : Command)
| MemberOther (repr : string).

(** [Bot.__init__commands__], over the members of the instance. *)
Fixpoint __init__commands__ (self : Inst) (members : list (string * Member))
  : M unit :=
  match members with
  | [] => ret tt
  | (_, MemberOther _) :: rest => __init__commands__ self rest
  | (_, MemberCommand obj) :: rest =>
      fun b =>
        match add_command (bind_instance self obj) b with
        | (Returned _, b') => __init__commands__ self rest b'
        | (Raised e, b') =>
            if is_TwitchCommandError e then
              __init__commands__ self rest (record (PrintedTraceback e) b')
            else (Raised e, b')
        end
  end.

(** ** Prefix resolution *)

(** [Bot.__get_prefixes__] *)
Definition __get_prefixes__ (msg : Message) (b : Bot) : outcome PrefixValue :=
  let r :=
    match _prefix b with
    | StaticPrefix v => Returned v
    | CallablePrefix f => f msg
    end in
  match r with
  | Returned (PInvalid t) =>
      Raised (Exn TypeError
        ("Prefix must be of either class <list, tuple, set, str> not <" ++ t ++ ">"))
  | _ => r
  end.

(** The loop of [get_prefix]: the first prefix the content starts with;
    falling off the loop returns [None]. *)
Fixpoint first_prefix (text : string) (prefixes : list string) : option string :=
  match prefixes with
  | [] => None
  | p :: rest => if String.prefix p text then Some p else first_prefix text rest
  end.

(** [Bot.get_prefix] *)
Definition get_prefix (msg : Message) (b : Bot) : outcome (option string) :=
  match __get_prefixes__ msg b with
  | Raised e => Raised e
  | Returned (PStr s) =>
      Returned (if String.prefix s (content msg) then Some s else None)
  | Returned (PSeq l) => Returned (first_prefix (content msg) l)
  | Returned (PInvalid t) => Raised (Exn TypeError t)   (* not reached *)
  end.

(** [not prefix] is false: the prefix is a non-empty string. *)
Definition truthy (p : option string) : bool :=
  match p with
  | Some (String _ _) => true
  | _ => false
  end.

(** [s[n::]] *)
Fixpoint string_drop (n : nat) (s : string) : string :=
  match n, s with
  | O, _ => s
  | S n', String _ s' => string_drop n' s'
  | S _, EmptyString => EmptyString
  end.

(** [s.lstrip(' ')] *)
Fixpoint lstrip_spaces (s : string) : string :=
  match s with
  | String c s' => if Ascii.eqb c " "%char then lstrip_spaces s' else s
  | EmptyString => EmptyString
  end.

(** ** Checks and cooldowns *)

Definition check_failure (p : Predicate) (c : Command) : exn :=
  Exn CheckFailure
    ("The check <" ++ pred_repr p ++ "> for command <" ++ name c ++ "> failed.").

(** The check list [handle_checks] evaluates. *)
Definition effective_checks (b : Bot) (c : Command) : list Predicate :=
  if no_global_checks c then _checks c
  else _global_checks b ++ _checks c.

(** [await predicate(context)] when [inspect.isawaitable(predicate)], else
    [predicate(context)]. *)
Definition eval_predicate (p : Predicate) (v : CtxView) : outcome PyVal :=
  if pred_isawaitable p then
    match pred_call p v with
    | Returned r => await_value r
    | Raised e => Raised e
    end
  else pred_call p v.

(** What [handle_checks] returns: [True] or the exception it caught. *)
Inductive CheckResult : Type :=
| CheckTrue
| CheckError (e : exn).

(** The [for predicate in checks] loop inside [try ... except Exception as e:
    return e]. *)
Fixpoint check_loop (c : Command) (v : CtxView) (checks : list Predicate)
  : M CheckResult :=
  match checks with
  | [] => ret CheckTrue
  | p :: rest =>
      r <- try_except
             (x <- call_user (CheckCall (pred_repr p)) (eval_predicate p v) ;;
              ret (Returned x))
             (fun e => ret (Raised e)) ;;
      match r with
      | Raised e => ret (CheckError e)
      | Returned result =>
          if is_False result then ret (CheckError (check_failure p c))
          else check_loop c v rest
      end
  end.

(** [Bot.handle_checks] *)
Definition handle_checks (context : Context) : M CheckResult :=
  match command context with
  | None =>
      raise (Exn AttributeError
               "'NoneType' object has no attribute 'no_global_checks'")
  | Some command_ =>
      fun b => check_loop command_ (view context) (effective_checks b command_) b
  end.

(** The [for bucket in buckets] loop of [_run_cooldowns] inside
    [try ... except CommandOnCooldown as e: expired.append(e)]. *)
Fixpoint update_buckets (v : CtxView) (buckets : list Bucket) : M (list exn) :=
  match buckets with
  | [] => ret []
  | bucket :: rest =>
      fun b =>
        match call_user (BucketUpdate (bucket_repr bucket)) (update_bucket bucket v) b with
        | (Returned _, b') => update_buckets v rest b'
        | (Raised e, b') =>
            if exn_class_eqb (exn_cls e) CommandOnCooldown
            then (Returned [e], b')
            else (Raised e, b')
        end
  end.

(** [Bot._run_cooldowns]: [None], or the list [expired]. *)
Definition _run_cooldowns (context : Context) : M (option (list exn)) :=
  match command context with
  | None =>
      raise (Exn AttributeError "'NoneType' object has no attribute '_cooldowns'")
  | Some command_ =>
      match _cooldowns command_ with
      | [] => ret None                              (* IndexError *)
      | group :: _ =>
          match get_buckets group (view context) with
          | Raised e =>
              if exn_class_eqb (exn_cls e) IndexError then ret None else raise e
          | Returned buckets =>
              expired <- update_buckets (view context) buckets ;;
              ret (Some expired)
          end
      end
  end.

(** ** Invocation *)

(** The local [try_run] of [invoke]. *)
Definition try_run (context : Context) (to_command : bool) (func : M unit)
  : M unit :=
  try_except func
    (fun e =>
       if negb to_command then run_event "error" [AExn e]
       else run_event "command_error" [ACtx context; AExn e]).

(** [await try_run(hook( *args ), to_command=...)].  The argument is
    evaluated before [try_run] is entered: an exception raised by the call
    [hook( *args )] itself is not caught and leaves [invoke]; what the call
    returned is awaited inside the [try] of [try_run]. *)
Definition run_hook (context : Context) (to_command : bool) (c : Callee)
  (called : outcome (outcome unit)) : M unit :=
  match called with
  | Raised e => call_user c (Raised e)
  | Returned awaited => try_run context to_command (call_user c awaited)
  end.

(** [invoke] from [instance = context.command._instance] on: the hooks, the
    callback and the after-hooks.  [instance] stands for the leading
    arguments [*args]: [instance, context] when set, else [context]. *)
Definition invoke_command (context : Context) (c : Command) : M unit :=
  let instance := _instance c in
  let v := view context in
  (fun b => run_hook context false GlobalBeforeInvoke (global_before_invoke b v) b) ;;;
  match _before_invoke c with
  | Some hook => run_hook context true BeforeInvoke (hook instance v)
  | None => ret tt
  end ;;;
  try_except
    (call_user CommandCallback (_callback c instance v))
    (fun e =>
       match event_error c with
       | Some on_error =>
           run_hook context false CommandErrorHook (on_error instance v e)
       | None => ret tt
       end ;;;
       run_event "command_error" [ACtx context; AExn e]) ;;;
  (* Invoke our after command hooks... *)
  match _after_invoke c with
  | Some hook => run_hook context true AfterInvoke (hook instance v)
  | None => ret tt
  end ;;;
  (fun b => run_hook context false GlobalAfterInvoke (global_after_invoke b v) b).

(** [Bot.invoke] *)
Definition invoke (context : Context) : M unit :=
  if negb (truthy (prefix context)) then ret tt
  else
    check_result <- handle_checks context ;;
    match check_result with
    | CheckError e => run_event "command_error" [ACtx context; AExn e]
    | CheckTrue =>
        limited <- _run_cooldowns context ;;
        match limited with
        | Some (e :: _) => run_event "command_error" [ACtx context; AExn e]
        | _ =>
            match command context with
            | Some c => invoke_command context c
            | None =>
                raise (Exn AttributeError
                         "'NoneType' object has no attribute '_instance'")
            end
        end
    end.

(** ** Resolving a message to a context *)

Section Dispatch.

(** [StringParser().process_string] (stringparser.py): the tokens of the
    text in order; the dictionary it returns maps each index to a token. *)
Variable process_string : string -> outcome (list string).

(** [Bot.get_context] with the default [cls=Context]. *)
Definition get_context (msg : Message) (b : Bot) : outcome Context :=
  match get_prefix msg b with
  | Raised e => Raised e
  | Returned pfx =>
      match pfx with
      | Some (String c0 p0) =>
          let p := String c0 p0 in
          let text := lstrip_spaces (string_drop (String.length p) (content msg)) in
          match process_string text with
          | Raised e => Raised e
          | Returned parsed =>
              match parsed with
              | [] => Raised (Exn CommandNotFound "No valid command was passed.")
              | token :: rest =>
                  let command_ :=
                    match dict_get token (_command_aliases b) with
                    | Some target => target
                    | None => token              (* KeyError: pass *)
                    end in
                  match dict_get command_ (_commands b) with
                  | None =>
                      Raised (Exn CommandNotFound
                                ("No command " ++ dquote ++ command_ ++ dquote ++ " was found."))
                  | Some cmd =>
                      match parse_args cmd (_instance cmd) rest with
                      | Raised e => Raised e
                      | Returned (a, kw) =>
                          Returned {| message := msg; prefix := pfx;
                                      command := Some cmd; args := a;
                                      kwargs := kw; valid := true |}
                      end
                  end
              end
          end
      | _ =>
          Returned {| message := msg; prefix := pfx; command := None;
                      args := []; kwargs := []; valid := false |}
      end
  end.

(** [Bot.handle_commands] *)
Definition handle_commands (msg : Message) : M unit :=
  fun b =>
    match get_context msg b with
    | Raised e => (Raised e, b)
    | Returned context => invoke context b
    end.

End Dispatch.

(** ** Modules and cogs *)

(** [for name, x in d] over a dictionary [d] iterates its keys, so each key,
    a [str], is unpacked into the two targets: a key that is not two
    characters long raises [ValueError]. *)
Definition unpack_key (k : string) : outcome (string * string) :=
  match k with
  | String c1 (String c2 EmptyString) =>
      Returned (String c1 EmptyString, String c2 EmptyString)
  | String _ (String _ (String _ _)) =>
      Raised (Exn ValueError "too many values to unpack (expected 2)")
  | _ => Raised (Exn ValueError "not enough values to unpack (expected 2)")
  end.

(** A loop or comprehension [for name, x in d] whose body reads the attribute
    [attr] of [x], given the keys of [d]; [saved] is what it has built when it
    ends.  With a two-character key [x] is a one-character [str], which has
    no such attribute: the first iteration always raises. *)
Definition for_pairs_in_keys {A} (attr : string) (keys : list string) (saved : A)
  : outcome A :=
  match keys with
  | [] => Returned saved
  | k :: _ =>
      match unpack_key k with
      | Raised e => Raised e
      | Returned _ =>
          Raised (Exn AttributeError
                    ("'str' object has no attribute '" ++ attr ++ "'"))
      end
  end.

(** [cog.__module__ == module]: a [str] compared with a module object. *)
Definition str_eq_module (s : string) (m : Module) : bool := false.

(** [importlib.import_module] *)
Definition import_module (nm : string) : M Module :=
  fun b =>
    match dict_get nm (sys_modules b) with
    | Some m => (Returned m, b)
    | None =>
        match import_source b nm with
        | Returned m =>
            (Returned m, with_sys_modules (dict_set nm m (sys_modules b)) b)
        | Raised e => (Raised e, b)
        end
    end.

(** Running [module.prepare(self)] or [module.breakdown(self)]. *)
Fixpoint run_module_actions (acts : list ModuleAction) : M unit :=
  match acts with
  | [] => ret tt
  | DoAddCommand c :: rest => add_command c ;;; run_module_actions rest
  | DoRaise e :: _ => raise e
  end.

(** [del d[k]] on one of the bot's dictionaries. *)
Definition delitem {V} (get : Bot -> dict V) (put : dict V -> Bot -> Bot)
  (k : string) : M unit :=
  fun b =>
    match dict_delitem k (get b) with
    | Some d => (Returned tt, put d b)
    | None => (Raised (Exn KeyError k), b)
    end.

(** [Bot.load_module] *)
Definition load_module (nm : string) : M unit :=
  fun b =>
    if dict_in nm (_modules b) then
      (Raised (Exn ValueError ("Module <" ++ nm ++ "> is already loaded")), b)
    else
      (module <- import_module nm ;;
       match mod_prepare module with
       | Some acts => run_module_actions acts
       | None =>
           delitem sys_modules with_sys_modules nm ;;;
           raise (Exn ImportError ("Module <" ++ nm ++ "> is missing a prepare method"))
       end ;;;
       modify (fun b' => with_modules (dict_set nm module (_modules b')) b')) b.

(** [Bot.remove_cog] *)
Definition remove_cog (cog_name_ : string) : M unit :=
  fun b =>
    match dict_pop cog_name_ (_cogs b) with
    | None => (Raised (Exn InvalidCog ("Cog '" ++ cog_name_ ++ "' not found")), b)
    | Some (cog_, cogs') =>
        let b1 := with_cogs cogs' b in
        let to_remove :=
          map fst
            (filter (fun kv =>
                       match cog (snd kv) with
                       | Some owner => String.eqb owner (cog_name cog_)
                       | None => false
                       end)
                    (_commands b1)) in
        let b2 :=
          with_commands (fold_left (fun d k => dict_remove k d) to_remove (_commands b1)) b1 in
        match for_pairs_in_keys "cog" (dict_keys (_command_aliases b2)) (@nil string) with
        | Raised e => (Raised e, b2)
        | Returned to_remove' =>
            (Returned tt,
             with_command_aliases
               (fold_left (fun d k => dict_remove k d) to_remove' (_command_aliases b2)) b2)
        end
    end.

Fixpoint remove_cogs (names : list string) : M unit :=
  match names with
  | [] => ret tt
  | n :: rest => remove_cog n ;;; remove_cogs rest
  end.

(** [Bot.unload_module] *)
Definition unload_module (nm : string) : M unit :=
  fun b =>
    match dict_pop nm (_modules b) with
    | None => (Raised (Exn ValueError ("Module <" ++ nm ++ "> is not loaded")), b)
    | Some (module, modules') =>
        (match mod_breakdown module with
         | Some acts => run_module_actions acts
         | None => ret tt
         end ;;;
         (fun b1 =>
            let to_delete :=
              map fst (filter (fun kv => str_eq_module (cog_module (snd kv)) module)
                              (_cogs b1)) in
            remove_cogs to_delete b1) ;;;
         (* just in case they aren't in cogs *)
         (fun b2 =>
            match for_pairs_in_keys "_callback" (dict_keys (_commands b2)) (@nil string) with
            | Raised e => (Raised e, b2)
            | Returned to_delete =>
                (Returned tt,
                 with_commands
                   (fold_left (fun d k => dict_remove k d) to_delete (_commands b2)) b2)
            end) ;;;
         (fun b3 =>
            match for_pairs_in_keys "_callback" (dict_keys (_command_aliases b3)) (@nil string) with
            | Raised e => (Raised e, b3)
            | Returned to_delete =>
                (Returned tt,
                 with_command_aliases
                   (fold_left (fun d k => dict_remove k d) to_delete (_command_aliases b3)) b3)
            end))
          (with_modules modules' b)
    end.

(** [Bot.reload_module].  Each of the three scanning loops ends normally only
    on an empty dictionary, in which case it saves nothing, deletes nothing
    and leaves the variable [name] as it was. *)
Definition reload_module (nm : string) : M unit :=
  fun b =>
    match dict_pop nm (_modules b) with
    | None => (Raised (Exn ValueError ("Module <" ++ nm ++ "> is not loaded")), b)
    | Some (module, modules') =>
        let b1 := with_modules modules' b in
        match for_pairs_in_keys "__module__" (dict_keys (_cogs b1)) (@nil (string * Cog)) with
        | Raised e => (Raised e, b1)
        | Returned cogs =>
        match for_pairs_in_keys "_callback" (dict_keys (_commands b1)) (@nil (string * Command)) with
        | Raised e => (Raised e, b1)
        | Returned commands =>
        match for_pairs_in_keys "_callback" (dict_keys (_command_aliases b1)) (@nil (string * string)) with
        | Raised e => (Raised e, b1)
        | Returned aliases_ =>
            (delitem sys_modules with_sys_modules nm ;;;
             try_except (load_module nm)
               (fun e =>
                  modify (fun b' =>
                    let b2 := with_sys_modules (dict_set nm module (sys_modules b')) b' in
                    let b3 := with_modules (dict_set nm module (_modules b2)) b2 in
                    let b4 := with_command_aliases
                                (dict_update aliases_ (_command_aliases b3)) b3 in
                    let b5 := with_commands (dict_update commands (_commands b4)) b4 in
                    with_cogs (dict_update cogs (_cogs b5)) b5) ;;;
                  raise e)) b1
        end end end
    end.

(** ** A tokenizer for concrete runs *)

Definition is_quote (c : ascii) : bool := Ascii.eqb c (Ascii.ascii_of_nat 34).
Definition is_backslash (c : ascii) : bool := Ascii.eqb c (Ascii.ascii_of_nat 92).
Definition is_space (c : ascii) : bool := Ascii.eqb c " "%char.

(** Close the word being read, if one was started. *)
Definition flush (started : bool) (word : string) (words : list string)
  : list string :=
  if started then words ++ [word] else words.

(** Modelled from the spec: the tokenizer of stringparser.py, which is not
    part of src.  The text is cut into tokens at spaces; a quoted substring
    is one token, its quote characters stripped; an escaped quote inside it
    is kept literally; an unterminated quote fails with a ParseError. *)
Fixpoint tokenize (text : string) (in_quote started : bool) (word : string)
  (words : list string) : outcome (list string) :=
  match text with
  | EmptyString =>
      if in_quote then Raised (Exn ParseError "unterminated quote")
      else Returned (flush started word words)
  | String c rest =>
      if in_quote then
        if is_quote c then tokenize rest false true word words
        else
          match rest with
          | String c' rest' =>
              if is_backslash c && is_quote c' then
                tokenize rest' true true
                  (word ++ String c (String c' EmptyString)) words
              else tokenize rest true true (word ++ String c EmptyString) words
          | EmptyString =>
              tokenize rest true true (word ++ String c EmptyString) words
          end
      else if is_space c then
        tokenize rest false false EmptyString (flush started word words)
      else if is_quote c then tokenize rest true true word words
      else tokenize rest false true (word ++ String c EmptyString) words
  end.

Definition spec_process_string (text : string) : outcome (list string) :=
  tokenize text false false EmptyString [].

(** ** Reading the trace *)

(** The effects a run from [b] to [b'] added. *)
Definition trace_since (b b' : Bot) : list Effect :=
  skipn (length (trace b)) (trace b').

Definition callee_of (e : Effect) : list Callee :=
  match e with Called c => [c] | _ => [] end.

(** The user code called, in call order. *)
Definition callees (t : list Effect) : list Callee := flat_map callee_of t.

Definition published_of (event : string) (e : Effect) : list (list EventArg) :=
  match e with
  | Published n a => if String.eqb n event then [a] else []
  | _ => []
  end.

(** The argument lists of the publications of [event], in order. *)
Definition published (event : string) (t : list Effect) : list (list EventArg) :=
  flat_map (published_of event) t.

(** Append a run of effects to the trace. *)
Definition record_all (t : list Effect) (b : Bot) : Bot :=
  with_trace (trace b ++ t) b.

(** The warning [run_event] may add after the publication. *)
Definition publication_notice (b : Bot) (event : string) : list Effect :=
  match instance_attr b event with
  | Some false => [Warned ("event '" ++ event ++ "' callback is not a coroutine")]
  | _ => []
  end.


(** ** Vocabulary of the statements *)

(** The predicate neither raises nor evaluates to [False]. *)
Definition passes (v : CtxView) (p : Predicate) : Prop :=
  exists r, eval_predicate p v = Returned r /\ is_False r = false.

(** The calls a run of the check loop over [l] leaves in the trace. *)
Definition check_calls (l : list Predicate) : list Effect :=
  map (fun p => Called (CheckCall (pred_repr p))) l.

Definition bucket_calls (l : list Bucket) : list Effect :=
  map (fun k => Called (BucketUpdate (bucket_repr k))) l.

(** ** Concrete bots and commands *)

(** A bot just constructed with prefix [!]: empty registries, the default
    (empty) global hooks, nothing scheduled. *)
Definition fresh_bot : Bot :=
  {| _prefix := StaticPrefix (PStr "!");
     _commands := []; _command_aliases := []; _modules := []; _cogs := [];
     _events := []; _global_checks := [];
     global_before_invoke := fun _ => Returned (Returned tt);
     global_after_invoke := fun _ => Returned (Returned tt);
     instance_attr := fun _ => None;
     sys_modules := [];
     import_source := fun nm => Raised (Exn ImportError ("No module named '" ++ nm ++ "'"));
     loop_tasks := []; trace := [] |}.

(** [@command(name=nm, aliases=als)] over a coroutine function with the given
    outcome, with the given checks, cooldown groups and after-hook. *)
Definition make_command (nm : string) (als : list string) (body : outcome unit)
  (checks : list Predicate) (cooldowns : list Cooldown) (after : option Hook)
  : Command :=
  {| name := nm; aliases := als;
     _callback := fun _ _ => body;
     callback_iscoroutinefunction := true;
     callback_module := "__main__";
     _instance := None;
     _checks := checks; no_global_checks := false;
     _cooldowns := cooldowns;
     _before_invoke := None; _after_invoke := after; event_error := None;
     parse_args := fun _ tokens => Returned (tokens, []);
     cog := None |}.

(** The context [get_context] builds for the text [!nm] and command [c]. *)
Definition context_for (text : string) (c : Command) : Context :=
  {| message := {| content := text |}; prefix := Some "!";
     command := Some c; args := []; kwargs := []; valid := true |}.

(** What an observer sees of a run: the user code called and the events
    published, in order. *)
Inductive Obs : Type :=
| OCall (c : Callee)
| OPub (event : string) (a : list EventArg).

Definition obs_of (e : Effect) : list Obs :=
  match e with
  | Called c => [OCall c]
  | Published event a => [OPub event a]
  | _ => []
  end.

Definition observed (t : list Effect) : list Obs := flat_map obs_of t.

Definition obs_callees (l : list Obs) : list Callee :=
  flat_map (fun o => match o with OCall c => [c] | OPub _ _ => [] end) l.

Definition obs_published (event : string) (l : list Obs) : list (list EventArg) :=
  flat_map (fun o => match o with
                     | OPub n a => if String.eqb n event then [a] else []
                     | OCall _ => []
                     end) l.

(** The call returns (it does not raise). *)
Definition call_returns {A} (called : outcome A) : Prop :=
  exists r, called = Returned r.

(** One step of the hook stage: how it ends and what it shows. *)
Definition Step : Type := (outcome unit * list Obs)%type.

(** [x] and, if [x] returned, then [y]. *)
Definition and_then (x y : Step) : Step :=
  match fst x with
  | Returned _ => (fst y, snd x ++ snd y)
  | Raised e => (Raised e, snd x)
  end.

(** The publication [try_run] makes of an exception [e]. *)
Definition try_run_publication (context : Context) (to_command : bool) (e : exn)
  : Obs :=
  if to_command then OPub "command_error" [ACtx context; AExn e]
  else OPub "error" [AExn e].

(** A hook run through [try_run]: a raising call ends the run; a raising
    await is published. *)
Definition hook_step (context : Context) (to_command : bool) (c : Callee)
  (called : outcome (outcome unit)) : Step :=
  match called with
  | Raised e => (Raised e, [OCall c])
  | Returned (Raised e) =>
      (Returned tt, [OCall c; try_run_publication context to_command e])
  | Returned (Returned _) => (Returned tt, [OCall c])
  end.

Definition opt_hook_step (context : Context) (c : Callee) (h : option Hook)
  (instance : option Inst) : Step :=
  match h with
  | Some hook => hook_step context true c (hook instance (view context))
  | None => (Returned tt, [])
  end.

(** The callback: when it raises, the command's error hook, if any, is run
    and then [command_error] published. *)
Definition callback_step (context : Context) (c : Command) : Step :=
  match _callback c (_instance c) (view context) with
  | Returned _ => (Returned tt, [OCall CommandCallback])
  | Raised e =>
      and_then (Returned tt, [OCall CommandCallback])
        (and_then
           match event_error c with
           | Some on_error =>
               hook_step context false CommandErrorHook
                 (on_error (_instance c) (view context) e)
           | None => (Returned tt, [])
           end
           (Returned tt, [OPub "command_error" [ACtx context; AExn e]]))
  end.

(** The hooks before the callback, and the hooks after it. *)
Definition before_steps (context : Context) (c : Command) (b : Bot) : Step :=
  and_then
    (hook_step context false GlobalBeforeInvoke (global_before_invoke b (view context)))
    (opt_hook_step context BeforeInvoke (_before_invoke c) (_instance c)).

Definition after_steps (context : Context) (c : Command) (b : Bot) : Step :=
  and_then
    (opt_hook_step context AfterInvoke (_after_invoke c) (_instance c))
    (hook_step context false GlobalAfterInvoke (global_after_invoke b (view context))).

(** The whole of the hooks and the callback. *)
Definition invocation_steps (context : Context) (c : Command) (b : Bot) : Step :=
  and_then (before_steps context c b)
    (and_then (callback_step context c) (after_steps context c b)).

(** Every call of a hook that an invocation makes returns: the hook accepts
    the arguments it is given and, being a coroutine function, runs nothing
    when called.  The error hook is called only when the callback raised. *)
Definition hook_calls_return (context : Context) (c : Command) (b : Bot) : Prop :=
  call_returns (global_before_invoke b (view context)) /\
  (forall h, _before_invoke c = Some h ->
     call_returns (h (_instance c) (view context))) /\
  (forall h e, event_error c = Some h ->
     _callback c (_instance c) (view context) = Raised e ->
     call_returns (h (_instance c) (view context) e)) /\
  (forall h, _after_invoke c = Some h ->
     call_returns (h (_instance c) (view context))) /\
  call_returns (global_after_invoke b (view context)).

(** The calls of the hooks that come before the callback return. *)
Definition before_calls_return (context : Context) (c : Command) (b : Bot) : Prop :=
  call_returns (global_before_invoke b (view context)) /\
  (forall h, _before_invoke c = Some h ->
     call_returns (h (_instance c) (view context))).

(** [s] has the global hooks of [b]. *)
Definition same_hooks (b s : Bot) : Prop :=
  global_before_invoke s = global_before_invoke b /\
  global_after_invoke s = global_after_invoke b.

(** From any state with the global hooks of [b0], [m] ends as the step [st]
    says and shows what [st] says, the global hooks left as they were. *)
Definition takes (b0 : Bot) (st : Step) (m : M unit) : Prop :=
  forall s, same_hooks b0 s ->
    exists s' t,
      m s = (fst st, s') /\ trace s' = trace s ++ t /\
      observed t = snd st /\ same_hooks b0 s'.

(** The after-hooks of a command, in the order [invoke] runs them. *)
Definition after_calls (c : Command) : list Callee :=
  match _after_invoke c with Some _ => [AfterInvoke] | None => [] end
  ++ [GlobalAfterInvoke].

(** [limited] is falsy: [None] or an empty list. *)
Definition not_limited (limited : option (list exn)) : Prop :=
  match limited with
  | Some (_ :: _) => False
  | _ => True
  end.

(** Updating the bucket returns normally. *)
Definition bucket_ok (v : CtxView) (k : Bucket) : Prop :=
  update_bucket k v = Returned tt.

(** A check that refuses, written as a plain function and as a coroutine
    function. *)
Definition deny : Predicate :=
  sync_predicate "is_mod" (fun _ => Returned (VBool false)).

Definition async_deny : Predicate :=
  async_predicate "is_mod" (fun _ => Returned (VBool false)).

Definition ban_command : Command :=
  make_command "ban" [] (Returned tt) [deny] [] None.

Definition async_ban_command : Command :=
  make_command "ban" [] (Returned tt) [async_deny] [] None.

(** A command whose callback raises, with an after-hook. *)
Definition boom : exn := Exn UserError "boom".

Definition failing_command : Command :=
  make_command "boom" [] (Raised boom) [] [] (Some (fun _ _ => Returned (Returned tt))).

(** A command with two cooldown groups; the second bucket of the first group
    is exhausted. *)
Definition on_cooldown : exn := Exn CommandOnCooldown "retry later".

Definition ready_bucket : Bucket :=
  {| bucket_repr := "user"; update_bucket := fun _ => Returned tt |}.

Definition spent_bucket : Bucket :=
  {| bucket_repr := "channel"; update_bucket := fun _ => Raised on_cooldown |}.

Definition limited_command : Command :=
  make_command "so" [] (Returned tt) []
    [ {| get_buckets := fun _ => Returned [ready_bucket; spent_bucket] |};
      {| get_buckets := fun _ => Returned [ready_bucket] |} ]
    None.

(** A bot with one command, [greet], alias [hi]. *)
Definition greet_command : Command :=
  make_command "greet" ["hi"] (Returned tt) [] [] None.

Definition registered_bot : Bot := snd (add_command greet_command fresh_bot).

(** A new command whose second alias is the name of a registered command. *)
Definition wave_command : Command :=
  make_command "wave" ["yo"; "greet"] (Returned tt) [] [] None.

(** A new command whose name is a registered alias. *)
Definition hi_command : Command :=
  make_command "hi" [] (Returned tt) [] [] None.

(** A new command one of whose aliases is a registered alias. *)
Definition hello_command : Command :=
  make_command "hello" ["hi"] (Returned tt) [] [] None.


(** A bot whose configured prefix is the empty string. *)
Definition empty_prefix_bot : Bot :=
  {| _prefix := StaticPrefix (PStr EmptyString);
     _commands := []; _command_aliases := []; _modules := []; _cogs := [];
     _events := []; _global_checks := [];
     global_before_invoke := fun _ => Returned (Returned tt);
     global_after_invoke := fun _ => Returned (Returned tt);
     instance_attr := fun _ => None;
     sys_modules := [];
     import_source := fun nm => Raised (Exn ImportError ("No module named '" ++ nm ++ "'"));
     loop_tasks := []; trace := [] |}.

(** Members of a bot class with three commands: [greet], a second command
    under the same name, and [wave]. *)
Definition greet_twin : Command :=
  make_command "greet" [] (Returned tt) [] [] None.

Definition demo_members : list (string * Member) :=
  [ ("a_greet", MemberCommand greet_command);
    ("b_greet", MemberCommand greet_twin);
    ("nick", MemberOther "str");
    ("yo", MemberCommand hi_command) ].

(** The user code a scheduled task calls when the loop runs it. *)
Definition task_calls (t : Task) : list Callee :=
  match t with
  | TaskHandler cb _ => [HandlerCall (c_name cb)]
  | TaskInner _ _ => []
  end.

(** The tasks one [run_event] hands to the loop. *)
Definition scheduled_by (b : Bot) (event : string) (a : list EventArg) : list Task :=
  match instance_attr b event with
  | Some true => [TaskInner event a]
  | _ => []
  end
  ++ map (fun cb => TaskHandler cb a)
       match dict_get event (_events b) with
       | Some subscribers => subscribers
       | None => []
       end.

(** Two coroutine functions; the first raises. *)
Definition raising_handler : Callable :=
  {| c_name := "log_join"; c_kind := CoroutineFunction;
     c_body := fun _ => Raised boom; c_event := None |}.

Definition quiet_handler : Callable :=
  {| c_name := "greet_join"; c_kind := CoroutineFunction;
     c_body := fun _ => Returned VNone; c_event := None |}.

(** The coroutine object of a call of [greet_join]. *)
Definition pending_coroutine : Callable :=
  {| c_name := "greet_join"; c_kind := CoroutineObject;
     c_body := fun _ => Returned VNone; c_event := None |}.

(** A bot whose event [join] has the two handlers as subscribers. *)
Definition join_bot : Bot :=
  with_events [("join", [raising_handler; quiet_handler])] fresh_bot.

(** ** Concrete modules *)

Definition greetings_module : Module :=
  {| mod_name := "greetings";
     mod_prepare := Some [DoAddCommand greet_command];
     mod_breakdown := None |}.

(** A module whose [prepare] registers nothing, and the edited version of it
    found on disk, whose [prepare] registers a command and then raises. *)
Definition tools_module : Module :=
  {| mod_name := "tools"; mod_prepare := Some []; mod_breakdown := None |}.

Definition tools_module_edited : Module :=
  {| mod_name := "tools";
     mod_prepare := Some [DoAddCommand hi_command; DoRaise boom];
     mod_breakdown := None |}.

(** A fresh bot in an interpreter that can import the given modules. *)
Definition bot_importing (source : string -> outcome Module) : Bot :=
  {| _prefix := StaticPrefix (PStr "!");
     _commands := []; _command_aliases := []; _modules := []; _cogs := [];
     _events := []; _global_checks := [];
     global_before_invoke := fun _ => Returned (Returned tt);
     global_after_invoke := fun _ => Returned (Returned tt);
     instance_attr := fun _ => None;
     sys_modules := [];
     import_source := source;
     loop_tasks := []; trace := [] |}.

(** The bot after [load_module("greetings")]. *)
Definition greetings_bot : Bot :=
  snd (load_module "greetings" (bot_importing (fun _ => Returned greetings_module))).

(** The bot after [load_module("tools")], the file of the module then being
    replaced by the edited version. *)
Definition tools_bot : Bot :=
  let b := snd (load_module "tools" (bot_importing (fun _ => Returned tools_module))) in
  {| _prefix := _prefix b; _commands := _commands b;
     _command_aliases := _command_aliases b; _modules := _modules b;
     _cogs := _cogs b; _events := _events b;
     _global_checks := _global_checks b;
     global_before_invoke := global_before_invoke b;
     global_after_invoke := global_after_invoke b;
     instance_attr := instance_attr b; sys_modules := sys_modules b;
     import_source := fun _ => Returned tools_module_edited;
     loop_tasks := loop_tasks b; trace := trace b |}.

(** ** Further operations of the bot *)

(** The decorator [Bot.event(name)] applied to [func]:
    [self.add_event(func, name); return func]. *)
Definition event (nm : option string) (func : Callable) : M Callable :=
  add_event func nm ;;; ret func.

(** A bot whose prefixes are [?], [!] and [!!], in this order. *)
Definition two_prefix_bot : Bot :=
  {| _prefix := StaticPrefix (PSeq ["?"; "!"; "!!"]);
     _commands := []; _command_aliases := []; _modules := []; _cogs := [];
     _events := []; _global_checks := [];
     global_before_invoke := fun _ => Returned (Returned tt);
     global_after_invoke := fun _ => Returned (Returned tt);
     instance_attr := fun _ => None;
     sys_modules := [];
     import_source := fun nm => Raised (Exn ImportError ("No module named '" ++ nm ++ "'"));
     loop_tasks := []; trace := [] |}.

(** The prefix does not lead the text. *)
Definition no_match (text : string) (p : string) : Prop :=
  String.prefix p text = false.

(** A command that takes exactly one argument. *)
Definition missing_argument : exn :=
  Exn MissingRequiredArgument "Missing required arguments in command: echo()".

Definition echo_command : Command :=
  {| name := "echo"; aliases := ["say"];
     _callback := fun _ _ => Returned tt;
     callback_iscoroutinefunction := true;
     callback_module := "__main__";
     _instance := None;
     _checks := []; no_global_checks := false;
     _cooldowns := [];
     _before_invoke := None; _after_invoke := None; event_error := None;
     parse_args := fun _ tokens =>
                     match tokens with
                     | [t] => Returned ([t], [])
                     | _ => Raised missing_argument
                     end;
     cog := None |}.

Definition echo_bot : Bot := snd (add_command echo_command fresh_bot).

(** The [command_error] publication of a hook of the command, if awaiting
    what its call returned raises. *)
Definition hook_error (context : Context) (h : option Hook)
  (instance : option Inst) : list (list EventArg) :=
  match h with
  | Some hook =>
      match hook instance (view context) with
      | Returned (Raised e) => [[ACtx context; AExn e]]
      | _ => []
      end
  | None => []
  end.

(** The [command_error] publication of the callback, if it raises. *)
Definition callback_error (context : Context) (c : Command)
  : list (list EventArg) :=
  match _callback c (_instance c) (view context) with
  | Raised e => [[ACtx context; AExn e]]
  | Returned _ => []
  end.

(** The predicate raises or evaluates to [False]. *)
Definition refuses (v : CtxView) (p : Predicate) : Prop :=
  (exists e, eval_predicate p v = Raised e) \/
  (exists r, eval_predicate p v = Returned r /\ is_False r = true).

(** A command with a before-hook and an after-hook that raise when awaited,
    and a callback that raises. *)
Definition before_failed : exn := Exn UserError "before".
Definition after_failed : exn := Exn UserError "after".

Definition fragile_command : Command :=
  {| name := "fragile"; aliases := [];
     _callback := fun _ _ => Raised boom;
     callback_iscoroutinefunction := true;
     callback_module := "__main__";
     _instance := None;
     _checks := []; no_global_checks := false;
     _cooldowns := [];
     _before_invoke := Some (fun _ _ => Returned (Raised before_failed));
     _after_invoke := Some (fun _ _ => Returned (Raised after_failed));
     event_error := None;
     parse_args := fun _ tokens => Returned (tokens, []);
     cog := None |}.

(** The call of a hook of the invocation raises [e]: of the global
    before-hook, of the command's before-hook, of its error hook on the
    exception of the callback, of its after-hook or of the global
    after-hook. *)
Definition hook_call_raises (context : Context) (c : Command) (b : Bot) (e : exn)
  : Prop :=
  global_before_invoke b (view context) = Raised e \/
  (exists h, _before_invoke c = Some h /\
             h (_instance c) (view context) = Raised e) \/
  (exists h e0, event_error c = Some h /\
                _callback c (_instance c) (view context) = Raised e0 /\
                h (_instance c) (view context) e0 = Raised e) \/
  (exists h, _after_invoke c = Some h /\
             h (_instance c) (view context) = Raised e) \/
  global_after_invoke b (view context) = Raised e.

(** A command whose before-hook was defined without parameters,
    [async def before(): ...]: calling it with the context raises
    [TypeError] before any coroutine exists. *)
Definition before_arity : exn :=
  Exn TypeError "before() takes 0 positional arguments but 1 was given".

Definition misdeclared_command : Command :=
  {| name := "greet"; aliases := [];
     _callback := fun _ _ => Returned tt;
     callback_iscoroutinefunction := true;
     callback_module := "__main__";
     _instance := None;
     _checks := []; no_global_checks := false;
     _cooldowns := [];
     _before_invoke := Some (fun _ _ => Raised before_arity);
     _after_invoke := None;
     event_error := None;
     parse_args := fun _ tokens => Returned (tokens, []);
     cog := None |}.

(** A bucket whose update fails with something else than a cooldown error,
    and a command limited by it. *)
Definition broken_store : exn := Exn KeyError "bucket".

Definition broken_bucket : Bucket :=
  {| bucket_repr := "user"; update_bucket := fun _ => Raised broken_store |}.

Definition broken_cooldown_command : Command :=
  make_command "so" [] (Returned tt) []
    [ {| get_buckets := fun _ => Returned [ready_bucket; broken_bucket] |} ] None.

(** A command whose first cooldown group raises [IndexError] from
    [get_buckets]. *)
Definition index_error_command : Command :=
  make_command "so" [] (Returned tt) []
    [ {| get_buckets := fun _ => Raised (Exn IndexError "list index out of range") |} ]
    None.

(** A bot with a refusing global check, a command with a check of its own,
    and the same command opting out of global checks. *)
Definition allow : Predicate :=
  sync_predicate "is_sub" (fun _ => Returned (VBool true)).

Definition guarded_bot : Bot :=
  {| _prefix := StaticPrefix (PStr "!");
     _commands := []; _command_aliases := []; _modules := []; _cogs := [];
     _events := []; _global_checks := [deny];
     global_before_invoke := fun _ => Returned (Returned tt);
     global_after_invoke := fun _ => Returned (Returned tt);
     instance_attr := fun _ => None;
     sys_modules := [];
     import_source := fun nm => Raised (Exn ImportError ("No module named '" ++ nm ++ "'"));
     loop_tasks := []; trace := [] |}.

Definition sub_command : Command :=
  make_command "sub" [] (Returned tt) [allow] [] None.

Definition exempt_command : Command :=
  {| name := "sub"; aliases := [];
     _callback := fun _ _ => Returned tt;
     callback_iscoroutinefunction := true;
     callback_module := "__main__";
     _instance := None;
     _checks := [allow]; no_global_checks := true;
     _cooldowns := [];
     _before_invoke := None; _after_invoke := None; event_error := None;
     parse_args := fun _ tokens => Returned (tokens, []);
     cog := None |}.

(** Awaiting the handler raises, whatever it is given. *)
Definition always_raises (h : Callable) : Prop :=
  forall a, exists e, await_call h a = Raised e.

(** Every task of the queue is the wrapper of one of the handlers [hs]. *)
Definition tasks_of (hs : list Callable) (q : list Task) : Prop :=
  Forall (fun t => exists h a, t = TaskHandler h a /\ In h hs) q.

(** A bot whose only [error] subscriber raises, with one [error] task of it
    already scheduled. *)
Definition error_loop_bot : Bot :=
  with_loop_tasks [TaskHandler raising_handler [AExn boom]]
    (with_events [("error", [raising_handler])] fresh_bot).

(** A bot with an attribute [ready] that is not a coroutine object, and one
    subscriber to the event of that name. *)
Definition ready_bot : Bot :=
  {| _prefix := StaticPrefix (PStr "!");
     _commands := []; _command_aliases := []; _modules := []; _cogs := [];
     _events := [("ready", [quiet_handler])]; _global_checks := [];
     global_before_invoke := fun _ => Returned (Returned tt);
     global_after_invoke := fun _ => Returned (Returned tt);
     instance_attr := fun nm => if String.eqb nm "ready" then Some false else None;
     sys_modules := [];
     import_source := fun nm => Raised (Exn ImportError ("No module named '" ++ nm ++ "'"));
     loop_tasks := []; trace := [] |}.

(** The keys of a dictionary are distinct. *)
Definition distinct_keys {V} (d : dict V) : Prop := NoDup (dict_keys d).

(** A module without a [prepare] function. *)
Definition plain_module : Module :=
  {| mod_name := "plain"; mod_prepare := None; mod_breakdown := None |}.

(** An interpreter in which [plain] was imported already, by other code. *)
Definition plain_cached_bot : Bot :=
  with_sys_modules [("plain", plain_module)] fresh_bot.

(** A module whose [prepare] registers [greet] and then raises. *)
Definition failing_module : Module :=
  {| mod_name := "failing";
     mod_prepare := Some [DoAddCommand greet_command; DoRaise boom];
     mod_breakdown := None |}.

(** The bot after [load_module("tools")]: the module is recorded and nothing
    is registered. *)
Definition tools_loaded_bot : Bot :=
  snd (load_module "tools" (bot_importing (fun _ => Returned tools_module))).

(** [cmd.cog is not None and cmd.cog.name == cog.name] *)
Definition owned_by (cg : Cog) (cmd : Command) : bool :=
  match cog cmd with
  | Some owner => String.eqb owner (cog_name cg)
  | None => false
  end.

(** A cog with one command, on a bot that has another command as well. *)
Definition fun_cog : Cog := {| cog_name := "Fun"; cog_module := "cogs.fun" |}.

Definition dice_command : Command :=
  {| name := "dice"; aliases := [];
     _callback := fun _ _ => Returned tt;
     callback_iscoroutinefunction := true;
     callback_module := "cogs.fun";
     _instance := Some "Fun";
     _checks := []; no_global_checks := false;
     _cooldowns := [];
     _before_invoke := None; _after_invoke := None; event_error := None;
     parse_args := fun _ tokens => Returned (tokens, []);
     cog := Some "Fun" |}.

Definition cog_bot : Bot :=
  with_cogs [("Fun", fun_cog)]
    (with_commands [("dice", dice_command); ("sub", sub_command)] fresh_bot).

(** The same bot with an alias registered. *)
Definition cog_alias_bot : Bot :=
  with_command_aliases [("roll", "dice")] cog_bot.

(** The [Command] members among the members of an instance, in order. *)
Fixpoint command_members (members : list (string * Member)) : list Command :=
  match members with
  | [] => []
  | (_, MemberCommand c) :: rest => c :: command_members rest
  | (_, MemberOther _) :: rest => command_members rest
  end.

(** Members of a bot class with two commands of different names. *)
Definition distinct_members : list (string * Member) :=
  [ ("echo", MemberCommand echo_command);
    ("events", MemberOther "dict");
    ("greet", MemberCommand greet_command) ].
(** * Properties *)

(** ** Trace bookkeeping *)

Lemma trace_since_app (b b' : Bot) (t : list Effect) :
  trace b' = trace b ++ t -> trace_since b b' = t.
Proof.
  intros H. unfold trace_since. rewrite H.
  rewrite skipn_app, skipn_all, Nat.sub_diag. reflexivity.
Qed.

Lemma record_all_nil (b : Bot) : record_all [] b = b.
Proof.
  destruct b. unfold record_all, with_trace. simpl. now rewrite app_nil_r.
Qed.

Lemma record_all_app (t1 t2 : list Effect) (b : Bot) :
  record_all t2 (record_all t1 b) = record_all (t1 ++ t2) b.
Proof.
  unfold record_all, with_trace. simpl. now rewrite app_assoc.
Qed.

Lemma record_is_record_all (e : Effect) (b : Bot) : record e b = record_all [e] b.
Proof. reflexivity. Qed.

Lemma trace_record_all (t : list Effect) (b : Bot) :
  trace (record_all t b) = trace b ++ t.
Proof. reflexivity. Qed.

Lemma callees_app (t1 t2 : list Effect) :
  callees (t1 ++ t2) = callees t1 ++ callees t2.
Proof. apply flat_map_app. Qed.

Lemma published_app (event : string) (t1 t2 : list Effect) :
  published event (t1 ++ t2) = published event t1 ++ published event t2.
Proof. apply flat_map_app. Qed.

Lemma trace_schedule (a : list EventArg) (subscribers : list Callable) (b : Bot) :
  trace (fold_left (fun acc cb => create_task (TaskHandler cb a) acc) subscribers b)
  = trace b.
Proof.
  revert b. induction subscribers as [|cb l IH]; intros b; simpl.
  - reflexivity.
  - now rewrite IH.
Qed.

Lemma loop_tasks_schedule (a : list EventArg) (subscribers : list Callable) (b : Bot) :
  loop_tasks (fold_left (fun acc cb => create_task (TaskHandler cb a) acc) subscribers b)
  = loop_tasks b ++ map (fun cb => TaskHandler cb a) subscribers.
Proof.
  revert b. induction subscribers as [|cb l IH]; intros b; simpl.
  - now rewrite app_nil_r.
  - rewrite IH. simpl. now rewrite <- app_assoc.
Qed.

Lemma run_event_returns (event : string) (a : list EventArg) (b : Bot) :
  fst (run_event event a b) = Returned tt.
Proof. reflexivity. Qed.

Lemma run_event_trace (event : string) (a : list EventArg) (b : Bot) :
  trace (snd (run_event event a b))
  = trace b ++ Published event a :: publication_notice b event.
Proof.
  unfold run_event, publication_notice. simpl.
  destruct (instance_attr b event) as [[|]|]; simpl;
    match goal with
    | |- context [dict_get event ?d] => destruct (dict_get event d)
    end; rewrite ?trace_schedule; simpl; rewrite <- ?app_assoc; reflexivity.
Qed.

Lemma callees_notice (b : Bot) (event : string) :
  callees (publication_notice b event) = [].
Proof. unfold publication_notice. now destruct (instance_attr b event) as [[|]|]. Qed.

Lemma published_notice (b : Bot) (event event' : string) :
  published event' (publication_notice b event) = [].
Proof. unfold publication_notice. now destruct (instance_attr b event) as [[|]|]. Qed.

(** ** The check loop *)

Lemma callees_check_calls (l : list Predicate) :
  callees (check_calls l) = map (fun p => CheckCall (pred_repr p)) l.
Proof. induction l as [|p l IH]; simpl; [reflexivity | now rewrite <- IH]. Qed.

Lemma published_check_calls (event : string) (l : list Predicate) :
  published event (check_calls l) = [].
Proof. induction l as [|p l IH]; simpl; [reflexivity | exact IH]. Qed.

Lemma check_calls_app (l1 l2 : list Predicate) :
  check_calls (l1 ++ l2) = check_calls l1 ++ check_calls l2.
Proof. apply map_app. Qed.

(** Predicates that pass are called in list order and the loop goes on. *)
Lemma check_loop_passes (c : Command) (v : CtxView) (l rest : list Predicate) (b : Bot) :
  Forall (passes v) l ->
  check_loop c v (l ++ rest) b = check_loop c v rest (record_all (check_calls l) b).
Proof.
  intros H. revert b. induction H as [|p l [r [Hev Hf]] _ IH]; intros b.
  - now rewrite record_all_nil.
  - simpl. unfold bind at 1. unfold try_except, bind, call_user, ret.
    rewrite Hev, Hf, IH, record_is_record_all, record_all_app. reflexivity.
Qed.

(** The first predicate that evaluates to [False] ends the loop with a
    [CheckFailure]. *)
Lemma check_loop_false (c : Command) (v : CtxView) (p : Predicate)
  (post : list Predicate) (r : PyVal) (b : Bot) :
  eval_predicate p v = Returned r -> is_False r = true ->
  check_loop c v (p :: post) b
  = (Returned (CheckError (check_failure p c)), record_all (check_calls [p]) b).
Proof.
  intros Hev Hf. simpl. unfold bind, try_except, call_user, ret.
  now rewrite Hev, Hf.
Qed.

(** A predicate that raises ends the loop with what it raised. *)
Lemma check_loop_raises (c : Command) (v : CtxView) (p : Predicate)
  (post : list Predicate) (e : exn) (b : Bot) :
  eval_predicate p v = Raised e ->
  check_loop c v (p :: post) b
  = (Returned (CheckError e), record_all (check_calls [p]) b).
Proof.
  intros Hev. simpl. unfold bind, try_except, call_user, ret.
  now rewrite Hev.
Qed.

Lemma check_loop_all_pass (c : Command) (v : CtxView) (l : list Predicate) (b : Bot) :
  Forall (passes v) l ->
  check_loop c v l b = (Returned CheckTrue, record_all (check_calls l) b).
Proof.
  intros H. rewrite <- (app_nil_r l) at 1. now rewrite check_loop_passes.
Qed.

(** Whatever the predicates do, the loop returns, and all it leaves behind
    is the calls of checks. *)
Lemma check_loop_frame (c : Command) (v : CtxView) (l : list Predicate) (b : Bot) :
  exists (r : CheckResult) (called : list Predicate),
    check_loop c v l b = (Returned r, record_all (check_calls called) b).
Proof.
  revert b. induction l as [|p l IH]; intros b.
  - exists CheckTrue, []. simpl. now rewrite record_all_nil.
  - simpl. unfold bind at 1. unfold try_except, bind, call_user, ret.
    destruct (eval_predicate p v) as [r|e].
    + destruct (is_False r).
      * now exists (CheckError (check_failure p c)), [p].
      * destruct (IH (record (Called (CheckCall (pred_repr p))) b)) as [r' [called H]].
        exists r', (p :: called). rewrite H, record_is_record_all, record_all_app.
        reflexivity.
    + now exists (CheckError e), [p].
Qed.

(** When the check stage rejects with [e], [invoke] publishes [command_error]
    once and stops. *)
Lemma invoke_rejected (context : Context) (c : Command) (b : Bot)
  (called : list Predicate) (e : exn) :
  truthy (prefix context) = true ->
  command context = Some c ->
  check_loop c (view context) (effective_checks b c) b
  = (Returned (CheckError e), record_all (check_calls called) b) ->
  fst (invoke context b) = Returned tt /\
  callees (trace_since b (snd (invoke context b)))
  = map (fun q => CheckCall (pred_repr q)) called /\
  ~ In CommandCallback (callees (trace_since b (snd (invoke context b)))) /\
  published "command_error" (trace_since b (snd (invoke context b)))
  = [[ACtx context; AExn e]].
Proof.
  intros Hp Hc Hl. unfold invoke. rewrite Hp. simpl.
  unfold bind, handle_checks. rewrite Hc, Hl.
  split; [apply run_event_returns|].
  rewrite (trace_since_app b _
             (check_calls called
              ++ Published "command_error" [ACtx context; AExn e]
                 :: publication_notice (record_all (check_calls called) b) "command_error")).
  - split; [|split].
    + rewrite callees_app, callees_check_calls. simpl.
      now rewrite callees_notice, app_nil_r.
    + rewrite callees_app, callees_check_calls. simpl. rewrite callees_notice, app_nil_r.
      intros Hin. apply in_map_iff in Hin. destruct Hin as [q [Hq _]]. discriminate.
    + rewrite published_app, published_check_calls. simpl.
      now rewrite published_notice.
  - rewrite run_event_trace, trace_record_all, <- app_assoc. reflexivity.
Qed.

(** C7: a check predicate that returns [False] causes no callback invocation
    and exactly one [command_error] event, which carries a [CheckFailure]
    naming the predicate and the command; a check predicate that raises has
    the exception it raised delivered through [command_error], the callback
    not invoked either.  [p] is the first predicate of the effective check
    list that does not pass, [eval_predicate] what the loop gets from it; the
    only user code called is the checks up to [p], in list order. *)
Theorem failed_check_blocks_callback
  (context : Context) (c : Command) (b : Bot)
  (pre post : list Predicate) (p : Predicate) :
  truthy (prefix context) = true ->
  command context = Some c ->
  effective_checks b c = pre ++ p :: post ->
  Forall (passes (view context)) pre ->
  (eval_predicate p (view context) = Returned (VBool false) ->
   fst (invoke context b) = Returned tt /\
   callees (trace_since b (snd (invoke context b)))
   = map (fun q => CheckCall (pred_repr q)) (pre ++ [p]) /\
   ~ In CommandCallback (callees (trace_since b (snd (invoke context b)))) /\
   published "command_error" (trace_since b (snd (invoke context b)))
   = [[ACtx context; AExn (check_failure p c)]] /\
   exn_cls (check_failure p c) = CheckFailure /\
   exn_msg (check_failure p c)
   = ("The check <" ++ pred_repr p ++ "> for command <" ++ name c ++ "> failed.")%string)
  /\
  (forall e : exn,
   eval_predicate p (view context) = Raised e ->
   fst (invoke context b) = Returned tt /\
   callees (trace_since b (snd (invoke context b)))
   = map (fun q => CheckCall (pred_repr q)) (pre ++ [p]) /\
   ~ In CommandCallback (callees (trace_since b (snd (invoke context b)))) /\
   published "command_error" (trace_since b (snd (invoke context b)))
   = [[ACtx context; AExn e]]).
Proof.
  intros Hp Hc Heff Hpre. split.
  - intros Hev.
    assert (Hl : check_loop c (view context) (effective_checks b c) b
                 = (Returned (CheckError (check_failure p c)),
                    record_all (check_calls (pre ++ [p])) b)).
    { rewrite Heff, check_loop_passes by assumption.
      rewrite (check_loop_false c _ p post (VBool false)) by (assumption || reflexivity).
      now rewrite record_all_app, <- check_calls_app. }
    destruct (invoke_rejected context c b _ _ Hp Hc Hl) as [H1 [H2 [H3 H4]]].
    repeat split; assumption.
  - intros e Hev.
    assert (Hl : check_loop c (view context) (effective_checks b c) b
                 = (Returned (CheckError e),
                    record_all (check_calls (pre ++ [p])) b)).
    { rewrite Heff, check_loop_passes by assumption.
      rewrite (check_loop_raises c _ p post e) by assumption.
      now rewrite record_all_app, <- check_calls_app. }
    exact (invoke_rejected context c b _ _ Hp Hc Hl).
Qed.

(** ** Hooks and callback *)

Lemma observed_app (t1 t2 : list Effect) :
  observed (t1 ++ t2) = observed t1 ++ observed t2.
Proof. apply flat_map_app. Qed.

Lemma obs_callees_app (l1 l2 : list Obs) :
  obs_callees (l1 ++ l2) = obs_callees l1 ++ obs_callees l2.
Proof. apply flat_map_app. Qed.

Lemma obs_published_app (event : string) (l1 l2 : list Obs) :
  obs_published event (l1 ++ l2) = obs_published event l1 ++ obs_published event l2.
Proof. apply flat_map_app. Qed.

(** Calls and publications are read off what was observed. *)
Lemma callees_observed (t : list Effect) : callees t = obs_callees (observed t).
Proof.
  induction t as [|e t IH]; [reflexivity|].
  change (callees (e :: t)) with (callee_of e ++ callees t).
  change (observed (e :: t)) with (obs_of e ++ observed t).
  rewrite obs_callees_app, IH. now destruct e.
Qed.

Lemma published_observed (event : string) (t : list Effect) :
  published event t = obs_published event (observed t).
Proof.
  induction t as [|e t IH]; [reflexivity|].
  change (published event (e :: t)) with (published_of event e ++ published event t).
  change (observed (e :: t)) with (obs_of e ++ observed t).
  rewrite obs_published_app, IH. destruct e; simpl; try reflexivity.
  now rewrite app_nil_r.
Qed.

Lemma observed_check_calls (l : list Predicate) :
  observed (check_calls l)
  = map (fun p => OCall (CheckCall (pred_repr p))) l.
Proof. induction l as [|p l IH]; simpl; [reflexivity | now rewrite <- IH]. Qed.

Lemma observed_notice (b : Bot) (event : string) :
  observed (publication_notice b event) = [].
Proof. unfold publication_notice. now destruct (instance_attr b event) as [[|]|]. Qed.

Lemma same_hooks_refl (b : Bot) : same_hooks b b.
Proof. now split. Qed.

Lemma same_hooks_record_all (b : Bot) (t : list Effect) :
  same_hooks b (record_all t b).
Proof. now split. Qed.

Lemma global_before_schedule (a : list EventArg) (subscribers : list Callable)
  (b : Bot) :
  global_before_invoke
    (fold_left (fun acc cb => create_task (TaskHandler cb a) acc) subscribers b)
  = global_before_invoke b.
Proof.
  revert b. induction subscribers as [|cb l IH]; intros b; simpl.
  - reflexivity.
  - now rewrite IH.
Qed.

Lemma global_after_schedule (a : list EventArg) (subscribers : list Callable)
  (b : Bot) :
  global_after_invoke
    (fold_left (fun acc cb => create_task (TaskHandler cb a) acc) subscribers b)
  = global_after_invoke b.
Proof.
  revert b. induction subscribers as [|cb l IH]; intros b; simpl.
  - reflexivity.
  - now rewrite IH.
Qed.

(** Publishing leaves the global hooks as they are. *)
Lemma run_event_hooks (event : string) (a : list EventArg) (b : Bot) :
  global_before_invoke (snd (run_event event a b)) = global_before_invoke b /\
  global_after_invoke (snd (run_event event a b)) = global_after_invoke b.
Proof.
  unfold run_event. simpl.
  split;
    destruct (instance_attr b event) as [[|]|]; simpl;
    match goal with
    | |- context [dict_get event ?d] => destruct (dict_get event d)
    end;
    rewrite ?global_before_schedule, ?global_after_schedule; reflexivity.
Qed.

Lemma takes_ret (b0 : Bot) : takes b0 (Returned tt, []) (ret tt).
Proof. intros s Hs. exists s, []. rewrite app_nil_r. repeat split; apply Hs. Qed.

Lemma takes_run_event (b0 : Bot) (event : string) (a : list EventArg) :
  takes b0 (Returned tt, [OPub event a]) (run_event event a).
Proof.
  intros s [Hb Ha].
  exists (snd (run_event event a s)), (Published event a :: publication_notice s event).
  destruct (run_event_hooks event a s) as [Eb Ea].
  split; [reflexivity|]. split; [apply run_event_trace|]. split.
  - simpl. now rewrite observed_notice.
  - split; congruence.
Qed.

(** Sequencing: the second action runs only if the first returned. *)
Lemma takes_bind (b0 : Bot) (x y : Step) (m k : M unit) :
  takes b0 x m -> takes b0 y k -> takes b0 (and_then x y) (m ;;; k).
Proof.
  intros Hm Hk s Hs. destruct (Hm s Hs) as [s1 [t1 [E1 [T1 [O1 H1]]]]].
  unfold bind. rewrite E1. unfold and_then. destruct (fst x) as [u|e].
  - destruct (Hk s1 H1) as [s2 [t2 [E2 [T2 [O2 H2]]]]].
    exists s2, (t1 ++ t2). split; [exact E2|]. split.
    + now rewrite T2, T1, app_assoc.
    + split; [|exact H2]. simpl. now rewrite observed_app, O1, O2.
  - exists s1, t1. split; [reflexivity|]. split; [exact T1|].
    split; [exact O1 | exact H1].
Qed.

(** One hook: an exception of the call leaves the action; what the call
    returned is awaited under [try_run], which publishes what it raises. *)
Lemma takes_run_hook (b0 : Bot) (context : Context) (to_command : bool)
  (c : Callee) (called : outcome (outcome unit)) :
  takes b0 (hook_step context to_command c called)
    (run_hook context to_command c called).
Proof.
  intros s Hs. unfold run_hook, hook_step.
  destruct called as [[[]|e]|e].
  - exists (record (Called c) s), [Called c]. repeat split; apply Hs.
  - unfold try_run, try_except, call_user.
    assert (Hs1 : same_hooks b0 (record (Called c) s)) by exact Hs.
    destruct to_command; simpl.
    + destruct (takes_run_event b0 "command_error" [ACtx context; AExn e] _ Hs1)
        as [s' [t [E [T [O H']]]]].
      exists s', (Called c :: t). simpl in E. rewrite E. split; [reflexivity|].
      split; [rewrite T; simpl; now rewrite <- app_assoc|].
      split; [|exact H']. simpl in *. now rewrite O.
    + destruct (takes_run_event b0 "error" [AExn e] _ Hs1)
        as [s' [t [E [T [O H']]]]].
      exists s', (Called c :: t). simpl in E. rewrite E. split; [reflexivity|].
      split; [rewrite T; simpl; now rewrite <- app_assoc|].
      split; [|exact H']. simpl in *. now rewrite O.
  - exists (record (Called c) s), [Called c]. repeat split; apply Hs.
Qed.

Lemma takes_opt_hook (b0 : Bot) (context : Context) (c : Callee) (h : option Hook)
  (instance : option Inst) :
  takes b0 (opt_hook_step context c h instance)
    (match h with
     | Some hook => run_hook context true c (hook instance (view context))
     | None => ret tt
     end).
Proof.
  destruct h as [hook|]; simpl; [apply takes_run_hook | apply takes_ret].
Qed.

Lemma takes_global_hook (b0 : Bot) (context : Context) (c : Callee)
  (hook : Bot -> CtxView -> outcome (outcome unit)) :
  (forall s, same_hooks b0 s -> hook s = hook b0) ->
  takes b0 (hook_step context false c (hook b0 (view context)))
    (fun s => run_hook context false c (hook s (view context)) s).
Proof.
  intros Hh s Hs. rewrite (Hh s Hs). now apply takes_run_hook.
Qed.

(** The callback stage: the callback is called; when it raises, the error
    hook, if any, is run and then [command_error] is published with the
    exception, unless the call of the error hook raised. *)
Lemma takes_callback (b0 : Bot) (context : Context) (c : Command) :
  takes b0 (callback_step context c)
    (try_except
       (call_user CommandCallback (_callback c (_instance c) (view context)))
       (fun e =>
          match event_error c with
          | Some on_error =>
              run_hook context false CommandErrorHook
                (on_error (_instance c) (view context) e)
          | None => ret tt
          end ;;;
          run_event "command_error" [ACtx context; AExn e])).
Proof.
  intros s Hs. unfold callback_step, try_except at 1. unfold call_user at 1.
  destruct (_callback c (_instance c) (view context)) as [[]|e].
  - exists (record (Called CommandCallback) s), [Called CommandCallback].
    repeat split; apply Hs.
  - assert (Hs1 : same_hooks b0 (record (Called CommandCallback) s)) by exact Hs.
    assert (H : takes b0
                  (and_then
                     match event_error c with
                     | Some on_error =>
                         hook_step context false CommandErrorHook
                           (on_error (_instance c) (view context) e)
                     | None => (Returned tt, [])
                     end
                     (Returned tt, [OPub "command_error" [ACtx context; AExn e]]))
                  (match event_error c with
                   | Some on_error =>
                       run_hook context false CommandErrorHook
                         (on_error (_instance c) (view context) e)
                   | None => ret tt
                   end ;;;
                   run_event "command_error" [ACtx context; AExn e])).
    { apply takes_bind; [|apply takes_run_event].
      destruct (event_error c) as [on_error|];
        [apply takes_run_hook | apply takes_ret]. }
    destruct (H _ Hs1) as [s' [t [E [T [O H']]]]].
    exists s', (Called CommandCallback :: t). rewrite E.
    split; [reflexivity|].
    split; [rewrite T; simpl; now rewrite <- app_assoc|].
    split; [|exact H']. unfold and_then at 1. simpl. now rewrite O.
Qed.

Lemma and_then_assoc (x y z : Step) :
  and_then (and_then x y) z = and_then x (and_then y z).
Proof.
  destruct x as [[u|e] lx], y as [[u'|e'] ly]; unfold and_then; simpl;
    try reflexivity; destruct (fst z); now rewrite <- ?app_assoc.
Qed.

(** The hooks and the callback, as [invoke] runs them. *)
Lemma invoke_command_takes (b0 : Bot) (context : Context) (c : Command) :
  takes b0 (invocation_steps context c b0) (invoke_command context c).
Proof.
  unfold invocation_steps, before_steps, after_steps, invoke_command.
  rewrite and_then_assoc.
  apply takes_bind.
  { apply (takes_global_hook b0 context GlobalBeforeInvoke global_before_invoke).
    intros s [Hb _]. exact Hb. }
  apply takes_bind; [apply takes_opt_hook|].
  apply takes_bind; [apply takes_callback|].
  apply takes_bind; [apply takes_opt_hook|].
  apply (takes_global_hook b0 context GlobalAfterInvoke global_after_invoke).
  intros s [_ Ha]. exact Ha.
Qed.

(** *** The steps themselves *)

Lemma and_then_returned (x y : Step) :
  fst x = Returned tt -> and_then x y = (fst y, snd x ++ snd y).
Proof. intros H. unfold and_then. now rewrite H. Qed.

Lemma and_then_shows_first (x y : Step) :
  exists rest, snd (and_then x y) = snd x ++ rest.
Proof.
  unfold and_then. destruct (fst x).
  - now exists (snd y).
  - exists []. simpl. now rewrite app_nil_r.
Qed.

Lemma hook_step_returns (context : Context) (to_command : bool) (c : Callee)
  (called : outcome (outcome unit)) :
  call_returns called -> fst (hook_step context to_command c called) = Returned tt.
Proof. intros [r ->]. now destruct r. Qed.

Lemma hook_step_callees (context : Context) (to_command : bool) (c : Callee)
  (called : outcome (outcome unit)) :
  obs_callees (snd (hook_step context to_command c called)) = [c].
Proof. destruct called as [[u|e]|e]; try reflexivity. now destruct to_command. Qed.

Lemma opt_hook_step_returns (context : Context) (c : Callee) (h : option Hook)
  (instance : option Inst) :
  (forall hook, h = Some hook -> call_returns (hook instance (view context))) ->
  fst (opt_hook_step context c h instance) = Returned tt.
Proof.
  intros H. destruct h as [hook|]; [|reflexivity].
  apply hook_step_returns. now apply H.
Qed.

Lemma opt_hook_step_callees (context : Context) (c : Callee) (h : option Hook)
  (instance : option Inst) :
  obs_callees (snd (opt_hook_step context c h instance))
  = match h with Some _ => [c] | None => [] end.
Proof. destruct h; [apply hook_step_callees | reflexivity]. Qed.

Lemma before_steps_returns (context : Context) (c : Command) (b : Bot) :
  before_calls_return context c b ->
  fst (before_steps context c b) = Returned tt /\
  ~ In CommandCallback (obs_callees (snd (before_steps context c b))).
Proof.
  intros [Hg Hb]. unfold before_steps.
  rewrite and_then_returned by now apply hook_step_returns.
  simpl. split; [now apply opt_hook_step_returns|].
  rewrite obs_callees_app, hook_step_callees, opt_hook_step_callees.
  destruct (_before_invoke c); simpl; intuition discriminate.
Qed.

(** What the callback stage shows, by the outcome of the callback. *)
Lemma callback_step_shape (context : Context) (c : Command) :
  (forall h e, event_error c = Some h ->
     _callback c (_instance c) (view context) = Raised e ->
     call_returns (h (_instance c) (view context) e)) ->
  fst (callback_step context c) = Returned tt /\
  (forall u, _callback c (_instance c) (view context) = Returned u ->
     snd (callback_step context c) = [OCall CommandCallback]) /\
  (forall e, _callback c (_instance c) (view context) = Raised e ->
     exists error_hook,
       snd (callback_step context c)
       = OCall CommandCallback :: error_hook
         ++ [OPub "command_error" [ACtx context; AExn e]] /\
       match event_error c with
       | Some _ =>
           obs_callees error_hook = [CommandErrorHook] /\
           obs_published "command_error" error_hook = []
       | None => error_hook = []
       end).
Proof.
  intros H. unfold callback_step.
  destruct (_callback c (_instance c) (view context)) as [u|e].
  - split; [reflexivity|]. split; [reflexivity|]. intros e [=].
  - destruct (event_error c) as [on_error|].
    + destruct (H on_error e eq_refl eq_refl) as [r Hr]. rewrite Hr.
      split; [now destruct r|]. split; [intros u [=]|].
      intros e' [= <-].
      exists (snd (hook_step context false CommandErrorHook (Returned r))).
      split; [now destruct r|]. split; [apply hook_step_callees | now destruct r].
    + split; [reflexivity|]. split; [intros u [=]|].
      intros e' [= <-]. now exists [].
Qed.

Lemma callback_step_calls_callback (context : Context) (c : Command) :
  exists rest, snd (callback_step context c) = OCall CommandCallback :: rest.
Proof.
  unfold callback_step.
  destruct (_callback c (_instance c) (view context)) as [u|e]; [now exists []|].
  rewrite and_then_returned by reflexivity. now eexists.
Qed.

Lemma after_steps_returns (context : Context) (c : Command) (b : Bot) :
  (forall h, _after_invoke c = Some h ->
     call_returns (h (_instance c) (view context))) ->
  call_returns (global_after_invoke b (view context)) ->
  fst (after_steps context c b) = Returned tt /\
  obs_callees (snd (after_steps context c b)) = after_calls c.
Proof.
  intros Ha Hg. unfold after_steps.
  rewrite and_then_returned by now apply opt_hook_step_returns.
  simpl. split; [now apply hook_step_returns|].
  now rewrite obs_callees_app, hook_step_callees, opt_hook_step_callees.
Qed.

(** When every call of a hook returns, the stage returns and shows the
    hooks before the callback, the callback stage and the after-hooks. *)
Lemma invocation_steps_return (context : Context) (c : Command) (b : Bot) :
  hook_calls_return context c b ->
  invocation_steps context c b
  = (Returned tt,
     snd (before_steps context c b) ++ snd (callback_step context c)
     ++ snd (after_steps context c b)).
Proof.
  intros [Hgb [Hb [He [Ha Hga]]]]. unfold invocation_steps.
  destruct (before_steps_returns context c b (conj Hgb Hb)) as [Hbefore _].
  destruct (callback_step_shape context c He) as [Hcb _].
  destruct (after_steps_returns context c b Ha Hga) as [Hafter _].
  rewrite (and_then_returned _ _ Hbefore). simpl.
  rewrite (and_then_returned _ _ Hcb). simpl. now rewrite Hafter.
Qed.

(** When the calls of the before-hooks return, the callback is called,
    whatever happens afterwards. *)
Lemma callback_reached (context : Context) (c : Command) (b : Bot) :
  before_calls_return context c b ->
  In CommandCallback (obs_callees (snd (invocation_steps context c b))).
Proof.
  intros H. destruct (before_steps_returns context c b H) as [Hbefore _].
  unfold invocation_steps. rewrite (and_then_returned _ _ Hbefore). simpl.
  destruct (and_then_shows_first (callback_step context c) (after_steps context c b))
    as [rest ->].
  destruct (callback_step_calls_callback context c) as [rest' ->].
  rewrite !obs_callees_app. apply in_or_app. right. apply in_or_app. left.
  now left.
Qed.

(** ** The cooldown stage *)

Lemma callees_bucket_calls (l : list Bucket) :
  callees (bucket_calls l) = map (fun k => BucketUpdate (bucket_repr k)) l.
Proof. induction l as [|k l IH]; simpl; [reflexivity | now rewrite <- IH]. Qed.

Lemma published_bucket_calls (event : string) (l : list Bucket) :
  published event (bucket_calls l) = [].
Proof. induction l as [|k l IH]; simpl; [reflexivity | exact IH]. Qed.

Lemma update_buckets_ok (v : CtxView) (l rest : list Bucket) (b : Bot) :
  Forall (bucket_ok v) l ->
  update_buckets v (l ++ rest) b
  = update_buckets v rest (record_all (bucket_calls l) b).
Proof.
  intros H. revert b. induction H as [|k l Hk _ IH]; intros b.
  - now rewrite record_all_nil.
  - simpl. unfold call_user. rewrite Hk, IH, record_is_record_all, record_all_app.
    reflexivity.
Qed.

Lemma update_buckets_cooldown (v : CtxView) (k : Bucket) (post : list Bucket)
  (e : exn) (b : Bot) :
  update_bucket k v = Raised e -> exn_cls e = CommandOnCooldown ->
  update_buckets v (k :: post) b = (Returned [e], record_all (bucket_calls [k]) b).
Proof.
  intros Hk He. simpl. unfold call_user. now rewrite Hk, He.
Qed.

Lemma update_buckets_frame (v : CtxView) (l : list Bucket) (b : Bot) :
  exists called, snd (update_buckets v l b) = record_all (bucket_calls called) b.
Proof.
  revert b. induction l as [|k l IH]; intros b.
  - exists []. simpl. now rewrite record_all_nil.
  - simpl. unfold call_user. destruct (update_bucket k v) as [[]|e].
    + destruct (IH (record (Called (BucketUpdate (bucket_repr k))) b)) as [called H].
      exists (k :: called). rewrite H, record_is_record_all, record_all_app.
      reflexivity.
    + exists [k]. now destruct (exn_class_eqb (exn_cls e) CommandOnCooldown).
Qed.

Lemma run_cooldowns_frame (context : Context) (b : Bot) :
  exists called,
    snd (_run_cooldowns context b) = record_all (bucket_calls called) b.
Proof.
  unfold _run_cooldowns.
  destruct (command context) as [c|];
    [|exists []; simpl; now rewrite record_all_nil].
  destruct (_cooldowns c) as [|group others];
    [exists []; simpl; now rewrite record_all_nil|].
  destruct (get_buckets group (view context)) as [buckets|e].
  - destruct (update_buckets_frame (view context) buckets b) as [called H].
    exists called. unfold bind, ret.
    destruct (update_buckets (view context) buckets b) as [[l|e'] b']; exact H.
  - exists []. rewrite record_all_nil.
    now destruct (exn_class_eqb (exn_cls e) IndexError).
Qed.

Lemma handle_checks_frame (context : Context) (c : Command) (b b1 : Bot)
  (r : CheckResult) :
  command context = Some c ->
  handle_checks context b = (Returned r, b1) ->
  exists called, b1 = record_all (check_calls called) b.
Proof.
  intros Hc H. unfold handle_checks in H. rewrite Hc in H.
  destruct (check_loop_frame c (view context) (effective_checks b c) b)
    as [r' [called E]].
  rewrite E in H. injection H as _ <-. now exists called.
Qed.

(** What the checks and the cooldown stage leave in the trace: calls of
    checks and updates of buckets. *)
Lemma gates_frame (context : Context) (c : Command) (b b1 b2 : Bot)
  (r : outcome (option (list exn))) :
  command context = Some c ->
  handle_checks context b = (Returned CheckTrue, b1) ->
  _run_cooldowns context b1 = (r, b2) ->
  exists l1 l2, b2 = record_all (check_calls l1 ++ bucket_calls l2) b.
Proof.
  intros Hc Hchk Hcd.
  destruct (handle_checks_frame _ _ _ _ _ Hc Hchk) as [l1 ->].
  destruct (run_cooldowns_frame context (record_all (check_calls l1) b)) as [l2 Hf].
  rewrite Hcd in Hf. simpl in Hf. subst b2. exists l1, l2.
  apply record_all_app.
Qed.

(** An invocation that the checks and the cooldown stage let through goes on
    to the hooks and the callback: it ends as they end, and shows what the
    gates showed and then what they show.  The gates call neither callback
    nor hook and publish nothing. *)
Lemma invoke_through_gates (context : Context) (c : Command) (b b1 b2 : Bot)
  (limited : option (list exn)) :
  truthy (prefix context) = true ->
  command context = Some c ->
  handle_checks context b = (Returned CheckTrue, b1) ->
  _run_cooldowns context b1 = (Returned limited, b2) ->
  not_limited limited ->
  invoke context b = invoke_command context c b2 /\
  fst (invoke context b) = fst (invocation_steps context c b) /\
  observed (trace_since b (snd (invoke context b)))
  = observed (trace_since b b2) ++ snd (invocation_steps context c b) /\
  (forall x, In x (callees (trace_since b b2)) ->
     (exists n, x = CheckCall n) \/ (exists n, x = BucketUpdate n)) /\
  (forall event, published event (trace_since b b2) = []).
Proof.
  intros Hp Hc Hchk Hcd Hlim.
  assert (Hinv : invoke context b = invoke_command context c b2).
  { unfold invoke. rewrite Hp. simpl. unfold bind. rewrite Hchk, Hcd.
    destruct limited as [[|e l]|]; try contradiction; now rewrite Hc. }
  split; [exact Hinv|]. rewrite Hinv.
  destruct (gates_frame _ _ _ _ _ _ Hc Hchk Hcd) as [l1 [l2 ->]].
  destruct (invoke_command_takes b context c _
              (same_hooks_record_all b (check_calls l1 ++ bucket_calls l2)))
    as [b' [t [E [T [O _]]]]].
  rewrite E. cbn [fst snd]. split; [reflexivity|].
  rewrite (trace_since_app b b' ((check_calls l1 ++ bucket_calls l2) ++ t))
    by (rewrite T, trace_record_all; symmetry; apply app_assoc).
  rewrite (trace_since_app b (record_all (check_calls l1 ++ bucket_calls l2) b)
             (check_calls l1 ++ bucket_calls l2))
    by apply trace_record_all.
  split; [|split].
  - now rewrite observed_app, O.
  - intros x Hin.
    rewrite callees_app, callees_check_calls, callees_bucket_calls in Hin.
    apply in_app_or in Hin. destruct Hin as [Hin|Hin];
      apply in_map_iff in Hin; destruct Hin as [q [<- _]];
      [left | right]; now eexists.
  - intros event.
    now rewrite published_app, published_check_calls, published_bucket_calls.
Qed.

(** A non-empty list from the cooldown stage aborts the invocation: its
    first element is published through [command_error]. *)
Lemma invoke_limited (context : Context) (c : Command) (b b1 b2 : Bot)
  (e : exn) (others : list exn) :
  truthy (prefix context) = true ->
  command context = Some c ->
  handle_checks context b = (Returned CheckTrue, b1) ->
  _run_cooldowns context b1 = (Returned (Some (e :: others)), b2) ->
  fst (invoke context b) = Returned tt /\
  ~ In CommandCallback (callees (trace_since b (snd (invoke context b)))) /\
  published "command_error" (trace_since b (snd (invoke context b)))
  = [[ACtx context; AExn e]].
Proof.
  intros Hp Hc Hchk Hcd.
  destruct (handle_checks_frame _ _ _ _ _ Hc Hchk) as [l1 ->].
  destruct (run_cooldowns_frame context (record_all (check_calls l1) b)) as [l2 Hf].
  rewrite Hcd in Hf. simpl in Hf. subst b2.
  rewrite record_all_app in *.
  assert (Hinv : invoke context b
                 = run_event "command_error" [ACtx context; AExn e]
                     (record_all (check_calls l1 ++ bucket_calls l2) b)).
  { unfold invoke. rewrite Hp. simpl. unfold bind. now rewrite Hchk, Hcd. }
  rewrite Hinv. split; [apply run_event_returns|].
  rewrite (trace_since_app b _
             ((check_calls l1 ++ bucket_calls l2)
              ++ Published "command_error" [ACtx context; AExn e]
                 :: publication_notice
                      (record_all (check_calls l1 ++ bucket_calls l2) b)
                      "command_error")).
  - split.
    + rewrite !callees_app, callees_check_calls, callees_bucket_calls. simpl.
      rewrite callees_notice, app_nil_r. intros Hin.
      apply in_app_or in Hin. destruct Hin as [Hin|Hin];
        apply in_map_iff in Hin; destruct Hin as [q [Hq _]]; discriminate.
    + rewrite !published_app, published_check_calls, published_bucket_calls.
      simpl. now rewrite published_notice.
  - rewrite run_event_trace, trace_record_all, <- app_assoc. reflexivity.
Qed.

(** Past the gates, when the calls of the before-hooks return, the callback
    is called. *)
Lemma callback_called_past_gates (context : Context) (c : Command)
  (b b1 b2 : Bot) (limited : option (list exn)) :
  truthy (prefix context) = true ->
  command context = Some c ->
  handle_checks context b = (Returned CheckTrue, b1) ->
  _run_cooldowns context b1 = (Returned limited, b2) ->
  not_limited limited ->
  before_calls_return context c b ->
  In CommandCallback (callees (trace_since b (snd (invoke context b)))).
Proof.
  intros Hp Hc Hchk Hcd Hlim Hbefore.
  destruct (invoke_through_gates context c b b1 b2 limited Hp Hc Hchk Hcd Hlim)
    as [_ [_ [Hobs _]]].
  rewrite callees_observed, Hobs, obs_callees_app.
  apply in_or_app. right. now apply callback_reached.
Qed.

(** Discharges [call_returns] conditions on concrete commands. *)
Ltac calls_return :=
  repeat split;
  repeat match goal with
         | |- forall _, _ => intro
         | H : _ = Some _ |- _ =>
             cbn in H; first [discriminate H | injection H as <-]
         | |- call_returns _ => eexists; reflexivity
         end.

Lemma failed_check_blocks_callback_witness :
  truthy (prefix (context_for "!ban" ban_command)) = true /\
  command (context_for "!ban" ban_command) = Some ban_command /\
  effective_checks fresh_bot ban_command = [] ++ deny :: [] /\
  Forall (passes (view (context_for "!ban" ban_command))) [] /\
  fst (invoke (context_for "!ban" ban_command) fresh_bot) = Returned tt /\
  ~ In CommandCallback
      (callees (trace_since fresh_bot
                  (snd (invoke (context_for "!ban" ban_command) fresh_bot)))) /\
  published "command_error"
    (trace_since fresh_bot (snd (invoke (context_for "!ban" ban_command) fresh_bot)))
  = [[ACtx (context_for "!ban" ban_command); AExn (check_failure deny ban_command)]].
Proof.
  assert (H1 : truthy (prefix (context_for "!ban" ban_command)) = true)
    by reflexivity.
  assert (H2 : command (context_for "!ban" ban_command) = Some ban_command)
    by reflexivity.
  assert (H3 : effective_checks fresh_bot ban_command = [] ++ deny :: [])
    by reflexivity.
  assert (H4 : Forall (passes (view (context_for "!ban" ban_command))) [])
    by constructor.
  repeat (split; [assumption|]).
  destruct (failed_check_blocks_callback _ _ _ _ _ _ H1 H2 H3 H4) as [Hfalse _].
  destruct (Hfalse eq_refl) as [R [_ [N [P _]]]].
  repeat split; assumption.
Defined.

(** C6: at invocation time only the first cooldown group is consulted.  For
    an invocation past the checks: with no group the cooldown stage passes
    and the invocation goes on to the hooks and the callback; the buckets of
    the first group are updated in order, whatever the other groups hold, and
    when all update normally the invocation goes on to the hooks and the
    callback from the state the updates left (the callback is then called
    provided the calls of the before-hooks return); when one of them signals
    [CommandOnCooldown] the error is collected, the invocation returns
    without invoking the callback and the error is published once through
    [command_error]. *)
Theorem first_cooldown_group_gates
  (context : Context) (c : Command) (b b1 : Bot) :
  truthy (prefix context) = true ->
  command context = Some c ->
  handle_checks context b = (Returned CheckTrue, b1) ->
  (_cooldowns c = [] ->
   _run_cooldowns context b1 = (Returned None, b1) /\
   invoke context b = invoke_command context c b1 /\
   (before_calls_return context c b ->
    In CommandCallback (callees (trace_since b (snd (invoke context b))))))
  /\
  (forall (group : Cooldown) (others : list Cooldown) (buckets : list Bucket),
   _cooldowns c = group :: others ->
   get_buckets group (view context) = Returned buckets ->
   (Forall (bucket_ok (view context)) buckets ->
    _run_cooldowns context b1
    = (Returned (Some []), record_all (bucket_calls buckets) b1) /\
    invoke context b
    = invoke_command context c (record_all (bucket_calls buckets) b1) /\
    (before_calls_return context c b ->
     In CommandCallback (callees (trace_since b (snd (invoke context b))))))
   /\
   (forall (pre : list Bucket) (k : Bucket) (post : list Bucket) (e : exn),
    buckets = pre ++ k :: post ->
    Forall (bucket_ok (view context)) pre ->
    update_bucket k (view context) = Raised e ->
    exn_cls e = CommandOnCooldown ->
    _run_cooldowns context b1
    = (Returned (Some [e]), record_all (bucket_calls (pre ++ [k])) b1) /\
    fst (invoke context b) = Returned tt /\
    ~ In CommandCallback (callees (trace_since b (snd (invoke context b)))) /\
    published "command_error" (trace_since b (snd (invoke context b)))
    = [[ACtx context; AExn e]])).
Proof.
  intros Hp Hc Hchk. split.
  - intros Hnone.
    assert (Hcd : _run_cooldowns context b1 = (Returned None, b1)).
    { unfold _run_cooldowns. now rewrite Hc, Hnone. }
    split; [exact Hcd|]. split.
    + exact (proj1 (invoke_through_gates context c b b1 b1 None Hp Hc Hchk Hcd I)).
    + exact (callback_called_past_gates context c b b1 b1 None Hp Hc Hchk Hcd I).
  - intros group others buckets Hgroups Hget. split.
    + intros Hok.
      assert (Hcd : _run_cooldowns context b1
                    = (Returned (Some []), record_all (bucket_calls buckets) b1)).
      { unfold _run_cooldowns. rewrite Hc, Hgroups, Hget. unfold bind, ret.
        rewrite <- (app_nil_r buckets) at 1.
        now rewrite update_buckets_ok. }
      split; [exact Hcd|]. split.
      * exact (proj1 (invoke_through_gates context c b b1 _ (Some [])
                        Hp Hc Hchk Hcd I)).
      * exact (callback_called_past_gates context c b b1 _ (Some [])
                 Hp Hc Hchk Hcd I).
    + intros pre k post e -> Hpre Hk He.
      assert (Hcd : _run_cooldowns context b1
                    = (Returned (Some [e]),
                       record_all (bucket_calls (pre ++ [k])) b1)).
      { unfold _run_cooldowns. rewrite Hc, Hgroups, Hget. unfold bind, ret.
        rewrite update_buckets_ok by assumption.
        rewrite (update_buckets_cooldown _ k post e) by assumption.
        rewrite record_all_app. unfold bucket_calls. now rewrite map_app. }
      split; [exact Hcd|].
      exact (invoke_limited context c b b1 _ e [] Hp Hc Hchk Hcd).
Qed.

Lemma first_cooldown_group_gates_witness :
  truthy (prefix (context_for "!so" limited_command)) = true /\
  command (context_for "!so" limited_command) = Some limited_command /\
  handle_checks (context_for "!so" limited_command) fresh_bot
  = (Returned CheckTrue, fresh_bot) /\
  fst (invoke (context_for "!so" limited_command) fresh_bot) = Returned tt /\
  ~ In CommandCallback
      (callees (trace_since fresh_bot
                  (snd (invoke (context_for "!so" limited_command) fresh_bot)))) /\
  published "command_error"
    (trace_since fresh_bot (snd (invoke (context_for "!so" limited_command) fresh_bot)))
  = [[ACtx (context_for "!so" limited_command); AExn on_cooldown]].
Proof.
  assert (H1 : truthy (prefix (context_for "!so" limited_command)) = true)
    by reflexivity.
  assert (H2 : command (context_for "!so" limited_command) = Some limited_command)
    by reflexivity.
  assert (H3 : handle_checks (context_for "!so" limited_command) fresh_bot
               = (Returned CheckTrue, fresh_bot)) by reflexivity.
  repeat (split; [assumption|]).
  destruct (first_cooldown_group_gates _ _ _ _ H1 H2 H3) as [_ Hgroup].
  destruct (Hgroup _ _ [ready_bucket; spent_bucket] eq_refl eq_refl) as [_ Hspent].
  assert (Hpre : Forall (bucket_ok (view (context_for "!so" limited_command)))
                   [ready_bucket])
    by (constructor; [reflexivity | constructor]).
  destruct (Hspent [ready_bucket] spent_bucket [] on_cooldown eq_refl
              Hpre eq_refl eq_refl)
    as [_ [R [N P]]].
  repeat split; assumption.
Defined.

(** C3 (as the code has it): take an invocation that passed the checks and
    the cooldown stage and in which every call of a hook returns (what the
    call returned may still raise when awaited).  It returns normally, and
    what it shows is, in this order: the gates and the before-hooks, none of
    which calls the callback; the callback stage; the after-hooks.  When the
    callback returned, the callback stage is the call of the callback alone.
    When the callback raised [e], the callback stage is the call of the
    callback, then the command's error hook if there is one, then the
    publication of [command_error] with the context and [e].  In both cases
    the after-hooks are called after it: the command's [after_invoke] hook
    when set, then [global_after_invoke]. *)
Theorem after_hooks_follow_callback
  (context : Context) (c : Command) (b b1 b2 : Bot)
  (limited : option (list exn)) :
  truthy (prefix context) = true ->
  command context = Some c ->
  handle_checks context b = (Returned CheckTrue, b1) ->
  _run_cooldowns context b1 = (Returned limited, b2) ->
  not_limited limited ->
  hook_calls_return context c b ->
  fst (invoke context b) = Returned tt /\
  exists earlier callback_stage after : list Obs,
    observed (trace_since b (snd (invoke context b)))
    = earlier ++ callback_stage ++ after /\
    ~ In CommandCallback (obs_callees earlier) /\
    (forall u, _callback c (_instance c) (view context) = Returned u ->
       callback_stage = [OCall CommandCallback]) /\
    (forall e, _callback c (_instance c) (view context) = Raised e ->
       exists error_hook,
         callback_stage
         = OCall CommandCallback :: error_hook
           ++ [OPub "command_error" [ACtx context; AExn e]] /\
         match event_error c with
         | Some _ =>
             obs_callees error_hook = [CommandErrorHook] /\
             obs_published "command_error" error_hook = []
         | None => error_hook = []
         end) /\
    obs_callees after = after_calls c.
Proof.
  intros Hp Hc Hchk Hcd Hlim Hhooks.
  destruct (invoke_through_gates context c b b1 b2 limited Hp Hc Hchk Hcd Hlim)
    as [_ [Hfst [Hobs [Hgates _]]]].
  rewrite (invocation_steps_return _ _ _ Hhooks) in Hfst, Hobs.
  cbn [fst snd] in Hfst, Hobs.
  split; [exact Hfst|].
  destruct Hhooks as [Hgb [Hb [He [Ha Hga]]]].
  destruct (before_steps_returns context c b (conj Hgb Hb)) as [_ Hbefore].
  destruct (callback_step_shape context c He) as [_ [Hok Hraise]].
  destruct (after_steps_returns context c b Ha Hga) as [_ Hafter].
  exists (observed (trace_since b b2) ++ snd (before_steps context c b)),
    (snd (callback_step context c)), (snd (after_steps context c b)).
  split; [|split; [|split; [exact Hok | split; [exact Hraise | exact Hafter]]]].
  - rewrite Hobs. apply app_assoc.
  - rewrite obs_callees_app, <- callees_observed. intros Hin.
    apply in_app_or in Hin. destruct Hin as [Hin|Hin]; [|now apply Hbefore].
    destruct (Hgates _ Hin) as [[n Hn]|[n Hn]]; discriminate.
Qed.

Lemma after_hooks_follow_callback_witness :
  truthy (prefix (context_for "!boom" failing_command)) = true /\
  command (context_for "!boom" failing_command) = Some failing_command /\
  handle_checks (context_for "!boom" failing_command) fresh_bot
  = (Returned CheckTrue, fresh_bot) /\
  _run_cooldowns (context_for "!boom" failing_command) fresh_bot
  = (Returned None, fresh_bot) /\
  not_limited None /\
  hook_calls_return (context_for "!boom" failing_command) failing_command fresh_bot /\
  fst (invoke (context_for "!boom" failing_command) fresh_bot) = Returned tt /\
  exists earlier after : list Obs,
    observed (trace_since fresh_bot
                (snd (invoke (context_for "!boom" failing_command) fresh_bot)))
    = earlier
      ++ [OCall CommandCallback;
          OPub "command_error"
            [ACtx (context_for "!boom" failing_command); AExn boom]]
      ++ after /\
    ~ In CommandCallback (obs_callees earlier) /\
    obs_callees after = [AfterInvoke; GlobalAfterInvoke].
Proof.
  assert (H1 : truthy (prefix (context_for "!boom" failing_command)) = true)
    by reflexivity.
  assert (H2 : command (context_for "!boom" failing_command) = Some failing_command)
    by reflexivity.
  assert (H3 : handle_checks (context_for "!boom" failing_command) fresh_bot
               = (Returned CheckTrue, fresh_bot)) by reflexivity.
  assert (H4 : _run_cooldowns (context_for "!boom" failing_command) fresh_bot
               = (Returned None, fresh_bot)) by reflexivity.
  assert (H5 : hook_calls_return (context_for "!boom" failing_command)
                 failing_command fresh_bot) by calls_return.
  repeat (split; [assumption|]).
  split; [exact I|]. split; [exact H5|].
  destruct (after_hooks_follow_callback _ _ _ _ _ _ H1 H2 H3 H4 I H5)
    as [R [earlier [callback_stage [after [E [N [_ [Hraise A]]]]]]]].
  split; [exact R|].
  destruct (Hraise boom eq_refl) as [error_hook [Hstage Hhook]].
  cbn in Hhook. subst error_hook.
  exists earlier, after. rewrite E, Hstage. repeat split; assumption.
Defined.

(** C3, the claim as stated fails: the callback of [!boom] raises, and both
    after-hooks are still called after it. *)
Lemma after_hooks_run_after_raising_callback :
  _callback failing_command (_instance failing_command)
    (view (context_for "!boom" failing_command)) = Raised boom /\
  callees (trace_since fresh_bot
             (snd (invoke (context_for "!boom" failing_command) fresh_bot)))
  = [GlobalBeforeInvoke; CommandCallback; AfterInvoke; GlobalAfterInvoke] /\
  published "command_error"
    (trace_since fresh_bot
       (snd (invoke (context_for "!boom" failing_command) fresh_bot)))
  = [[ACtx (context_for "!boom" failing_command); AExn boom]].
Proof. repeat split. Qed.

(** ** Coroutine-function checks *)

(** A coroutine function put in a check list always passes: the check loop
    calls it without awaiting, and the coroutine object it gets is not
    [False], whatever the coroutine would resolve to. *)
Lemma async_predicate_passes (repr : string) (body : CtxView -> outcome PyVal)
  (v : CtxView) :
  passes v (async_predicate repr body).
Proof. exists (VCoro (body v)). now split. Qed.

(** C4, at the failing input: the only check of [!ban] is a coroutine
    function resolving to [False].  [handle_checks] returns [True], the
    callback is invoked and no [command_error] is published, while the same
    check written as a plain function blocks the callback. *)
Theorem async_check_false_does_not_block :
  fst (handle_checks (context_for "!ban" async_ban_command) fresh_bot)
  = Returned CheckTrue /\
  callees (trace_since fresh_bot
             (snd (invoke (context_for "!ban" async_ban_command) fresh_bot)))
  = [CheckCall "is_mod"; GlobalBeforeInvoke; CommandCallback; GlobalAfterInvoke] /\
  published "command_error"
    (trace_since fresh_bot
       (snd (invoke (context_for "!ban" async_ban_command) fresh_bot)))
  = [] /\
  callees (trace_since fresh_bot
             (snd (invoke (context_for "!ban" ban_command) fresh_bot)))
  = [CheckCall "is_mod"].
Proof. repeat split. Qed.

(** ** Messages that name no command *)


Section DispatchProperties.

Variable process_string : string -> outcome (list string).



End DispatchProperties.



(** With the empty string as the configured prefix every message starts with
    it, yet [get_context] takes the message for a non-command: nothing is
    raised and nothing published. *)
Lemma empty_prefix_matches_nothing :
  get_prefix {| content := "nope" |} empty_prefix_bot = Returned (Some EmptyString) /\
  handle_commands spec_process_string {| content := "nope" |} empty_prefix_bot
  = (Returned tt, empty_prefix_bot).
Proof. split; reflexivity. Qed.

(** ** The command registry *)

Lemma dict_get_set_same {V} (k : string) (v : V) (d : dict V) :
  dict_get k (dict_set k v d) = Some v.
Proof.
  induction d as [|[k' v'] d IH]; simpl.
  - now rewrite String.eqb_refl.
  - destruct (String.eqb k' k) eqn:E; simpl.
    + now rewrite String.eqb_refl.
    + now rewrite E.
Qed.

Lemma dict_get_set_other {V} (k k' : string) (v : V) (d : dict V) :
  k <> k' -> dict_get k' (dict_set k v d) = dict_get k' d.
Proof.
  intros Hne. induction d as [|[k0 v0] d IH]; simpl.
  - destruct (String.eqb k k') eqn:E; [|reflexivity].
    apply String.eqb_eq in E. contradiction.
  - destruct (String.eqb k0 k) eqn:E; simpl.
    + apply String.eqb_eq in E. subst k0.
      destruct (String.eqb k k') eqn:E'; [|reflexivity].
      apply String.eqb_eq in E'. contradiction.
    + now rewrite IH.
Qed.

Lemma dict_get_remove_other {V} (k k' : string) (d : dict V) :
  k <> k' -> dict_get k' (dict_remove k d) = dict_get k' d.
Proof.
  intros Hne. induction d as [|[k0 v0] d IH]; simpl.
  - reflexivity.
  - destruct (String.eqb k0 k) eqn:E; simpl.
    + apply String.eqb_eq in E. subst k0.
      destruct (String.eqb k k') eqn:E'; [|reflexivity].
      apply String.eqb_eq in E'. contradiction.
    + now rewrite IH.
Qed.

Lemma dict_in_set_same {V} (k : string) (v : V) (d : dict V) :
  dict_in k (dict_set k v d) = true.
Proof. unfold dict_in. now rewrite dict_get_set_same. Qed.



(** The alias loop, entered with the command's name registered: it returns,
    or it removes the name again and raises the duplicate error; the
    [KeyError] of the deletion cannot happen. *)
Lemma add_aliases_cases (c : Command) (als : list string) (b : Bot) :
  dict_in (name c) (_commands b) = true ->
  trace (snd (add_aliases c als b)) = trace b /\
  ((fst (add_aliases c als b) = Returned tt /\
    _commands (snd (add_aliases c als b)) = _commands b)
   \/
   (fst (add_aliases c als b) = Raised (duplicate_alias_error c) /\
    _commands (snd (add_aliases c als b)) = dict_remove (name c) (_commands b))).
Proof.
  revert b. induction als as [|alias rest IH]; intros b Hin; simpl.
  - split; [reflexivity|]. now left.
  - destruct (dict_in alias (_commands b)).
    + unfold dict_delitem. rewrite Hin. simpl. split; [reflexivity|]. now right.
    + apply (IH (with_command_aliases
                   (dict_set alias (name c) (_command_aliases b)) b)).
      exact Hin.
Qed.

(** The three ways [add_command] can end. *)
Lemma add_command_cases (c : Command) (b : Bot) :
  trace (snd (add_command c b)) = trace b /\
  (((fst (add_command c b) = Raised (duplicate_name_error c) \/
     fst (add_command c b) = Raised (not_coroutine_error c)) /\
    snd (add_command c b) = b)
   \/
   (dict_in (name c) (_commands b) = false /\
    fst (add_command c b) = Returned tt /\
    _commands (snd (add_command c b)) = dict_set (name c) c (_commands b))
   \/
   (dict_in (name c) (_commands b) = false /\
    fst (add_command c b) = Raised (duplicate_alias_error c) /\
    _commands (snd (add_command c b))
    = dict_remove (name c) (dict_set (name c) c (_commands b)))).
Proof.
  unfold add_command.
  destruct (dict_in (name c) (_commands b)) eqn:Hin; simpl.
  { split; [reflexivity|]. left. split; [now left | reflexivity]. }
  destruct (callback_iscoroutinefunction c); simpl.
  2:{ split; [reflexivity|]. left. split; [now right | reflexivity]. }
  destruct (aliases c) as [|alias rest] eqn:Hal.
  { split; [reflexivity|]. right. left. now repeat split. }
  destruct (add_aliases_cases c (alias :: rest)
              (with_commands (dict_set (name c) c (_commands b)) b))
    as [Ht [[Hr Hc]|[Hr Hc]]].
  - simpl. apply dict_in_set_same.
  - split; [exact Ht|]. right. left. now repeat split.
  - split; [exact Ht|]. right. right. now repeat split.
Qed.

(** A failed registration on a name collision or a non-coroutine callback
    leaves the bot untouched. *)
Lemma add_command_name_taken (c : Command) (b : Bot) :
  dict_in (name c) (_commands b) = true ->
  add_command c b = (Raised (duplicate_name_error c), b).
Proof. intros H. unfold add_command. now rewrite H. Qed.


(** C2, at the failing inputs.  [greet] with alias [hi] is registered.
    Registering [wave] with aliases [yo], [greet] fails on the second alias:
    the name [wave] is rolled back, but the alias [yo], added before the
    collision, stays in the alias map.  Registering a command named [hi], an
    existing alias, succeeds.  Registering [hello] with alias [hi] succeeds
    and overwrites the alias [hi] of [greet]. *)
Theorem add_command_leaves_partial_state :
  _command_aliases registered_bot = [("hi", "greet")] /\
  fst (add_command wave_command registered_bot)
  = Raised (duplicate_alias_error wave_command) /\
  dict_in "wave" (_commands (snd (add_command wave_command registered_bot))) = false /\
  _command_aliases (snd (add_command wave_command registered_bot))
  = [("hi", "greet"); ("yo", "wave")] /\
  fst (add_command hi_command registered_bot) = Returned tt /\
  fst (add_command hello_command registered_bot) = Returned tt /\
  _command_aliases (snd (add_command hello_command registered_bot))
  = [("hi", "hello")].
Proof. repeat split. Qed.

(** ** Registration at construction *)




(** Three command members, the second a duplicate of the first: one
    traceback, and the two other commands registered. *)
Example init_commands_demo :
  fst (__init__commands__ "bot" demo_members fresh_bot) = Returned tt /\
  dict_keys (_commands (snd (__init__commands__ "bot" demo_members fresh_bot)))
  = ["greet"; "hi"] /\
  trace (snd (__init__commands__ "bot" demo_members fresh_bot))
  = [PrintedTraceback (duplicate_name_error (bind_instance "bot" greet_twin))].
Proof. repeat split. Qed.


(** ** The event bus *)

Lemma run_event_tasks (event : string) (a : list EventArg) (b : Bot) :
  loop_tasks (snd (run_event event a b)) = loop_tasks b ++ scheduled_by b event a.
Proof.
  unfold run_event, scheduled_by. simpl.
  destruct (instance_attr b event) as [[|]|]; simpl;
    match goal with
    | |- context [dict_get event ?d] => destruct (dict_get event d)
    end; rewrite ?loop_tasks_schedule; simpl;
    rewrite <- ?app_assoc, ?app_nil_r; reflexivity.
Qed.

(** Running one task: it returns, the call of the handler is in the trace,
    a raised exception is published as [error], and the queue only grows at
    its end. *)
Lemma wrapped_runs (t : Task) (s : Bot) :
  exists added w,
    fst (wrapped t s) = Returned tt /\
    loop_tasks (snd (wrapped t s)) = loop_tasks s ++ added /\
    trace (snd (wrapped t s)) = trace s ++ w /\
    callees w = task_calls t /\
    published "error" w
    = match t with
      | TaskHandler cb a =>
          match await_call cb a with
          | Raised e => [[AExn e]]
          | Returned _ => []
          end
      | TaskInner _ _ => [[AExn (Exn TypeError "'coroutine' object is not callable")]]
      end.
Proof.
  destruct t as [cb a|attr a]; unfold wrapped, try_except, bind, call_user, raise, ret.
  - destruct (await_call cb a) as [v|e].
    + exists [], [Called (HandlerCall (c_name cb))]. simpl.
      now rewrite app_nil_r.
    + exists (scheduled_by (record (Called (HandlerCall (c_name cb))) s) "error" [AExn e]),
        (Called (HandlerCall (c_name cb)) :: Published "error" [AExn e]
         :: publication_notice (record (Called (HandlerCall (c_name cb))) s) "error").
      rewrite run_event_tasks, run_event_trace. simpl.
      rewrite callees_notice, published_notice, <- app_assoc. now repeat split.
  - exists (scheduled_by s "error" [AExn (Exn TypeError "'coroutine' object is not callable")]),
      (Published "error" [AExn (Exn TypeError "'coroutine' object is not callable")]
       :: publication_notice s "error").
    rewrite run_event_tasks, run_event_trace. simpl.
    rewrite callees_notice, published_notice. now repeat split.
Qed.

Lemma loop_step_runs_head (s : Bot) (t : Task) (rest : list Task) :
  loop_tasks s = t :: rest ->
  exists added w,
    loop_tasks (loop_step s) = rest ++ added /\
    trace (loop_step s) = trace s ++ w /\
    callees w = task_calls t /\
    published "error" w
    = match t with
      | TaskHandler cb a =>
          match await_call cb a with
          | Raised e => [[AExn e]]
          | Returned _ => []
          end
      | TaskInner _ _ => [[AExn (Exn TypeError "'coroutine' object is not callable")]]
      end.
Proof.
  intros Hq. unfold loop_step. rewrite Hq.
  destruct (wrapped_runs t (with_loop_tasks rest s)) as [added [w [_ [Hl [Ht [Hc Hp]]]]]].
  exists added, w. now repeat split.
Qed.

(** The loop runs the queue in order: after [n] turns the first [n] tasks
    have been run, each calling its handler, and the others are still
    queued. *)
Lemma run_loop_runs_prefix (n : nat) (s : Bot) :
  n <= length (loop_tasks s) ->
  exists added w,
    loop_tasks (run_loop n s) = skipn n (loop_tasks s) ++ added /\
    trace (run_loop n s) = trace s ++ w /\
    callees w = flat_map task_calls (firstn n (loop_tasks s)).
Proof.
  revert s. induction n as [|n IH]; intros s Hn.
  - exists [], []. simpl. now rewrite !app_nil_r.
  - destruct (loop_tasks s) as [|t rest] eqn:Hq; [simpl in Hn; lia|].
    simpl in Hn. apply le_S_n in Hn.
    destruct (loop_step_runs_head s t rest Hq) as [added1 [w1 [Hl1 [Ht1 [Hc1 _]]]]].
    assert (Hn' : n <= length (loop_tasks (loop_step s))).
    { rewrite Hl1, length_app. lia. }
    destruct (IH (loop_step s) Hn') as [added2 [w2 [Hl2 [Ht2 Hc2]]]].
    exists (added1 ++ added2), (w1 ++ w2). simpl. repeat split.
    + rewrite Hl2, Hl1, skipn_app.
      replace (n - length rest) with 0 by lia. simpl. now rewrite <- app_assoc.
    + rewrite Ht2, Ht1. now rewrite <- app_assoc.
    + rewrite callees_app, Hc1, Hc2, Hl1, firstn_app.
      replace (n - length rest) with 0 by lia. simpl. now rewrite app_nil_r.
Qed.

Lemma task_calls_handlers (a : list EventArg) (l : list Callable) :
  flat_map task_calls (map (fun cb => TaskHandler cb a) l)
  = map (fun cb => HandlerCall (c_name cb)) l.
Proof. induction l as [|cb l IH]; simpl; [reflexivity | now rewrite IH]. Qed.

(** A subscription goes to the end of the list of its event. *)
Lemma append_subscriber_last (event : string) (cb : Callable) (b : Bot) :
  dict_get event (_events (append_subscriber event cb b))
  = Some (match dict_get event (_events b) with
          | Some subscribers => subscribers
          | None => []
          end ++ [cb]).
Proof.
  unfold append_subscriber.
  destruct (dict_get event (_events b)); simpl; apply dict_get_set_same.
Qed.

Lemma append_subscriber_frame (event : string) (cb : Callable) (b : Bot) :
  loop_tasks (append_subscriber event cb b) = loop_tasks b /\
  instance_attr (append_subscriber event cb b) = instance_attr b.
Proof.
  unfold append_subscriber. now destruct (dict_get event (_events b)).
Qed.

(** C5: publishing an event schedules every subscriber of its list, in list
    (subscription) order, behind what was already queued; a callback
    appended to the list by a later subscription is scheduled last.  When a scheduled
    subscriber raises, its wrapper catches the exception and publishes it as
    an [error] event; the tasks queued behind it stay queued, in order.
    Whatever the subscribers raise, once the loop has run the queue every
    subscriber has been called, in subscription order.  This holds for any
    number of subscribers, two or more in particular. *)
Theorem subscribers_scheduled_in_order
  (event : string) (a : list EventArg) (b : Bot) (subscribers : list Callable) :
  dict_get event (_events b) = Some subscribers ->
  (exists inner,
     loop_tasks (snd (run_event event a b))
     = loop_tasks b ++ inner ++ map (fun cb => TaskHandler cb a) subscribers /\
     (forall t, In t inner -> t = TaskInner event a) /\
     forall later : Callable,
       loop_tasks (snd (run_event event a (append_subscriber event later b)))
       = loop_tasks b ++ inner
         ++ map (fun cb => TaskHandler cb a) (subscribers ++ [later]))
  /\
  (forall (s : Bot) (cb : Callable) (rest : list Task) (e : exn),
     loop_tasks s = TaskHandler cb a :: rest ->
     await_call cb a = Raised e ->
     published "error" (trace_since s (loop_step s)) = [[AExn e]] /\
     exists added, loop_tasks (loop_step s) = rest ++ added)
  /\
  (exists earlier,
     callees (trace_since (snd (run_event event a b))
                (run_loop (length (loop_tasks (snd (run_event event a b))))
                   (snd (run_event event a b))))
     = earlier ++ map (fun cb => HandlerCall (c_name cb)) subscribers).
Proof.
  intros Hsub.
  assert (Hq : loop_tasks (snd (run_event event a b))
               = loop_tasks b
                 ++ match instance_attr b event with
                    | Some true => [TaskInner event a]
                    | _ => []
                    end
                 ++ map (fun cb => TaskHandler cb a) subscribers).
  { rewrite run_event_tasks. unfold scheduled_by. now rewrite Hsub. }
  split; [|split].
  - eexists. split; [exact Hq|]. split.
    + intros t Ht. destruct (instance_attr b event) as [[|]|]; simpl in Ht;
        try contradiction. destruct Ht as [<-|[]]. reflexivity.
    + intros later. rewrite run_event_tasks. unfold scheduled_by.
      rewrite append_subscriber_last, Hsub.
      destruct (append_subscriber_frame event later b) as [-> ->]. reflexivity.
  - intros s cb rest e Hs He.
    destruct (loop_step_runs_head s _ rest Hs) as [added [w [Hl [Ht [_ Hp]]]]].
    rewrite He in Hp. rewrite (trace_since_app _ _ _ Ht). split; [exact Hp|].
    now exists added.
  - destruct (run_loop_runs_prefix (length (loop_tasks (snd (run_event event a b))))
                (snd (run_event event a b)) (le_n _)) as [added [w [_ [Ht Hc]]]].
    rewrite (trace_since_app _ _ _ Ht), Hc, firstn_all, Hq.
    rewrite !flat_map_app, task_calls_handlers, app_assoc. now eexists.
Qed.

Lemma subscribers_scheduled_in_order_witness :
  dict_get "join" (_events join_bot) = Some [raising_handler; quiet_handler] /\
  loop_tasks (snd (run_event "join" [AData "#chan"] join_bot))
  = [TaskHandler raising_handler [AData "#chan"];
     TaskHandler quiet_handler [AData "#chan"]] /\
  published "error"
    (trace_since (snd (run_event "join" [AData "#chan"] join_bot))
       (loop_step (snd (run_event "join" [AData "#chan"] join_bot))))
  = [[AExn boom]] /\
  exists earlier,
    callees (trace_since (snd (run_event "join" [AData "#chan"] join_bot))
               (run_loop 2 (snd (run_event "join" [AData "#chan"] join_bot))))
    = earlier ++ [HandlerCall "log_join"; HandlerCall "greet_join"].
Proof.
  assert (H : dict_get "join" (_events join_bot)
              = Some [raising_handler; quiet_handler]) by reflexivity.
  split; [exact H|]. split; [reflexivity|].
  destruct (subscribers_scheduled_in_order "join" [AData "#chan"] join_bot _ H)
    as [_ [Hraise Hall]].
  split.
  - exact (proj1 (Hraise (snd (run_event "join" [AData "#chan"] join_bot))
                    raising_handler [TaskHandler quiet_handler [AData "#chan"]]
                    boom eq_refl eq_refl)).
  - exact Hall.
Defined.

(** No callable can be subscribed through [add_event]: functions, coroutine
    functions included, fail the [inspect.iscoroutine] guard, and a coroutine
    object passes the guard but does not take the [_event] attribute.  The
    registry is never changed. *)
Lemma add_event_never_subscribes (callback : Callable) (nm : option string) (b : Bot) :
  exists e, add_event callback nm b = (Raised e, b).
Proof.
  unfold add_event, iscoroutine, set_event_attr.
  destruct (c_kind callback); simpl; eexists; reflexivity.
Qed.

(** C9, at the failing input: the coroutine function [greet_join] is an
    async callback, and [add_event] rejects it with the error of the
    non-coroutine case; the coroutine object of a call of it passes that
    test and is not subscribed either. *)
Theorem add_event_rejects_coroutine_function :
  iscoroutinefunction quiet_handler = true /\
  add_event quiet_handler (Some "join") fresh_bot
  = (Raised (Exn ValueError "callback must be a coroutine"), fresh_bot) /\
  add_event pending_coroutine (Some "join") fresh_bot
  = (Raised (Exn AttributeError "'coroutine' object has no attribute '_event'"),
     fresh_bot).
Proof. repeat split. Qed.

(** ** Reloading a module *)

(** C8, at the failing input: the module [greetings] was loaded and
    registered the command [greet].  [reload_module] raises while scanning
    the command map, after the module record was popped: the module is no
    longer recorded as loaded, nothing is restored. *)
Theorem reload_module_loses_module_record :
  dict_keys (_modules greetings_bot) = ["greetings"] /\
  dict_keys (_commands greetings_bot) = ["greet"] /\
  fst (reload_module "greetings" greetings_bot)
  = Raised (Exn ValueError "too many values to unpack (expected 2)") /\
  dict_keys (_modules (snd (reload_module "greetings" greetings_bot))) = [] /\
  fst (reload_module "greetings" (snd (reload_module "greetings" greetings_bot)))
  = Raised (Exn ValueError "Module <greetings> is not loaded").
Proof. repeat split. Qed.

(** With nothing registered the scans pass.  The reloaded module's [prepare]
    registers [hi] and then raises: the module record is put back, and the
    command registered by the failed [prepare] stays. *)
Lemma failed_reload_keeps_partial_prepare :
  dict_keys (_modules tools_bot) = ["tools"] /\
  dict_keys (_commands tools_bot) = [] /\
  fst (reload_module "tools" tools_bot) = Raised boom /\
  dict_keys (_modules (snd (reload_module "tools" tools_bot))) = ["tools"] /\
  dict_keys (_commands (snd (reload_module "tools" tools_bot))) = ["hi"].
Proof. repeat split. Qed.

(** Unloading meets the same scan. *)
Lemma unload_module_raises_on_commands :
  fst (unload_module "greetings" greetings_bot)
  = Raised (Exn ValueError "too many values to unpack (expected 2)") /\
  dict_keys (_commands (snd (unload_module "greetings" greetings_bot))) = ["greet"].
Proof. repeat split. Qed.

(** * Further properties of the registry, the pipeline and the modules *)

(** ** Registering and looking up *)

Lemma dict_remove_set_absent {V} (k : string) (v : V) (d : dict V) :
  dict_in k d = false -> dict_remove k (dict_set k v d) = d.
Proof.
  unfold dict_in. induction d as [|[k' v'] d IH]; simpl; intros H.
  - now rewrite String.eqb_refl.
  - destruct (String.eqb k' k) eqn:E; [discriminate|].
    simpl. rewrite E. now rewrite IH.
Qed.

Lemma dict_in_true_get {V} (k : string) (d : dict V) :
  dict_in k d = true -> exists v, dict_get k d = Some v.
Proof. unfold dict_in. destruct (dict_get k d) as [v|]; [now exists v | discriminate]. Qed.

(** X2: whenever [add_command] raises, what it raises is a
    [TwitchCommandError] and the name-to-command map is exactly the map
    before the call: the name is never left behind and no entry is lost. *)
Theorem add_command_failure_restores_commands (c : Command) (b : Bot) (e : exn) :
  fst (add_command c b) = Raised e ->
  exn_cls e = TwitchCommandError /\
  _commands (snd (add_command c b)) = _commands b.
Proof.
  intros H.
  destruct (add_command_cases c b) as [_ [[[Hr|Hr] Hs]|[[_ [Hr _]]|[Hk [Hr Hc]]]]];
    rewrite Hr in H; try discriminate; injection H as <-.
  - now rewrite Hs.
  - now rewrite Hs.
  - split; [reflexivity|]. rewrite Hc. now apply dict_remove_set_absent.
Qed.

Lemma add_command_failure_restores_commands_witness :
  fst (add_command wave_command registered_bot)
  = Raised (duplicate_alias_error wave_command) /\
  exn_cls (duplicate_alias_error wave_command) = TwitchCommandError /\
  _commands (snd (add_command wave_command registered_bot))
  = _commands registered_bot.
Proof.
  assert (H : fst (add_command wave_command registered_bot)
              = Raised (duplicate_alias_error wave_command)) by reflexivity.
  split; [exact H|].
  exact (add_command_failure_restores_commands wave_command registered_bot _ H).
Defined.

(** X3: [add_command] never replaces a registered command: a name that was
    registered before the call maps to the same command after it, whether
    the call succeeds or fails. *)
Theorem add_command_keeps_registered (c : Command) (b : Bot) (n : string) :
  dict_in n (_commands b) = true ->
  dict_get n (_commands (snd (add_command c b))) = dict_get n (_commands b).
Proof.
  intros Hn.
  destruct (add_command_cases c b) as [_ [[_ Hs]|[[Hk [_ Hc]]|[Hk [_ Hc]]]]].
  - now rewrite Hs.
  - rewrite Hc. apply dict_get_set_other. intros Heq. rewrite Heq in Hk.
    congruence.
  - rewrite Hc. now rewrite dict_remove_set_absent.
Qed.

Lemma add_command_keeps_registered_witness :
  dict_in "greet" (_commands registered_bot) = true /\
  dict_get "greet" (_commands (snd (add_command greet_twin registered_bot)))
  = dict_get "greet" (_commands registered_bot).
Proof.
  assert (H : dict_in "greet" (_commands registered_bot) = true) by reflexivity.
  split; [exact H|].
  exact (add_command_keeps_registered greet_twin registered_bot "greet" H).
Defined.

(** The alias loop writes only the aliases it is given, each to the name of
    the command. *)
Lemma add_aliases_keeps_target (c : Command) (als : list string) (b : Bot) (a : string) :
  dict_get a (_command_aliases b) = Some (name c) ->
  dict_get a (_command_aliases (snd (add_aliases c als b))) = Some (name c).
Proof.
  revert b. induction als as [|alias rest IH]; intros b H; simpl.
  - exact H.
  - destruct (dict_in alias (_commands b)).
    + destruct (dict_delitem (name c) (_commands b)); exact H.
    + apply IH. simpl. destruct (String.eqb alias a) eqn:E.
      * apply String.eqb_eq in E. subst a. apply dict_get_set_same.
      * apply String.eqb_neq in E. now rewrite dict_get_set_other.
Qed.

Lemma add_aliases_frame (c : Command) (als : list string) (b : Bot) (a : string) :
  ~ In a als ->
  dict_get a (_command_aliases (snd (add_aliases c als b)))
  = dict_get a (_command_aliases b).
Proof.
  revert b. induction als as [|alias rest IH]; intros b H; simpl.
  - reflexivity.
  - destruct (dict_in alias (_commands b)).
    + now destruct (dict_delitem (name c) (_commands b)).
    + rewrite IH by (intros Hin; apply H; now right). simpl.
      apply dict_get_set_other. intros ->. apply H. now left.
Qed.

Lemma add_aliases_success (c : Command) (als : list string) (b : Bot) :
  fst (add_aliases c als b) = Returned tt ->
  _commands (snd (add_aliases c als b)) = _commands b /\
  forall a, In a als ->
    dict_in a (_commands b) = false /\
    dict_get a (_command_aliases (snd (add_aliases c als b))) = Some (name c).
Proof.
  revert b. induction als as [|alias rest IH]; intros b H; simpl in *.
  - split; [reflexivity|]. intros a [].
  - destruct (dict_in alias (_commands b)) eqn:Hal.
    + destruct (dict_delitem (name c) (_commands b)); discriminate.
    + destruct (IH _ H) as [Hc Hall]. split; [exact Hc|].
      intros a [<-|Hin].
      * split; [exact Hal|]. apply add_aliases_keeps_target. simpl.
        apply dict_get_set_same.
      * exact (Hall a Hin).
Qed.

(** What a successful [add_command] leaves: the command under its name, its
    aliases pointing to that name, every other alias untouched. *)
Lemma add_command_success (c : Command) (b : Bot) :
  fst (add_command c b) = Returned tt ->
  _commands (snd (add_command c b)) = dict_set (name c) c (_commands b) /\
  ~ In (name c) (aliases c) /\
  (forall a, In a (aliases c) ->
     dict_get a (_command_aliases (snd (add_command c b))) = Some (name c)) /\
  (forall a, ~ In a (aliases c) ->
     dict_get a (_command_aliases (snd (add_command c b)))
     = dict_get a (_command_aliases b)).
Proof.
  unfold add_command.
  destruct (dict_in (name c) (_commands b)); [discriminate|].
  destruct (callback_iscoroutinefunction c); [|discriminate]. simpl.
  destruct (aliases c) as [|alias rest] eqn:Hal.
  - intros _. simpl. repeat split; auto. intros a [].
  - intros H. destruct (add_aliases_success c (alias :: rest) _ H) as [Hc Hall].
    split; [exact Hc|]. split; [|split].
    + intros Hin. destruct (Hall _ Hin) as [Habs _]. simpl in Habs.
      now rewrite dict_in_set_same in Habs.
    + intros a Hin. exact (proj2 (Hall a Hin)).
    + intros a Hnin. now rewrite add_aliases_frame.
Qed.

(** X1: after a successful [add_command], [get_command] finds the command
    under each of its aliases, and under its name provided the name was not
    already an alias of something else. *)
Theorem get_command_after_add_command (c : Command) (b : Bot) :
  fst (add_command c b) = Returned tt ->
  (forall a, In a (aliases c) -> get_command a (snd (add_command c b)) = Some c) /\
  (dict_in (name c) (_command_aliases b) = false ->
   get_command (name c) (snd (add_command c b)) = Some c).
Proof.
  intros H. destruct (add_command_success c b H) as [Hc [Hnin [Hal Hframe]]].
  split.
  - intros a Hin. unfold get_command. rewrite (Hal a Hin), Hc.
    apply dict_get_set_same.
  - intros Hfree. unfold get_command. rewrite (Hframe _ Hnin).
    unfold dict_in in Hfree.
    destruct (dict_get (name c) (_command_aliases b)); [discriminate|].
    rewrite Hc. apply dict_get_set_same.
Qed.

Lemma get_command_after_add_command_witness :
  fst (add_command greet_command fresh_bot) = Returned tt /\
  get_command "hi" (snd (add_command greet_command fresh_bot)) = Some greet_command /\
  get_command "greet" (snd (add_command greet_command fresh_bot)) = Some greet_command.
Proof.
  assert (H : fst (add_command greet_command fresh_bot) = Returned tt) by reflexivity.
  split; [exact H|].
  destruct (get_command_after_add_command greet_command fresh_bot H) as [Hal Hn].
  split.
  - apply Hal. now left.
  - apply Hn. reflexivity.
Defined.

(** ** Prefix resolution *)

Lemma first_prefix_sound (text : string) (l : list string) (p : string) :
  first_prefix text l = Some p -> In p l /\ String.prefix p text = true.
Proof.
  induction l as [|q l IH]; simpl; [discriminate|].
  destruct (String.prefix q text) eqn:E.
  - intros [= <-]. split; [now left | exact E].
  - intros H. destruct (IH H) as [Hin Hp]. split; [now right | exact Hp].
Qed.

Lemma first_prefix_skips (text : string) (pre rest : list string) :
  Forall (no_match text) pre ->
  first_prefix text (pre ++ rest) = first_prefix text rest.
Proof.
  induction 1 as [|q pre Hq _ IH]; simpl; [reflexivity|].
  unfold no_match in Hq. now rewrite Hq.
Qed.

(** X4: a prefix returned by [get_prefix] leads the content of the message
    and is the configured string or one of the configured collection. *)
Theorem get_prefix_sound (msg : Message) (b : Bot) (p : string) :
  get_prefix msg b = Returned (Some p) ->
  String.prefix p (content msg) = true /\
  (__get_prefixes__ msg b = Returned (PStr p) \/
   exists l, __get_prefixes__ msg b = Returned (PSeq l) /\ In p l).
Proof.
  unfold get_prefix. destruct (__get_prefixes__ msg b) as [[s|l|t]|e]; try discriminate.
  - destruct (String.prefix s (content msg)) eqn:E; [|discriminate].
    intros [= <-]. split; [exact E | now left].
  - intros [= H]. destruct (first_prefix_sound _ _ _ H) as [Hin Hp].
    split; [exact Hp|]. right. now exists l.
Qed.

Lemma get_prefix_sound_witness :
  get_prefix {| content := "!!echo hi" |} two_prefix_bot = Returned (Some "!") /\
  String.prefix "!" (content {| content := "!!echo hi" |}) = true.
Proof.
  assert (H : get_prefix {| content := "!!echo hi" |} two_prefix_bot
              = Returned (Some "!")) by reflexivity.
  split; [exact H|].
  exact (proj1 (get_prefix_sound _ _ _ H)).
Defined.

(** X5: over a collection of prefixes the first one, in iteration order,
    that leads the content is returned, even when a later one leads it too;
    when none does the result is [None]. *)
Theorem get_prefix_first_match (msg : Message) (b : Bot) (l : list string) :
  __get_prefixes__ msg b = Returned (PSeq l) ->
  (forall pre p post,
     l = pre ++ p :: post ->
     Forall (no_match (content msg)) pre ->
     String.prefix p (content msg) = true ->
     get_prefix msg b = Returned (Some p)) /\
  (Forall (no_match (content msg)) l -> get_prefix msg b = Returned None).
Proof.
  intros H. unfold get_prefix. rewrite H. split.
  - intros pre p post -> Hpre Hp. rewrite first_prefix_skips by assumption.
    simpl. now rewrite Hp.
  - intros Hall. rewrite <- (app_nil_r l). now rewrite first_prefix_skips.
Qed.

Lemma get_prefix_first_match_witness :
  __get_prefixes__ {| content := "!!echo hi" |} two_prefix_bot
  = Returned (PSeq ["?"; "!"; "!!"]) /\
  Forall (no_match "!!echo hi") ["?"] /\
  String.prefix "!" "!!echo hi" = true /\
  String.prefix "!!" "!!echo hi" = true /\
  get_prefix {| content := "!!echo hi" |} two_prefix_bot = Returned (Some "!").
Proof.
  assert (H1 : __get_prefixes__ {| content := "!!echo hi" |} two_prefix_bot
               = Returned (PSeq ["?"; "!"; "!!"])) by reflexivity.
  assert (H2 : Forall (no_match "!!echo hi") ["?"])
    by (constructor; [reflexivity | constructor]).
  repeat (split; [assumption || reflexivity|]).
  exact (proj1 (get_prefix_first_match _ _ _ H1) ["?"] "!" ["!!"] eq_refl H2 eq_refl).
Defined.

(** ** Messages and contexts *)

Section MoreDispatchProperties.

Variable process_string : string -> outcome (list string).

(** X6: a message that matches no prefix (or only the empty prefix) is not a
    command: [handle_commands] returns normally and leaves the bot as it
    was, nothing published, scheduled or called. *)
Theorem non_command_message_is_ignored (msg : Message) (b : Bot)
  (pfx : option string) :
  get_prefix msg b = Returned pfx ->
  truthy pfx = false ->
  handle_commands process_string msg b = (Returned tt, b).
Proof.
  intros Hp Ht. unfold handle_commands, get_context. rewrite Hp.
  destruct pfx as [[|c0 p0]|]; try discriminate; reflexivity.
Qed.

(** X7: [get_context] resolves the first token as [get_command] does, name
    or alias, hands the remaining tokens to the command's argument binder
    and returns a valid context holding the matched prefix, the command and
    the bound arguments; [handle_commands] then is the invocation of that
    context. *)
Theorem get_context_resolves (msg : Message) (b : Bot) (p token : string)
  (rest a : list string) (kw : list (string * string)) (cmd : Command) :
  get_prefix msg b = Returned (Some p) ->
  p <> EmptyString ->
  process_string (lstrip_spaces (string_drop (String.length p) (content msg)))
  = Returned (token :: rest) ->
  get_command token b = Some cmd ->
  parse_args cmd (_instance cmd) rest = Returned (a, kw) ->
  get_context process_string msg b
  = Returned {| message := msg; prefix := Some p; command := Some cmd;
                args := a; kwargs := kw; valid := true |} /\
  handle_commands process_string msg b
  = invoke {| message := msg; prefix := Some p; command := Some cmd;
              args := a; kwargs := kw; valid := true |} b.
Proof.
  intros Hp Hne Htok Hcmd Hargs.
  assert (Hctx : get_context process_string msg b
                 = Returned {| message := msg; prefix := Some p;
                               command := Some cmd; args := a; kwargs := kw;
                               valid := true |}).
  { unfold get_context. rewrite Hp. destruct p as [|c0 p0]; [now elim Hne|].
    rewrite Htok. unfold get_command in Hcmd. rewrite Hcmd, Hargs. reflexivity. }
  split; [exact Hctx|]. unfold handle_commands. now rewrite Hctx.
Qed.

(** X8: an error of the tokenizer or of the argument binder is not published:
    it propagates out of [handle_commands], the bot left as it was. *)
Theorem parse_errors_propagate (msg : Message) (b : Bot) (p : string) (e : exn) :
  get_prefix msg b = Returned (Some p) ->
  p <> EmptyString ->
  (process_string (lstrip_spaces (string_drop (String.length p) (content msg)))
   = Raised e
   \/
   exists token rest cmd,
     process_string (lstrip_spaces (string_drop (String.length p) (content msg)))
     = Returned (token :: rest) /\
     get_command token b = Some cmd /\
     parse_args cmd (_instance cmd) rest = Raised e) ->
  handle_commands process_string msg b = (Raised e, b).
Proof.
  intros Hp Hne H. unfold handle_commands, get_context. rewrite Hp.
  destruct p as [|c0 p0]; [now elim Hne|].
  destruct H as [Htok|[token [rest [cmd [Htok [Hcmd Hargs]]]]]].
  - now rewrite Htok.
  - rewrite Htok. unfold get_command in Hcmd. now rewrite Hcmd, Hargs.
Qed.

End MoreDispatchProperties.

Lemma non_command_message_is_ignored_witness :
  get_prefix {| content := "hello chat" |} echo_bot = Returned None /\
  truthy None = false /\
  handle_commands spec_process_string {| content := "hello chat" |} echo_bot
  = (Returned tt, echo_bot).
Proof.
  assert (H1 : get_prefix {| content := "hello chat" |} echo_bot = Returned None)
    by reflexivity.
  assert (H2 : truthy None = false) by reflexivity.
  repeat (split; [assumption|]).
  exact (non_command_message_is_ignored spec_process_string _ _ _ H1 H2).
Defined.

Lemma get_context_resolves_witness :
  get_prefix {| content := "! say hi" |} echo_bot = Returned (Some "!") /\
  "!" <> EmptyString /\
  spec_process_string
    (lstrip_spaces (string_drop (String.length "!") (content {| content := "! say hi" |})))
  = Returned ["say"; "hi"] /\
  get_command "say" echo_bot = Some echo_command /\
  parse_args echo_command (_instance echo_command) ["hi"] = Returned (["hi"], []) /\
  get_context spec_process_string {| content := "! say hi" |} echo_bot
  = Returned {| message := {| content := "! say hi" |}; prefix := Some "!";
                command := Some echo_command; args := ["hi"]; kwargs := [];
                valid := true |}.
Proof.
  assert (H1 : get_prefix {| content := "! say hi" |} echo_bot
               = Returned (Some "!")) by reflexivity.
  assert (H2 : "!" <> EmptyString) by discriminate.
  assert (H3 : spec_process_string
                 (lstrip_spaces
                    (string_drop (String.length "!")
                       (content {| content := "! say hi" |})))
               = Returned ["say"; "hi"]) by reflexivity.
  assert (H4 : get_command "say" echo_bot = Some echo_command) by reflexivity.
  assert (H5 : parse_args echo_command (_instance echo_command) ["hi"]
               = Returned (["hi"], [])) by reflexivity.
  repeat (split; [assumption|]).
  exact (proj1 (get_context_resolves spec_process_string _ _ _ _ _ _ _ _
                  H1 H2 H3 H4 H5)).
Defined.

Lemma parse_errors_propagate_witness :
  get_prefix {| content := "!echo" |} echo_bot = Returned (Some "!") /\
  "!" <> EmptyString /\
  spec_process_string
    (lstrip_spaces (string_drop (String.length "!") (content {| content := "!echo" |})))
  = Returned ["echo"] /\
  get_command "echo" echo_bot = Some echo_command /\
  parse_args echo_command (_instance echo_command) [] = Raised missing_argument /\
  handle_commands spec_process_string {| content := "!echo" |} echo_bot
  = (Raised missing_argument, echo_bot).
Proof.
  assert (H1 : get_prefix {| content := "!echo" |} echo_bot = Returned (Some "!"))
    by reflexivity.
  assert (H2 : "!" <> EmptyString) by discriminate.
  assert (H3 : spec_process_string
                 (lstrip_spaces
                    (string_drop (String.length "!")
                       (content {| content := "!echo" |})))
               = Returned ["echo"]) by reflexivity.
  assert (H4 : get_command "echo" echo_bot = Some echo_command) by reflexivity.
  assert (H5 : parse_args echo_command (_instance echo_command) []
               = Raised missing_argument) by reflexivity.
  repeat (split; [assumption|]).
  apply (parse_errors_propagate spec_process_string _ _ "!" _ H1 H2).
  right. exists "echo", [], echo_command. repeat split; assumption.
Defined.

(** ** What an invocation publishes *)

(** A hook whose call returned publishes [command_error] only when run on
    behalf of the command and what the call returned raises when awaited. *)
Lemma hook_step_command_errors (context : Context) (to_command : bool)
  (c : Callee) (called : outcome (outcome unit)) :
  call_returns called ->
  obs_published "command_error" (snd (hook_step context to_command c called))
  = match called with
    | Returned (Raised e) => if to_command then [[ACtx context; AExn e]] else []
    | _ => []
    end.
Proof. intros [r ->]. destruct r as [u|e]; [reflexivity|]. now destruct to_command. Qed.

Lemma opt_hook_step_command_errors (context : Context) (c : Callee)
  (h : option Hook) (instance : option Inst) :
  (forall hook, h = Some hook -> call_returns (hook instance (view context))) ->
  obs_published "command_error" (snd (opt_hook_step context c h instance))
  = hook_error context h instance.
Proof.
  intros H. destruct h as [hook|]; [|reflexivity]. unfold opt_hook_step, hook_error.
  rewrite hook_step_command_errors by now apply H.
  now destruct (hook instance (view context)) as [[u|e]|e].
Qed.

Lemma before_steps_command_errors (context : Context) (c : Command) (b : Bot) :
  before_calls_return context c b ->
  obs_published "command_error" (snd (before_steps context c b))
  = hook_error context (_before_invoke c) (_instance c).
Proof.
  intros [Hg Hb]. unfold before_steps.
  rewrite and_then_returned by now apply hook_step_returns.
  cbn [snd]. rewrite obs_published_app.
  rewrite hook_step_command_errors by exact Hg.
  rewrite opt_hook_step_command_errors by exact Hb.
  now destruct (global_before_invoke b (view context)) as [[u|e]|e].
Qed.

Lemma callback_step_command_errors (context : Context) (c : Command) :
  (forall h e, event_error c = Some h ->
     _callback c (_instance c) (view context) = Raised e ->
     call_returns (h (_instance c) (view context) e)) ->
  obs_published "command_error" (snd (callback_step context c))
  = callback_error context c.
Proof.
  intros He. destruct (callback_step_shape context c He) as [_ [Hok Hraise]].
  unfold callback_error.
  destruct (_callback c (_instance c) (view context)) as [u|e].
  - now rewrite (Hok u eq_refl).
  - destruct (Hraise e eq_refl) as [error_hook [-> Hhook]].
    change (OCall CommandCallback
            :: error_hook ++ [OPub "command_error" [ACtx context; AExn e]])
      with ([OCall CommandCallback]
            ++ error_hook ++ [OPub "command_error" [ACtx context; AExn e]]).
    rewrite !obs_published_app.
    assert (Hquiet : obs_published "command_error" error_hook = []).
    { destruct (event_error c); [apply Hhook | now rewrite Hhook]. }
    now rewrite Hquiet.
Qed.

Lemma after_steps_command_errors (context : Context) (c : Command) (b : Bot) :
  (forall h, _after_invoke c = Some h ->
     call_returns (h (_instance c) (view context))) ->
  call_returns (global_after_invoke b (view context)) ->
  obs_published "command_error" (snd (after_steps context c b))
  = hook_error context (_after_invoke c) (_instance c).
Proof.
  intros Ha Hg. unfold after_steps.
  rewrite and_then_returned by now apply opt_hook_step_returns.
  cbn [snd]. rewrite obs_published_app.
  rewrite hook_step_command_errors by exact Hg.
  rewrite opt_hook_step_command_errors by exact Ha.
  destruct (global_after_invoke b (view context)) as [[u|e]|e];
    now rewrite app_nil_r.
Qed.

(** The [command_error] publications of the hooks and the callback, when
    every call of a hook returns. *)
Lemma invocation_steps_command_errors (context : Context) (c : Command) (b : Bot) :
  hook_calls_return context c b ->
  obs_published "command_error" (snd (invocation_steps context c b))
  = hook_error context (_before_invoke c) (_instance c)
    ++ callback_error context c
    ++ hook_error context (_after_invoke c) (_instance c).
Proof.
  intros H. rewrite (invocation_steps_return _ _ _ H). cbn [snd].
  destruct H as [Hgb [Hb [He [Ha Hga]]]].
  rewrite !obs_published_app.
  rewrite before_steps_command_errors by now split.
  rewrite callback_step_command_errors by exact He.
  now rewrite after_steps_command_errors.
Qed.

(** A command whose before-hook, callback and after-hook all raise: three
    publications, and the callback was still called. *)
Example invoke_command_errors_demo :
  published "command_error"
    (trace_since fresh_bot
       (snd (invoke_command (context_for "!fragile" fragile_command)
               fragile_command fresh_bot)))
  = [[ACtx (context_for "!fragile" fragile_command); AExn before_failed];
     [ACtx (context_for "!fragile" fragile_command); AExn boom];
     [ACtx (context_for "!fragile" fragile_command); AExn after_failed]] /\
  callees (trace_since fresh_bot
             (snd (invoke_command (context_for "!fragile" fragile_command)
                     fragile_command fresh_bot)))
  = [GlobalBeforeInvoke; BeforeInvoke; CommandCallback; AfterInvoke;
     GlobalAfterInvoke].
Proof. split; reflexivity. Qed.

(** X9: take an invocation that passed the checks and the cooldown stage
    and in which every call of a hook returns.  It returns normally whatever
    the callback raises and whatever the hooks raise when awaited, and what
    it publishes as [command_error] is, in this order: the error of the
    command's before-hook, the error of the callback, the error of the
    command's after-hook, each only if raised.  A before-hook that fails
    when awaited does not stop the callback, and errors of the global hooks
    and of the command's error hook do not go to [command_error]. *)
Theorem invocation_command_errors (context : Context) (c : Command)
  (b b1 b2 : Bot) (limited : option (list exn)) :
  truthy (prefix context) = true ->
  command context = Some c ->
  handle_checks context b = (Returned CheckTrue, b1) ->
  _run_cooldowns context b1 = (Returned limited, b2) ->
  not_limited limited ->
  hook_calls_return context c b ->
  fst (invoke context b) = Returned tt /\
  In CommandCallback (callees (trace_since b (snd (invoke context b)))) /\
  published "command_error" (trace_since b (snd (invoke context b)))
  = hook_error context (_before_invoke c) (_instance c)
    ++ callback_error context c
    ++ hook_error context (_after_invoke c) (_instance c).
Proof.
  intros Hp Hc Hchk Hcd Hlim Hhooks.
  destruct (invoke_through_gates context c b b1 b2 limited Hp Hc Hchk Hcd Hlim)
    as [_ [Hfst [Hobs [_ Hquiet]]]].
  split; [|split].
  - rewrite Hfst. now rewrite (invocation_steps_return _ _ _ Hhooks).
  - apply (callback_called_past_gates context c b b1 b2 limited Hp Hc Hchk Hcd Hlim).
    split; apply Hhooks.
  - rewrite published_observed, Hobs, obs_published_app, <- published_observed.
    rewrite Hquiet. now apply invocation_steps_command_errors.
Qed.

Lemma invocation_command_errors_witness :
  truthy (prefix (context_for "!fragile" fragile_command)) = true /\
  command (context_for "!fragile" fragile_command) = Some fragile_command /\
  handle_checks (context_for "!fragile" fragile_command) fresh_bot
  = (Returned CheckTrue, fresh_bot) /\
  _run_cooldowns (context_for "!fragile" fragile_command) fresh_bot
  = (Returned None, fresh_bot) /\
  not_limited None /\
  hook_calls_return (context_for "!fragile" fragile_command) fragile_command
    fresh_bot /\
  fst (invoke (context_for "!fragile" fragile_command) fresh_bot) = Returned tt /\
  In CommandCallback
    (callees (trace_since fresh_bot
                (snd (invoke (context_for "!fragile" fragile_command) fresh_bot)))) /\
  published "command_error"
    (trace_since fresh_bot
       (snd (invoke (context_for "!fragile" fragile_command) fresh_bot)))
  = [[ACtx (context_for "!fragile" fragile_command); AExn before_failed];
     [ACtx (context_for "!fragile" fragile_command); AExn boom];
     [ACtx (context_for "!fragile" fragile_command); AExn after_failed]].
Proof.
  assert (H1 : truthy (prefix (context_for "!fragile" fragile_command)) = true)
    by reflexivity.
  assert (H2 : command (context_for "!fragile" fragile_command)
               = Some fragile_command) by reflexivity.
  assert (H3 : handle_checks (context_for "!fragile" fragile_command) fresh_bot
               = (Returned CheckTrue, fresh_bot)) by reflexivity.
  assert (H4 : _run_cooldowns (context_for "!fragile" fragile_command) fresh_bot
               = (Returned None, fresh_bot)) by reflexivity.
  assert (H5 : hook_calls_return (context_for "!fragile" fragile_command)
                 fragile_command fresh_bot) by calls_return.
  repeat (split; [assumption|]).
  split; [exact I|]. split; [exact H5|].
  exact (invocation_command_errors _ _ _ _ _ _ H1 H2 H3 H4 I H5).
Defined.

(** ** What escapes an invocation *)

Lemma and_then_raises (x y : Step) (e : exn) :
  fst (and_then x y) = Raised e -> fst x = Raised e \/ fst y = Raised e.
Proof.
  unfold and_then. destruct (fst x) as [u|e']; cbn [fst]; intros H;
    [right | left]; exact H.
Qed.

Lemma hook_step_raises (context : Context) (to_command : bool) (c : Callee)
  (called : outcome (outcome unit)) (e : exn) :
  fst (hook_step context to_command c called) = Raised e -> called = Raised e.
Proof.
  destruct called as [[u|e']|e']; cbn; intros H; try discriminate H.
  now injection H as ->.
Qed.

Lemma opt_hook_step_raises (context : Context) (c : Callee) (h : option Hook)
  (instance : option Inst) (e : exn) :
  fst (opt_hook_step context c h instance) = Raised e ->
  exists hook, h = Some hook /\ hook instance (view context) = Raised e.
Proof.
  destruct h as [hook|]; cbn [opt_hook_step]; intros H.
  - exists hook. split; [reflexivity|]. now apply hook_step_raises in H.
  - discriminate H.
Qed.

Lemma callback_step_raises (context : Context) (c : Command) (e : exn) :
  fst (callback_step context c) = Raised e ->
  exists h e0, event_error c = Some h /\
               _callback c (_instance c) (view context) = Raised e0 /\
               h (_instance c) (view context) e0 = Raised e.
Proof.
  unfold callback_step.
  destruct (_callback c (_instance c) (view context)) as [u|e0];
    [intros H; discriminate H|].
  intros H. apply and_then_raises in H. destruct H as [H|H]; [discriminate H|].
  apply and_then_raises in H. destruct H as [H|H]; [|discriminate H].
  destruct (event_error c) as [h|]; [|discriminate H].
  exists h, e0. repeat split. now apply hook_step_raises in H.
Qed.

(** The hooks and the callback raise only what the call of a hook raised. *)
Lemma invocation_steps_raise (context : Context) (c : Command) (b : Bot) (e : exn) :
  fst (invocation_steps context c b) = Raised e -> hook_call_raises context c b e.
Proof.
  unfold invocation_steps, before_steps, after_steps, hook_call_raises. intros H.
  apply and_then_raises in H. destruct H as [H|H].
  - apply and_then_raises in H. destruct H as [H|H].
    + left. now apply hook_step_raises in H.
    + right. left. now apply opt_hook_step_raises in H.
  - apply and_then_raises in H. destruct H as [H|H].
    + right. right. left. now apply callback_step_raises in H.
    + apply and_then_raises in H. destruct H as [H|H].
      * right. right. right. left. now apply opt_hook_step_raises in H.
      * right. right. right. right. now apply hook_step_raises in H.
Qed.

(** X10: with a command in the context, [invoke] raises nothing of its own:
    whatever the checks and the callback do and whatever the hooks raise
    when awaited, it returns normally, unless the cooldown stage raises or
    the call of a hook raises, in which case that exception is what it
    raises. *)
Theorem invoke_raises_from_cooldowns_or_hook_calls (context : Context)
  (c : Command) (b : Bot) :
  command context = Some c ->
  fst (invoke context b) = Returned tt \/
  exists e,
    fst (invoke context b) = Raised e /\
    (fst (_run_cooldowns context (snd (handle_checks context b))) = Raised e \/
     hook_call_raises context c b e).
Proof.
  intros Hc. unfold invoke.
  destruct (truthy (prefix context)); simpl; [|now left].
  unfold bind.
  assert (Hchk : exists r b1, handle_checks context b = (Returned r, b1)).
  { unfold handle_checks. rewrite Hc.
    destruct (check_loop_frame c (view context) (effective_checks b c) b)
      as [r [called E]]. rewrite E. now eexists; eexists. }
  destruct Hchk as [r [b1 Hchk]]. rewrite Hchk. cbn [fst snd].
  destruct r as [|e]; [|left; apply run_event_returns].
  destruct (_run_cooldowns context b1) as [[limited|e] b2] eqn:Hcd.
  - destruct (gates_frame _ _ _ _ _ _ Hc Hchk Hcd) as [l1 [l2 Hb2]].
    assert (Hsame : same_hooks b b2)
      by (rewrite Hb2; apply same_hooks_record_all).
    destruct (invoke_command_takes b context c b2 Hsame) as [b' [t [E _]]].
    destruct limited as [[|e l]|]; try (left; apply run_event_returns);
      rewrite Hc, E; cbn [fst];
      destruct (fst (invocation_steps context c b)) as [[]|e'] eqn:Hsteps;
      try (now left);
      right; exists e'; (split; [reflexivity|]); right;
      now apply invocation_steps_raise.
  - right. exists e. split; [reflexivity | now left].
Qed.

Lemma invoke_raises_from_cooldowns_or_hook_calls_witness :
  command (context_for "!greet" misdeclared_command) = Some misdeclared_command /\
  (fst (invoke (context_for "!greet" misdeclared_command) fresh_bot) = Returned tt \/
   exists e,
     fst (invoke (context_for "!greet" misdeclared_command) fresh_bot) = Raised e /\
     (fst (_run_cooldowns (context_for "!greet" misdeclared_command)
             (snd (handle_checks (context_for "!greet" misdeclared_command)
                     fresh_bot)))
      = Raised e \/
      hook_call_raises (context_for "!greet" misdeclared_command)
        misdeclared_command fresh_bot e)).
Proof.
  assert (H : command (context_for "!greet" misdeclared_command)
              = Some misdeclared_command) by reflexivity.
  split; [exact H|].
  exact (invoke_raises_from_cooldowns_or_hook_calls _ _ fresh_bot H).
Defined.

(** X11: when updating a bucket of the first group raises anything else than
    [CommandOnCooldown], the exception is not collected: it escapes
    [invoke], after the buckets before it were updated, with no event
    published and the callback not invoked. *)
Theorem bucket_error_escapes_invoke
  (context : Context) (c : Command) (b b1 : Bot) (group : Cooldown)
  (others : list Cooldown) (pre post : list Bucket) (k : Bucket) (e : exn) :
  truthy (prefix context) = true ->
  command context = Some c ->
  handle_checks context b = (Returned CheckTrue, b1) ->
  _cooldowns c = group :: others ->
  get_buckets group (view context) = Returned (pre ++ k :: post) ->
  Forall (bucket_ok (view context)) pre ->
  update_bucket k (view context) = Raised e ->
  exn_class_eqb (exn_cls e) CommandOnCooldown = false ->
  invoke context b = (Raised e, record_all (bucket_calls (pre ++ [k])) b1) /\
  published "command_error" (trace_since b (snd (invoke context b))) = [] /\
  published "error" (trace_since b (snd (invoke context b))) = [] /\
  ~ In CommandCallback (callees (trace_since b (snd (invoke context b)))).
Proof.
  intros Hp Hc Hchk Hgroups Hget Hpre Hk He.
  assert (Hcd : _run_cooldowns context b1
                = (Raised e, record_all (bucket_calls (pre ++ [k])) b1)).
  { unfold _run_cooldowns. rewrite Hc, Hgroups, Hget. unfold bind.
    rewrite update_buckets_ok by assumption. simpl. unfold call_user.
    rewrite Hk, He, record_is_record_all, record_all_app.
    unfold bucket_calls. now rewrite map_app. }
  assert (Hinv : invoke context b
                 = (Raised e, record_all (bucket_calls (pre ++ [k])) b1)).
  { unfold invoke. rewrite Hp. simpl. unfold bind. now rewrite Hchk, Hcd. }
  split; [exact Hinv|]. rewrite Hinv. simpl.
  destruct (handle_checks_frame _ _ _ _ _ Hc Hchk) as [l1 ->].
  rewrite record_all_app.
  rewrite (trace_since_app b _ (check_calls l1 ++ bucket_calls (pre ++ [k])))
    by apply trace_record_all.
  rewrite !published_app, !published_check_calls, !published_bucket_calls.
  repeat split.
  rewrite callees_app, callees_check_calls, callees_bucket_calls.
  intros Hin. apply in_app_or in Hin. destruct Hin as [Hin|Hin];
    apply in_map_iff in Hin; destruct Hin as [q [Hq _]]; discriminate.
Qed.

Lemma bucket_error_escapes_invoke_witness :
  truthy (prefix (context_for "!so" broken_cooldown_command)) = true /\
  command (context_for "!so" broken_cooldown_command) = Some broken_cooldown_command /\
  handle_checks (context_for "!so" broken_cooldown_command) fresh_bot
  = (Returned CheckTrue, fresh_bot) /\
  Forall (bucket_ok (view (context_for "!so" broken_cooldown_command))) [ready_bucket] /\
  update_bucket broken_bucket (view (context_for "!so" broken_cooldown_command))
  = Raised broken_store /\
  exn_class_eqb (exn_cls broken_store) CommandOnCooldown = false /\
  invoke (context_for "!so" broken_cooldown_command) fresh_bot
  = (Raised broken_store,
     record_all (bucket_calls ([ready_bucket] ++ [broken_bucket])) fresh_bot).
Proof.
  assert (H1 : truthy (prefix (context_for "!so" broken_cooldown_command)) = true)
    by reflexivity.
  assert (H2 : command (context_for "!so" broken_cooldown_command)
               = Some broken_cooldown_command) by reflexivity.
  assert (H3 : handle_checks (context_for "!so" broken_cooldown_command) fresh_bot
               = (Returned CheckTrue, fresh_bot)) by reflexivity.
  assert (H4 : Forall (bucket_ok (view (context_for "!so" broken_cooldown_command)))
                 [ready_bucket]) by (constructor; [reflexivity | constructor]).
  assert (H5 : update_bucket broken_bucket
                 (view (context_for "!so" broken_cooldown_command))
               = Raised broken_store) by reflexivity.
  assert (H6 : exn_class_eqb (exn_cls broken_store) CommandOnCooldown = false)
    by reflexivity.
  repeat (split; [assumption|]).
  exact (proj1 (bucket_error_escapes_invoke _ _ _ _ _ [] [ready_bucket] []
                  broken_bucket broken_store H1 H2 H3 eq_refl eq_refl H4 H5 H6)).
Defined.

(** X12: [get_buckets] is called inside the [try] that catches [IndexError]:
    when it raises [IndexError] the command is taken as having no cooldown
    and the invocation goes on to the hooks and the callback (the callback
    is then called provided the calls of the before-hooks return); any other
    exception it raises escapes [invoke], nothing published and the callback
    not invoked. *)
Theorem get_buckets_errors
  (context : Context) (c : Command) (b b1 : Bot) (group : Cooldown)
  (others : list Cooldown) (e : exn) :
  truthy (prefix context) = true ->
  command context = Some c ->
  handle_checks context b = (Returned CheckTrue, b1) ->
  _cooldowns c = group :: others ->
  get_buckets group (view context) = Raised e ->
  (exn_cls e = IndexError ->
   _run_cooldowns context b1 = (Returned None, b1) /\
   invoke context b = invoke_command context c b1 /\
   (before_calls_return context c b ->
    In CommandCallback (callees (trace_since b (snd (invoke context b))))))
  /\
  (exn_class_eqb (exn_cls e) IndexError = false ->
   invoke context b = (Raised e, b1) /\
   published "command_error" (trace_since b b1) = [] /\
   ~ In CommandCallback (callees (trace_since b b1))).
Proof.
  intros Hp Hc Hchk Hgroups Hget. split.
  - intros He.
    assert (Hcd : _run_cooldowns context b1 = (Returned None, b1)).
    { unfold _run_cooldowns. now rewrite Hc, Hgroups, Hget, He. }
    split; [exact Hcd|]. split.
    + exact (proj1 (invoke_through_gates context c b b1 b1 None Hp Hc Hchk Hcd I)).
    + exact (callback_called_past_gates context c b b1 b1 None Hp Hc Hchk Hcd I).
  - intros He.
    assert (Hcd : _run_cooldowns context b1 = (Raised e, b1)).
    { unfold _run_cooldowns. now rewrite Hc, Hgroups, Hget, He. }
    split.
    + unfold invoke. rewrite Hp. simpl. unfold bind. now rewrite Hchk, Hcd.
    + destruct (handle_checks_frame _ _ _ _ _ Hc Hchk) as [l1 ->].
      rewrite (trace_since_app b _ (check_calls l1)) by apply trace_record_all.
      rewrite published_check_calls, callees_check_calls. split; [reflexivity|].
      intros Hin. apply in_map_iff in Hin. destruct Hin as [q [Hq _]]. discriminate.
Qed.

Lemma get_buckets_errors_witness :
  truthy (prefix (context_for "!so" index_error_command)) = true /\
  command (context_for "!so" index_error_command) = Some index_error_command /\
  handle_checks (context_for "!so" index_error_command) fresh_bot
  = (Returned CheckTrue, fresh_bot) /\
  before_calls_return (context_for "!so" index_error_command) index_error_command
    fresh_bot /\
  _run_cooldowns (context_for "!so" index_error_command) fresh_bot
  = (Returned None, fresh_bot) /\
  In CommandCallback
     (callees (trace_since fresh_bot
                 (snd (invoke (context_for "!so" index_error_command) fresh_bot)))).
Proof.
  assert (H1 : truthy (prefix (context_for "!so" index_error_command)) = true)
    by reflexivity.
  assert (H2 : command (context_for "!so" index_error_command)
               = Some index_error_command) by reflexivity.
  assert (H3 : handle_checks (context_for "!so" index_error_command) fresh_bot
               = (Returned CheckTrue, fresh_bot)) by reflexivity.
  assert (H4 : before_calls_return (context_for "!so" index_error_command)
                 index_error_command fresh_bot) by calls_return.
  repeat (split; [assumption|]).
  destruct (get_buckets_errors _ _ _ _ _ [] (Exn IndexError "list index out of range")
              H1 H2 H3 eq_refl eq_refl) as [Hindex _].
  destruct (Hindex eq_refl) as [Hcd [_ Hcalled]].
  split; [exact Hcd | exact (Hcalled H4)].
Defined.

(** X30: the hooks are called before [try_run] is entered, so [try_run]
    catches only what awaiting the result raises.  When the call of the
    command's before-hook itself raises (a hook that does not take the
    arguments it is given raises [TypeError]), the exception escapes
    [invoke]: the callback and the after-hooks are not called and no
    [command_error] is published. *)
Theorem before_hook_call_escapes (context : Context) (c : Command)
  (b b1 b2 : Bot) (limited : option (list exn)) (h : Hook) (e : exn) :
  truthy (prefix context) = true ->
  command context = Some c ->
  handle_checks context b = (Returned CheckTrue, b1) ->
  _run_cooldowns context b1 = (Returned limited, b2) ->
  not_limited limited ->
  call_returns (global_before_invoke b (view context)) ->
  _before_invoke c = Some h ->
  h (_instance c) (view context) = Raised e ->
  fst (invoke context b) = Raised e /\
  callees (trace_since b (snd (invoke context b)))
  = callees (trace_since b b2) ++ [GlobalBeforeInvoke; BeforeInvoke] /\
  ~ In CommandCallback (callees (trace_since b (snd (invoke context b)))) /\
  published "command_error" (trace_since b (snd (invoke context b))) = [].
Proof.
  intros Hp Hc Hchk Hcd Hlim Hg Hbefore Hcall.
  destruct (invoke_through_gates context c b b1 b2 limited Hp Hc Hchk Hcd Hlim)
    as [_ [Hfst [Hobs [Hgates Hquiet]]]].
  assert (Hsteps : invocation_steps context c b
                   = (Raised e,
                      snd (hook_step context false GlobalBeforeInvoke
                             (global_before_invoke b (view context)))
                      ++ [OCall BeforeInvoke])).
  { unfold invocation_steps, before_steps.
    rewrite (and_then_returned
               (hook_step context false GlobalBeforeInvoke
                  (global_before_invoke b (view context))))
      by now apply hook_step_returns.
    unfold opt_hook_step. rewrite Hbefore, Hcall. reflexivity. }
  rewrite Hsteps in Hfst, Hobs. cbn [fst snd] in Hfst, Hobs.
  assert (Hcalls : callees (trace_since b (snd (invoke context b)))
                   = callees (trace_since b b2)
                     ++ [GlobalBeforeInvoke; BeforeInvoke]).
  { rewrite callees_observed, Hobs, !obs_callees_app, hook_step_callees.
    now rewrite <- callees_observed. }
  split; [exact Hfst|]. split; [exact Hcalls|]. split.
  - rewrite Hcalls. intros Hin. apply in_app_or in Hin. destruct Hin as [Hin|Hin].
    + destruct (Hgates _ Hin) as [[n Hn]|[n Hn]]; discriminate.
    + destruct Hin as [Hin|[Hin|[]]]; discriminate.
  - rewrite published_observed, Hobs, !obs_published_app, <- published_observed.
    rewrite Hquiet, hook_step_command_errors by exact Hg.
    now destruct (global_before_invoke b (view context)) as [[u|e']|e'].
Qed.

Lemma before_hook_call_escapes_witness :
  truthy (prefix (context_for "!greet" misdeclared_command)) = true /\
  command (context_for "!greet" misdeclared_command) = Some misdeclared_command /\
  handle_checks (context_for "!greet" misdeclared_command) fresh_bot
  = (Returned CheckTrue, fresh_bot) /\
  _run_cooldowns (context_for "!greet" misdeclared_command) fresh_bot
  = (Returned None, fresh_bot) /\
  not_limited None /\
  call_returns (global_before_invoke fresh_bot
                  (view (context_for "!greet" misdeclared_command))) /\
  fst (invoke (context_for "!greet" misdeclared_command) fresh_bot)
  = Raised before_arity /\
  callees (trace_since fresh_bot
             (snd (invoke (context_for "!greet" misdeclared_command) fresh_bot)))
  = callees (trace_since fresh_bot fresh_bot)
    ++ [GlobalBeforeInvoke; BeforeInvoke] /\
  ~ In CommandCallback
      (callees (trace_since fresh_bot
                  (snd (invoke (context_for "!greet" misdeclared_command)
                          fresh_bot)))) /\
  published "command_error"
    (trace_since fresh_bot
       (snd (invoke (context_for "!greet" misdeclared_command) fresh_bot)))
  = [].
Proof.
  assert (H1 : truthy (prefix (context_for "!greet" misdeclared_command)) = true)
    by reflexivity.
  assert (H2 : command (context_for "!greet" misdeclared_command)
               = Some misdeclared_command) by reflexivity.
  assert (H3 : handle_checks (context_for "!greet" misdeclared_command) fresh_bot
               = (Returned CheckTrue, fresh_bot)) by reflexivity.
  assert (H4 : _run_cooldowns (context_for "!greet" misdeclared_command) fresh_bot
               = (Returned None, fresh_bot)) by reflexivity.
  assert (H5 : call_returns
                 (global_before_invoke fresh_bot
                    (view (context_for "!greet" misdeclared_command))))
    by (eexists; reflexivity).
  repeat (split; [assumption|]).
  split; [exact I|]. split; [exact H5|].
  exact (before_hook_call_escapes _ _ _ _ _ _ _ before_arity
           H1 H2 H3 H4 I H5 eq_refl eq_refl).
Defined.

(** ** The verdict of the checks *)

Lemma check_loop_true_passes (c : Command) (v : CtxView) (l : list Predicate)
  (b : Bot) :
  fst (check_loop c v l b) = Returned CheckTrue -> Forall (passes v) l.
Proof.
  revert b. induction l as [|p l IH]; intros b H; [constructor|].
  simpl in H. unfold bind at 1 in H. unfold try_except, bind, call_user, ret in H.
  destruct (eval_predicate p v) as [r|e] eqn:Hev; [|discriminate].
  destruct (is_False r) eqn:Hf; [discriminate|].
  constructor.
  - now exists r.
  - exact (IH _ H).
Qed.

(** X13: [handle_checks] never raises on a context with a command, and it
    returns [True] exactly when every predicate of the effective check list
    passes: none raises and none evaluates to [False]. *)
Theorem handle_checks_verdict (context : Context) (c : Command) (b : Bot) :
  command context = Some c ->
  (exists r, fst (handle_checks context b) = Returned r) /\
  (fst (handle_checks context b) = Returned CheckTrue <->
   Forall (passes (view context)) (effective_checks b c)).
Proof.
  intros Hc. unfold handle_checks. rewrite Hc. split.
  - destruct (check_loop_frame c (view context) (effective_checks b c) b)
      as [r [called E]]. rewrite E. now exists r.
  - split.
    + apply check_loop_true_passes.
    + intros H. now rewrite check_loop_all_pass.
Qed.

Lemma handle_checks_verdict_witness :
  command (context_for "!sub" sub_command) = Some sub_command /\
  fst (handle_checks (context_for "!sub" sub_command) fresh_bot) = Returned CheckTrue /\
  Forall (passes (view (context_for "!sub" sub_command)))
    (effective_checks fresh_bot sub_command).
Proof.
  assert (H : command (context_for "!sub" sub_command) = Some sub_command)
    by reflexivity.
  split; [exact H|].
  assert (Ht : fst (handle_checks (context_for "!sub" sub_command) fresh_bot)
               = Returned CheckTrue) by reflexivity.
  split; [exact Ht|].
  exact (proj1 (proj2 (handle_checks_verdict _ _ fresh_bot H)) Ht).
Defined.

Lemma check_loop_refused (c : Command) (v : CtxView) (p : Predicate)
  (post : list Predicate) (b : Bot) :
  refuses v p ->
  exists e, check_loop c v (p :: post) b
            = (Returned (CheckError e), record_all (check_calls [p]) b).
Proof.
  intros [[e He]|[r [Hr Hf]]].
  - exists e. now apply check_loop_raises.
  - exists (check_failure p c). now apply (check_loop_false c v p post r).
Qed.

(** X14: global checks come first: when a global check refuses, none of the
    command's own checks is called, the callback is not invoked and one
    [command_error] is published. *)
Theorem global_check_refusal_stops_invocation
  (context : Context) (c : Command) (b : Bot)
  (pre post : list Predicate) (p : Predicate) :
  truthy (prefix context) = true ->
  command context = Some c ->
  no_global_checks c = false ->
  _global_checks b = pre ++ p :: post ->
  Forall (passes (view context)) pre ->
  refuses (view context) p ->
  callees (trace_since b (snd (invoke context b)))
  = map (fun q => CheckCall (pred_repr q)) (pre ++ [p]) /\
  exists e,
    published "command_error" (trace_since b (snd (invoke context b)))
    = [[ACtx context; AExn e]].
Proof.
  intros Hp Hc Hng Hglobal Hpre Href.
  destruct (check_loop_refused c (view context) p (post ++ _checks c)
              (record_all (check_calls pre) b) Href) as [e He].
  assert (Hl : check_loop c (view context) (effective_checks b c) b
               = (Returned (CheckError e), record_all (check_calls (pre ++ [p])) b)).
  { unfold effective_checks. rewrite Hng, Hglobal, <- app_assoc. simpl.
    rewrite check_loop_passes by assumption. rewrite He.
    now rewrite record_all_app, <- check_calls_app. }
  destruct (invoke_rejected context c b _ _ Hp Hc Hl) as [_ [Hcalls [_ Hpub]]].
  split; [exact Hcalls|]. now exists e.
Qed.

Lemma global_check_refusal_stops_invocation_witness :
  truthy (prefix (context_for "!sub" sub_command)) = true /\
  command (context_for "!sub" sub_command) = Some sub_command /\
  no_global_checks sub_command = false /\
  _global_checks guarded_bot = [] ++ deny :: [] /\
  Forall (passes (view (context_for "!sub" sub_command))) [] /\
  refuses (view (context_for "!sub" sub_command)) deny /\
  callees (trace_since guarded_bot
             (snd (invoke (context_for "!sub" sub_command) guarded_bot)))
  = [CheckCall "is_mod"].
Proof.
  assert (H1 : truthy (prefix (context_for "!sub" sub_command)) = true)
    by reflexivity.
  assert (H2 : command (context_for "!sub" sub_command) = Some sub_command)
    by reflexivity.
  assert (H3 : no_global_checks sub_command = false) by reflexivity.
  assert (H4 : _global_checks guarded_bot = [] ++ deny :: []) by reflexivity.
  assert (H5 : Forall (passes (view (context_for "!sub" sub_command))) [])
    by constructor.
  assert (H6 : refuses (view (context_for "!sub" sub_command)) deny)
    by (right; exists (VBool false); split; reflexivity).
  repeat (split; [assumption|]).
  exact (proj1 (global_check_refusal_stops_invocation _ _ _ _ _ _
                  H1 H2 H3 H4 H5 H6)).
Defined.

(** X15: a command that opts out of global checks is gated by its own checks
    only: when they pass, [handle_checks] returns [True] having called none
    of the global checks, whatever those would answer. *)
Theorem no_global_checks_bypasses_global (context : Context) (c : Command) (b : Bot) :
  command context = Some c ->
  no_global_checks c = true ->
  Forall (passes (view context)) (_checks c) ->
  handle_checks context b
  = (Returned CheckTrue, record_all (check_calls (_checks c)) b).
Proof.
  intros Hc Hng Hown. unfold handle_checks, effective_checks. rewrite Hc, Hng.
  now apply check_loop_all_pass.
Qed.

Lemma no_global_checks_bypasses_global_witness :
  command (context_for "!sub" exempt_command) = Some exempt_command /\
  no_global_checks exempt_command = true /\
  Forall (passes (view (context_for "!sub" exempt_command))) (_checks exempt_command) /\
  refuses (view (context_for "!sub" exempt_command)) deny /\
  handle_checks (context_for "!sub" exempt_command) guarded_bot
  = (Returned CheckTrue, record_all (check_calls [allow]) guarded_bot).
Proof.
  assert (H1 : command (context_for "!sub" exempt_command) = Some exempt_command)
    by reflexivity.
  assert (H2 : no_global_checks exempt_command = true) by reflexivity.
  assert (H3 : Forall (passes (view (context_for "!sub" exempt_command)))
                 (_checks exempt_command)).
  { constructor; [|constructor]. exists (VBool true). split; reflexivity. }
  assert (H4 : refuses (view (context_for "!sub" exempt_command)) deny)
    by (right; exists (VBool false); split; reflexivity).
  repeat (split; [assumption|]).
  exact (no_global_checks_bypasses_global _ _ guarded_bot H1 H2 H3).
Defined.

(** ** More on the event bus *)

Lemma schedule_frame (a : list EventArg) (subscribers : list Callable) (b : Bot) :
  _events (fold_left (fun acc cb => create_task (TaskHandler cb a) acc) subscribers b)
  = _events b /\
  instance_attr (fold_left (fun acc cb => create_task (TaskHandler cb a) acc) subscribers b)
  = instance_attr b.
Proof.
  revert b. induction subscribers as [|cb l IH]; intros b; simpl.
  - now split.
  - destruct (IH (create_task (TaskHandler cb a) b)) as [-> ->]. now split.
Qed.

(** Publishing changes neither the subscriptions nor the bot's attributes. *)
Lemma run_event_frame (event : string) (a : list EventArg) (b : Bot) :
  _events (snd (run_event event a b)) = _events b /\
  instance_attr (snd (run_event event a b)) = instance_attr b.
Proof.
  unfold run_event. simpl.
  destruct (instance_attr b event) as [[|]|]; simpl;
    match goal with
    | |- context [dict_get event ?d] => destruct (dict_get event d)
    end;
    try (match goal with
         | |- context [fold_left _ ?l ?s] => destruct (schedule_frame a l s) as [-> ->]
         end); now split.
Qed.

(** One turn of the loop on a raising [error] handler: the task is replaced by
    one new task per [error] subscriber, and [error] is published once. *)
Lemma error_task_reschedules (hs : list Callable) (s : Bot) (h : Callable)
  (a : list EventArg) (rest : list Task) (e : exn) :
  dict_get "error" (_events s) = Some hs ->
  instance_attr s "error" = None ->
  loop_tasks s = TaskHandler h a :: rest ->
  await_call h a = Raised e ->
  dict_get "error" (_events (loop_step s)) = Some hs /\
  instance_attr (loop_step s) "error" = None /\
  loop_tasks (loop_step s) = rest ++ map (fun cb => TaskHandler cb [AExn e]) hs /\
  trace (loop_step s)
  = trace s ++ [Called (HandlerCall (c_name h)); Published "error" [AExn e]].
Proof.
  intros Hev Hattr Hq He. unfold loop_step. rewrite Hq.
  unfold wrapped, try_except, bind, call_user. rewrite He. cbv beta iota.
  set (s1 := record (Called (HandlerCall (c_name h))) (with_loop_tasks rest s)).
  destruct (run_event_frame "error" [AExn e] s1) as [Fe Fa].
  rewrite Fe, Fa, run_event_tasks, run_event_trace.
  unfold scheduled_by, publication_notice.
  assert (Hattr1 : instance_attr s1 "error" = None) by exact Hattr.
  assert (Hev1 : dict_get "error" (_events s1) = Some hs) by exact Hev.
  rewrite Hattr1, Hev1. subst s1. simpl.
  repeat split; try assumption. now rewrite <- app_assoc.
Qed.

(** X16: nothing guards the [error] event against its own handlers.  When
    every [error] subscriber always raises and the queue holds tasks of
    them, each turn of the loop publishes [error] once more and replaces the
    task it ran by one task per subscriber: after [n] turns [n] more [error]
    events were published and the queue has not shrunk. *)
Theorem raising_error_handlers_never_drain (hs : list Callable) (n : nat) (s : Bot) :
  dict_get "error" (_events s) = Some hs ->
  instance_attr s "error" = None ->
  hs <> [] ->
  Forall always_raises hs ->
  loop_tasks s <> [] ->
  tasks_of hs (loop_tasks s) ->
  length (loop_tasks (run_loop n s)) + n
  = length (loop_tasks s) + n * length hs /\
  length (published "error" (trace_since s (run_loop n s))) = n.
Proof.
  intros Hev Hattr Hne Hraise Hq Hof.
  assert (H : length (loop_tasks (run_loop n s)) + n
              = length (loop_tasks s) + n * length hs /\
              exists w, trace (run_loop n s) = trace s ++ w /\
                        length (published "error" w) = n).
  { revert s Hev Hattr Hq Hof. induction n as [|n IH]; intros s Hev Hattr Hq Hof.
    - simpl. split; [lia|]. exists []. now rewrite app_nil_r.
    - destruct (loop_tasks s) as [|t rest] eqn:Eq; [now elim Hq|].
      inversion Hof as [|t' rest' [h [a [-> Hin]]] Hrest]; subst.
      rewrite Forall_forall in Hraise.
      destruct (Hraise h Hin a) as [e He].
      destruct (error_task_reschedules hs s h a rest e Hev Hattr Eq He)
        as [Hev' [Hattr' [Hq' Ht']]].
      assert (Hne' : loop_tasks (loop_step s) <> []).
      { rewrite Hq'. destruct hs; [now elim Hne|]. now destruct rest. }
      assert (Hof' : tasks_of hs (loop_tasks (loop_step s))).
      { rewrite Hq'. apply Forall_app. split; [exact Hrest|].
        apply Forall_forall. intros t Ht. apply in_map_iff in Ht.
        destruct Ht as [cb [<- Hcb]]. now exists cb, [AExn e]. }
      destruct (IH (loop_step s) Hev' Hattr' Hne' Hof') as [Hlen [w [Hw Hp]]].
      simpl run_loop. split.
      + rewrite Hq', length_app, length_map in Hlen. simpl. lia.
      + exists ([Called (HandlerCall (c_name h)); Published "error" [AExn e]] ++ w).
        split.
        * rewrite Hw, Ht'. now rewrite <- app_assoc.
        * rewrite published_app, length_app, Hp. reflexivity. }
  destruct H as [Hlen [w [Hw Hp]]]. split; [exact Hlen|].
  now rewrite (trace_since_app _ _ _ Hw).
Qed.

Lemma raising_error_handlers_never_drain_witness :
  dict_get "error" (_events error_loop_bot) = Some [raising_handler] /\
  instance_attr error_loop_bot "error" = None /\
  [raising_handler] <> [] /\
  Forall always_raises [raising_handler] /\
  loop_tasks error_loop_bot <> [] /\
  tasks_of [raising_handler] (loop_tasks error_loop_bot) /\
  length (loop_tasks (run_loop 5 error_loop_bot)) + 5
  = length (loop_tasks error_loop_bot) + 5 * length [raising_handler] /\
  length (published "error" (trace_since error_loop_bot (run_loop 5 error_loop_bot)))
  = 5.
Proof.
  assert (H1 : dict_get "error" (_events error_loop_bot) = Some [raising_handler])
    by reflexivity.
  assert (H2 : instance_attr error_loop_bot "error" = None) by reflexivity.
  assert (H3 : [raising_handler] <> []) by discriminate.
  assert (H4 : Forall always_raises [raising_handler]).
  { constructor; [|constructor]. intros a. now exists boom. }
  assert (H5 : loop_tasks error_loop_bot <> []) by discriminate.
  assert (H6 : tasks_of [raising_handler] (loop_tasks error_loop_bot)).
  { constructor; [|constructor]. exists raising_handler, [AExn boom].
    split; [reflexivity | now left]. }
  repeat (split; [assumption|]).
  exact (raising_error_handlers_never_drain [raising_handler] 5 error_loop_bot
           H1 H2 H3 H4 H5 H6).
Defined.



(** X18: the attribute of the bot named like the event is never run by
    [run_event].  When it is not a coroutine object, a method for instance,
    a warning is issued and only the subscribers are scheduled; when it is a
    coroutine object its wrapper is scheduled first, and running that
    wrapper calls the coroutine object, which publishes an [error] event
    carrying a [TypeError]. *)
Theorem inner_callback_is_never_run (event_name : string) (a : list EventArg)
  (b : Bot) :
  (instance_attr b event_name = Some false ->
   trace (snd (run_event event_name a b))
   = trace b ++ [Published event_name a;
                 Warned ("event '" ++ event_name ++ "' callback is not a coroutine")] /\
   tasks_of match dict_get event_name (_events b) with
            | Some subscribers => subscribers
            | None => []
            end
     (skipn (length (loop_tasks b)) (loop_tasks (snd (run_event event_name a b)))))
  /\
  (instance_attr b event_name = Some true ->
   (exists later,
      loop_tasks (snd (run_event event_name a b))
      = loop_tasks b ++ TaskInner event_name a :: later) /\
   forall s rest,
     loop_tasks s = TaskInner event_name a :: rest ->
     callees (trace_since s (loop_step s)) = [] /\
     published "error" (trace_since s (loop_step s))
     = [[AExn (Exn TypeError "'coroutine' object is not callable")]]).
Proof.
  split; intros Hattr.
  - split.
    + rewrite run_event_trace. unfold publication_notice. now rewrite Hattr.
    + rewrite run_event_tasks, skipn_app, skipn_all, Nat.sub_diag. simpl.
      unfold scheduled_by. rewrite Hattr. simpl.
      apply Forall_forall. intros t Ht. apply in_map_iff in Ht.
      destruct Ht as [cb [<- Hcb]]. now exists cb, a.
  - split.
    + rewrite run_event_tasks. unfold scheduled_by. rewrite Hattr. simpl.
      now eexists.
    + intros s rest Hs.
      destruct (loop_step_runs_head s _ rest Hs) as [added [w [_ [Ht [Hc Hp]]]]].
      rewrite (trace_since_app _ _ _ Ht). now split.
Qed.

Lemma inner_callback_is_never_run_witness :
  instance_attr ready_bot "ready" = Some false /\
  trace (snd (run_event "ready" [] ready_bot))
  = [Published "ready" [];
     Warned "event 'ready' callback is not a coroutine"] /\
  loop_tasks (snd (run_event "ready" [] ready_bot)) = [TaskHandler quiet_handler []].
Proof.
  assert (H : instance_attr ready_bot "ready" = Some false) by reflexivity.
  split; [exact H|].
  split; [|reflexivity].
  exact (proj1 (proj1 (inner_callback_is_never_run "ready" [] ready_bot) H)).
Defined.

(** ** Loading modules *)

Lemma dict_keys_set_absent {V} (k : string) (v : V) (d : dict V) :
  dict_in k d = false -> dict_keys (dict_set k v d) = dict_keys d ++ [k].
Proof.
  unfold dict_in, dict_keys. induction d as [|[k' v'] d IH]; simpl; intros H.
  - reflexivity.
  - destruct (String.eqb k' k) eqn:E; [discriminate|]. simpl. now rewrite IH.
Qed.

Lemma dict_get_none_not_in {V} (k : string) (d : dict V) :
  dict_get k d = None <-> ~ In k (dict_keys d).
Proof.
  unfold dict_keys. induction d as [|[k' v'] d IH]; simpl.
  - split; [intros _ [] | reflexivity].
  - destruct (String.eqb k' k) eqn:E.
    + apply String.eqb_eq in E. split; [discriminate|]. intros H. elim H. now left.
    + apply String.eqb_neq in E. rewrite IH. split.
      * intros H [Hk|Hin]; [contradiction | now apply H].
      * intros H Hin. apply H. now right.
Qed.

Lemma dict_get_remove_same {V} (k : string) (d : dict V) :
  distinct_keys d -> dict_get k (dict_remove k d) = None.
Proof.
  unfold distinct_keys, dict_keys. induction d as [|[k' v'] d IH]; simpl; intros H.
  - reflexivity.
  - inversion H as [|x l Hnin Hnd]; subst.
    destruct (String.eqb k' k) eqn:E.
    + apply String.eqb_eq in E. subst k'. now apply dict_get_none_not_in.
    + simpl. rewrite E. now apply IH.
Qed.

Lemma add_aliases_modules_frame (c : Command) (als : list string) (b : Bot) :
  _modules (snd (add_aliases c als b)) = _modules b /\
  sys_modules (snd (add_aliases c als b)) = sys_modules b /\
  _cogs (snd (add_aliases c als b)) = _cogs b.
Proof.
  revert b. induction als as [|alias rest IH]; intros b; simpl.
  - now repeat split.
  - destruct (dict_in alias (_commands b)).
    + destruct (dict_delitem (name c) (_commands b)); now repeat split.
    + apply (IH (with_command_aliases
                   (dict_set alias (name c) (_command_aliases b)) b)).
Qed.

(** Registering a command touches neither the module records, nor
    [sys.modules], nor the cogs. *)
Lemma add_command_modules_frame (c : Command) (b : Bot) :
  _modules (snd (add_command c b)) = _modules b /\
  sys_modules (snd (add_command c b)) = sys_modules b /\
  _cogs (snd (add_command c b)) = _cogs b.
Proof.
  unfold add_command.
  destruct (dict_in (name c) (_commands b)); [now repeat split|].
  destruct (callback_iscoroutinefunction c); [|now repeat split]. simpl.
  destruct (aliases c) as [|alias rest]; [now repeat split|].
  apply (add_aliases_modules_frame c (alias :: rest)
           (with_commands (dict_set (name c) c (_commands b)) b)).
Qed.

Lemma run_module_actions_frame (acts : list ModuleAction) (b : Bot) :
  _modules (snd (run_module_actions acts b)) = _modules b /\
  sys_modules (snd (run_module_actions acts b)) = sys_modules b /\
  _cogs (snd (run_module_actions acts b)) = _cogs b.
Proof.
  revert b. induction acts as [|[c|e] rest IH]; intros b; simpl.
  - now repeat split.
  - unfold bind. pose proof (add_command_modules_frame c b) as [Hm [Hs Hc]].
    destruct (add_command c b) as [[[]|e] b1]; simpl in *.
    + destruct (IH b1) as [-> [-> ->]]. now repeat split.
    + now repeat split.
  - now repeat split.
Qed.

(** After a successful import the module is in [sys.modules]. *)
Lemma import_module_cached (nm : string) (b b1 : Bot) (m : Module) :
  import_module nm b = (Returned m, b1) ->
  dict_get nm (sys_modules b1) = Some m /\ _modules b1 = _modules b /\
  (distinct_keys (sys_modules b) -> distinct_keys (sys_modules b1)).
Proof.
  unfold import_module. destruct (dict_get nm (sys_modules b)) as [m'|] eqn:E.
  - intros [= <- <-]. now repeat split.
  - destruct (import_source b nm) as [m'|e]; [|discriminate].
    intros [= <- <-]. simpl. split; [apply dict_get_set_same|].
    split; [reflexivity|]. unfold distinct_keys.
    rewrite dict_keys_set_absent by (unfold dict_in; now rewrite E).
    intros H. apply NoDup_app; [exact H | repeat constructor; intros [] |].
    intros x Hx [<-|[]]. now apply dict_get_none_not_in in E.
Qed.

(** X19: loading a module that is not loaded, whose import and [prepare]
    succeed, records it under its name, where [sys.modules] has it too; a
    second [load_module] of the same name is then refused with [ValueError]
    and changes nothing. *)
Theorem load_module_records_module (nm : string) (b b1 b2 : Bot) (m : Module)
  (acts : list ModuleAction) :
  dict_in nm (_modules b) = false ->
  import_module nm b = (Returned m, b1) ->
  mod_prepare m = Some acts ->
  run_module_actions acts b1 = (Returned tt, b2) ->
  fst (load_module nm b) = Returned tt /\
  dict_get nm (_modules (snd (load_module nm b))) = Some m /\
  dict_get nm (sys_modules (snd (load_module nm b))) = Some m /\
  load_module nm (snd (load_module nm b))
  = (Raised (Exn ValueError ("Module <" ++ nm ++ "> is already loaded")),
     snd (load_module nm b)).
Proof.
  intros Hnew Himp Hprep Hrun.
  assert (Hload : load_module nm b
                  = (Returned tt, with_modules (dict_set nm m (_modules b2)) b2)).
  { unfold load_module. rewrite Hnew. unfold bind at 1. rewrite Himp, Hprep.
    unfold bind, modify. now rewrite Hrun. }
  rewrite Hload. simpl. split; [reflexivity|]. split; [apply dict_get_set_same|].
  destruct (import_module_cached _ _ _ _ Himp) as [Hsys _].
  destruct (run_module_actions_frame acts b1) as [_ [Hs _]]. rewrite Hrun in Hs.
  simpl in Hs. split; [now rewrite Hs|].
  unfold load_module. simpl. now rewrite dict_in_set_same.
Qed.

Lemma load_module_records_module_witness :
  dict_in "greetings" (_modules (bot_importing (fun _ => Returned greetings_module)))
  = false /\
  fst (load_module "greetings" (bot_importing (fun _ => Returned greetings_module)))
  = Returned tt /\
  dict_get "greetings" (_modules greetings_bot) = Some greetings_module /\
  dict_get "greetings" (sys_modules greetings_bot) = Some greetings_module.
Proof.
  assert (H1 : dict_in "greetings"
                 (_modules (bot_importing (fun _ => Returned greetings_module)))
               = false) by reflexivity.
  split; [exact H1|].
  destruct (load_module_records_module "greetings"
              (bot_importing (fun _ => Returned greetings_module)) _ _
              greetings_module [DoAddCommand greet_command]
              H1 eq_refl eq_refl eq_refl) as [Hr [Hm [Hs _]]].
  repeat split; assumption.
Defined.

(** X20: a module without [prepare] is not loaded: [load_module] raises
    [ImportError], records nothing, and the module is no longer in
    [sys.modules] afterwards, also when it was there before the call. *)
Theorem load_module_without_prepare (nm : string) (b b1 : Bot) (m : Module) :
  distinct_keys (sys_modules b) ->
  dict_in nm (_modules b) = false ->
  import_module nm b = (Returned m, b1) ->
  mod_prepare m = None ->
  fst (load_module nm b)
  = Raised (Exn ImportError ("Module <" ++ nm ++ "> is missing a prepare method")) /\
  _modules (snd (load_module nm b)) = _modules b /\
  dict_get nm (sys_modules (snd (load_module nm b))) = None.
Proof.
  intros Hd Hnew Himp Hprep.
  destruct (import_module_cached _ _ _ _ Himp) as [Hsys [Hmods Hd1]].
  assert (Hload : load_module nm b
                  = (Raised (Exn ImportError
                               ("Module <" ++ nm ++ "> is missing a prepare method")),
                     with_sys_modules (dict_remove nm (sys_modules b1)) b1)).
  { unfold load_module. rewrite Hnew. unfold bind at 1. rewrite Himp, Hprep.
    unfold bind, delitem, dict_delitem, dict_in. now rewrite Hsys. }
  rewrite Hload. simpl.
  repeat split; [exact Hmods|]. apply dict_get_remove_same. now apply Hd1.
Qed.

Lemma load_module_without_prepare_witness :
  distinct_keys (sys_modules plain_cached_bot) /\
  dict_in "plain" (_modules plain_cached_bot) = false /\
  import_module "plain" plain_cached_bot = (Returned plain_module, plain_cached_bot) /\
  mod_prepare plain_module = None /\
  dict_get "plain" (sys_modules plain_cached_bot) = Some plain_module /\
  dict_get "plain" (sys_modules (snd (load_module "plain" plain_cached_bot))) = None.
Proof.
  assert (H1 : distinct_keys (sys_modules plain_cached_bot))
    by (repeat constructor; intros []).
  assert (H2 : dict_in "plain" (_modules plain_cached_bot) = false) by reflexivity.
  assert (H3 : import_module "plain" plain_cached_bot
               = (Returned plain_module, plain_cached_bot)) by reflexivity.
  assert (H4 : mod_prepare plain_module = None) by reflexivity.
  repeat (split; [assumption|]).
  split; [reflexivity|].
  exact (proj2 (proj2 (load_module_without_prepare "plain" plain_cached_bot _ _
                         H1 H2 H3 H4))).
Defined.

(** X21: when [prepare] raises, [load_module] raises the same exception and
    does not record the module; the module stays in [sys.modules], so that
    a later import of the name gets the same module object without reading
    the file again. *)
Theorem load_module_failed_prepare (nm : string) (b b1 b2 : Bot) (m : Module)
  (acts : list ModuleAction) (e : exn) :
  dict_in nm (_modules b) = false ->
  import_module nm b = (Returned m, b1) ->
  mod_prepare m = Some acts ->
  run_module_actions acts b1 = (Raised e, b2) ->
  load_module nm b = (Raised e, b2) /\
  _modules b2 = _modules b /\
  import_module nm b2 = (Returned m, b2).
Proof.
  intros Hnew Himp Hprep Hrun.
  destruct (import_module_cached _ _ _ _ Himp) as [Hsys [Hmods _]].
  destruct (run_module_actions_frame acts b1) as [Hm [Hs _]]. rewrite Hrun in Hm, Hs.
  simpl in Hm, Hs. split; [|split].
  - unfold load_module. rewrite Hnew. unfold bind at 1. rewrite Himp, Hprep.
    unfold bind. now rewrite Hrun.
  - now rewrite Hm.
  - unfold import_module. now rewrite Hs, Hsys.
Qed.

Lemma load_module_failed_prepare_witness :
  dict_in "failing" (_modules (bot_importing (fun _ => Returned failing_module)))
  = false /\
  fst (load_module "failing" (bot_importing (fun _ => Returned failing_module)))
  = Raised boom /\
  dict_keys (_modules (snd (load_module "failing"
                              (bot_importing (fun _ => Returned failing_module)))))
  = [] /\
  dict_keys (sys_modules (snd (load_module "failing"
                                 (bot_importing (fun _ => Returned failing_module)))))
  = ["failing"].
Proof.
  assert (H1 : dict_in "failing"
                 (_modules (bot_importing (fun _ => Returned failing_module)))
               = false) by reflexivity.
  split; [exact H1|].
  destruct (load_module_failed_prepare "failing"
              (bot_importing (fun _ => Returned failing_module)) _ _
              failing_module _ boom H1 eq_refl eq_refl eq_refl) as [Hl _].
  rewrite Hl. repeat split.
Defined.

(** ** Unloading and reloading *)

Lemma for_pairs_in_keys_raises {A} (attr : string) (keys : list string) (saved : A) :
  keys <> [] ->
  exists e, for_pairs_in_keys attr keys saved = Raised e /\
            (exn_cls e = ValueError \/ exn_cls e = AttributeError).
Proof.
  destruct keys as [|k rest]; [now intros H; elim H|]. intros _. simpl.
  destruct (unpack_key k) as [pair|e] eqn:E.
  - eexists. split; [reflexivity | now right].
  - exists e. split; [reflexivity|]. left.
    unfold unpack_key in E.
    destruct k as [|c1 [|c2 [|c3 k']]]; try discriminate;
      injection E as <-; reflexivity.
Qed.

Lemma dict_keys_nonempty {V} (d : dict V) : d <> [] -> dict_keys d <> [].
Proof. destruct d; [now intros H; elim H | discriminate]. Qed.

Lemma dict_pop_get {V} (k : string) (d : dict V) (v : V) :
  dict_get k d = Some v -> dict_pop k d = Some (v, dict_remove k d).
Proof. intros H. unfold dict_pop. now rewrite H. Qed.

Lemma no_cog_of_module (m : Module) (cogs : dict Cog) :
  filter (fun kv => str_eq_module (cog_module (snd kv)) m) cogs = [].
Proof. induction cogs as [|kv l IH]; simpl; [reflexivity | exact IH]. Qed.

(** The three scans that end [unload_module], from the state [b2] the
    module's [breakdown] left. *)
Lemma unload_module_from_breakdown (nm : string) (b b2 : Bot) (m : Module) :
  dict_get nm (_modules b) = Some m ->
  match mod_breakdown m with
  | Some acts => run_module_actions acts
  | None => ret tt
  end (with_modules (dict_remove nm (_modules b)) b) = (Returned tt, b2) ->
  unload_module nm b
  = match for_pairs_in_keys "_callback" (dict_keys (_commands b2)) (@nil string) with
    | Raised e => (Raised e, b2)
    | Returned _ =>
        match for_pairs_in_keys "_callback" (dict_keys (_command_aliases b2))
                (@nil string) with
        | Raised e => (Raised e, with_commands (_commands b2) b2)
        | Returned _ => (Returned tt, b2)
        end
    end.
Proof.
  intros Hm Hbreak. unfold unload_module. rewrite (dict_pop_get _ _ _ Hm).
  unfold bind at 1. rewrite Hbreak. unfold bind at 1.
  rewrite no_cog_of_module. simpl remove_cogs. unfold ret at 1. unfold bind.
  destruct (_commands b2) as [|kv cmds] eqn:Hc.
  - simpl. destruct (_command_aliases b2) as [|kv' als] eqn:Ha.
    + destruct b2. simpl in Hc, Ha. subst. reflexivity.
    + destruct kv' as [k' v']. simpl. destruct (unpack_key k'); reflexivity.
  - destruct kv as [k v]. simpl. destruct (unpack_key k); reflexivity.
Qed.

(** X22: [unload_module] can only complete on a bot with no command and no
    alias registered; it then removes the module record and nothing else.
    With any command or alias registered (when the module's [breakdown], if
    any, has returned) it raises [ValueError] or [AttributeError] from its
    scan of the registry: the module record is gone and every command and
    alias is still registered. *)
Theorem unload_module_outcome (nm : string) (b b2 : Bot) (m : Module) :
  dict_get nm (_modules b) = Some m ->
  match mod_breakdown m with
  | Some acts => run_module_actions acts
  | None => ret tt
  end (with_modules (dict_remove nm (_modules b)) b) = (Returned tt, b2) ->
  (_commands b2 = [] -> _command_aliases b2 = [] ->
   unload_module nm b = (Returned tt, b2))
  /\
  (_commands b2 <> [] \/ _command_aliases b2 <> [] ->
   exists e,
     fst (unload_module nm b) = Raised e /\
     (exn_cls e = ValueError \/ exn_cls e = AttributeError) /\
     _modules (snd (unload_module nm b)) = dict_remove nm (_modules b) /\
     _commands (snd (unload_module nm b)) = _commands b2 /\
     _command_aliases (snd (unload_module nm b)) = _command_aliases b2).
Proof.
  intros Hm Hbreak.
  assert (Hmods : _modules b2 = dict_remove nm (_modules b)).
  { destruct (mod_breakdown m) as [acts|].
    - destruct (run_module_actions_frame acts
                  (with_modules (dict_remove nm (_modules b)) b)) as [H _].
      now rewrite Hbreak in H.
    - now injection Hbreak as <-. }
  rewrite (unload_module_from_breakdown nm b b2 m Hm Hbreak). split.
  - intros Hc Ha. now rewrite Hc, Ha.
  - intros Hsome.
    destruct (_commands b2) as [|kv cmds] eqn:Hc.
    + destruct Hsome as [H|H]; [now elim H|].
      destruct (for_pairs_in_keys_raises "_callback" (dict_keys (_command_aliases b2))
                  (@nil string) (dict_keys_nonempty _ H)) as [e [-> He]].
      exists e. simpl. rewrite ?Hc. now repeat split.
    + assert (Hne : dict_keys (kv :: cmds) <> []) by discriminate.
      destruct (for_pairs_in_keys_raises "_callback" (dict_keys (kv :: cmds))
                  (@nil string) Hne) as [e [-> He]].
      exists e. simpl. rewrite ?Hc. now repeat split.
Qed.

Lemma unload_module_outcome_witness :
  dict_get "greetings" (_modules greetings_bot) = Some greetings_module /\
  _commands (with_modules (dict_remove "greetings" (_modules greetings_bot))
               greetings_bot) <> [] /\
  exists e,
    fst (unload_module "greetings" greetings_bot) = Raised e /\
    (exn_cls e = ValueError \/ exn_cls e = AttributeError) /\
    _modules (snd (unload_module "greetings" greetings_bot)) = [] /\
    dict_keys (_commands (snd (unload_module "greetings" greetings_bot))) = ["greet"].
Proof.
  assert (H1 : dict_get "greetings" (_modules greetings_bot) = Some greetings_module)
    by reflexivity.
  assert (H2 : _commands (with_modules (dict_remove "greetings" (_modules greetings_bot))
                            greetings_bot) <> []) by discriminate.
  repeat (split; [assumption|]).
  destruct (unload_module_outcome "greetings" greetings_bot _ greetings_module
              H1 eq_refl) as [_ Hfail].
  destruct (Hfail (or_introl H2)) as [e [He [Hcls [Hm [Hc _]]]]].
  exists e. rewrite Hm, Hc. repeat split; assumption.
Defined.


(** X24: [reload_module] of a loaded module fails whenever a cog, a command
    or an alias is registered: it raises [ValueError] or [AttributeError]
    from its scans, before anything is saved or reloaded, and all it has
    done is to remove the module record. *)
Theorem reload_module_fails_on_registered (nm : string) (b : Bot) (m : Module) :
  dict_get nm (_modules b) = Some m ->
  _cogs b <> [] \/ _commands b <> [] \/ _command_aliases b <> [] ->
  exists e,
    reload_module nm b
    = (Raised e, with_modules (dict_remove nm (_modules b)) b) /\
    (exn_cls e = ValueError \/ exn_cls e = AttributeError).
Proof.
  intros Hm Hsome. unfold reload_module. rewrite (dict_pop_get _ _ _ Hm). simpl.
  destruct (_cogs b) as [|kc cogs] eqn:Hcogs.
  - simpl. destruct (_commands b) as [|kv cmds] eqn:Hcmds.
    + simpl. destruct Hsome as [H|[H|H]]; try (now elim H).
      destruct (for_pairs_in_keys_raises "_callback" (dict_keys (_command_aliases b))
                  (@nil (string * string)) (dict_keys_nonempty _ H)) as [e [-> He]].
      now exists e.
    + assert (Hne : dict_keys (kv :: cmds) <> []) by discriminate.
      destruct (for_pairs_in_keys_raises "_callback" (dict_keys (kv :: cmds))
                  (@nil (string * Command)) Hne) as [e [-> He]].
      now exists e.
  - assert (Hne : dict_keys (kc :: cogs) <> []) by discriminate.
    destruct (for_pairs_in_keys_raises "__module__" (dict_keys (kc :: cogs))
                (@nil (string * Cog)) Hne) as [e [-> He]].
    now exists e.
Qed.

Lemma reload_module_fails_on_registered_witness :
  dict_get "greetings" (_modules greetings_bot) = Some greetings_module /\
  (_cogs greetings_bot <> [] \/ _commands greetings_bot <> [] \/
   _command_aliases greetings_bot <> []) /\
  exists e,
    reload_module "greetings" greetings_bot
    = (Raised e,
       with_modules (dict_remove "greetings" (_modules greetings_bot)) greetings_bot).
Proof.
  assert (H1 : dict_get "greetings" (_modules greetings_bot) = Some greetings_module)
    by reflexivity.
  assert (H2 : _cogs greetings_bot <> [] \/ _commands greetings_bot <> [] \/
               _command_aliases greetings_bot <> [])
    by (right; left; discriminate).
  repeat (split; [assumption|]).
  destruct (reload_module_fails_on_registered "greetings" greetings_bot _ H1 H2)
    as [e [He _]].
  now exists e.
Defined.

(** X25: on a bot with no cog, command or alias registered, [reload_module]
    removes the module from [sys.modules] and loads it again.  When the
    module is not in [sys.modules] it raises [KeyError], the module record
    gone.  When loading succeeds the result is that of [load_module].  When
    loading fails the exception is raised again and the old module object is
    put back in [sys.modules] and in the module records, while commands
    registered by the failed [prepare] stay registered. *)
Theorem reload_module_on_empty_registries (nm : string) (b : Bot) (m : Module) :
  dict_get nm (_modules b) = Some m ->
  _cogs b = [] -> _commands b = [] -> _command_aliases b = [] ->
  (dict_in nm (sys_modules b) = false ->
   reload_module nm b
   = (Raised (Exn KeyError nm), with_modules (dict_remove nm (_modules b)) b))
  /\
  (dict_in nm (sys_modules b) = true ->
   forall (r : outcome unit) (b3 : Bot),
     load_module nm
       (with_sys_modules (dict_remove nm (sys_modules b))
          (with_modules (dict_remove nm (_modules b)) b)) = (r, b3) ->
     match r with
     | Returned _ => reload_module nm b = (Returned tt, b3)
     | Raised e =>
         fst (reload_module nm b) = Raised e /\
         dict_get nm (_modules (snd (reload_module nm b))) = Some m /\
         dict_get nm (sys_modules (snd (reload_module nm b))) = Some m /\
         _commands (snd (reload_module nm b)) = _commands b3 /\
         _command_aliases (snd (reload_module nm b)) = _command_aliases b3
     end).
Proof.
  intros Hm Hcogs Hcmds Hals.
  assert (Hscan : reload_module nm b
                  = (delitem sys_modules with_sys_modules nm ;;;
                     try_except (load_module nm)
                       (fun e =>
                          modify (fun b' =>
                            let s2 := with_sys_modules (dict_set nm m (sys_modules b')) b' in
                            let s3 := with_modules (dict_set nm m (_modules s2)) s2 in
                            let s4 := with_command_aliases
                                        (dict_update [] (_command_aliases s3)) s3 in
                            let s5 := with_commands (dict_update [] (_commands s4)) s4 in
                            with_cogs (dict_update [] (_cogs s5)) s5) ;;;
                          raise e))
                      (with_modules (dict_remove nm (_modules b)) b)).
  { unfold reload_module. rewrite (dict_pop_get _ _ _ Hm). simpl.
    now rewrite Hcogs, Hcmds, Hals. }
  split; intros Hsys.
  - rewrite Hscan. unfold bind, delitem, dict_delitem. simpl. now rewrite Hsys.
  - intros r b3 Hload.
    assert (Hre : reload_module nm b
                  = match r with
                    | Returned u => (Returned u, b3)
                    | Raised e =>
                        (Raised e,
                         with_modules (dict_set nm m (_modules b3))
                           (with_sys_modules (dict_set nm m (sys_modules b3)) b3))
                    end).
    { rewrite Hscan. unfold bind at 1. unfold delitem, dict_delitem. simpl.
      rewrite Hsys. unfold try_except. rewrite Hload.
      destruct r as [u|e]; [reflexivity|].
      unfold bind, modify, raise. simpl. destruct b3. reflexivity. }
    rewrite Hre. destruct r as [[]|e]; [reflexivity|]. simpl.
    repeat split; apply dict_get_set_same.
Qed.

Lemma reload_module_on_empty_registries_witness :
  dict_get "tools" (_modules tools_bot) = Some tools_module /\
  _cogs tools_bot = [] /\ _commands tools_bot = [] /\
  _command_aliases tools_bot = [] /\
  dict_in "tools" (sys_modules tools_bot) = true /\
  fst (reload_module "tools" tools_bot) = Raised boom /\
  dict_get "tools" (_modules (snd (reload_module "tools" tools_bot)))
  = Some tools_module /\
  dict_get "tools" (sys_modules (snd (reload_module "tools" tools_bot)))
  = Some tools_module.
Proof.
  assert (H1 : dict_get "tools" (_modules tools_bot) = Some tools_module)
    by reflexivity.
  assert (H2 : _cogs tools_bot = []) by reflexivity.
  assert (H3 : _commands tools_bot = []) by reflexivity.
  assert (H4 : _command_aliases tools_bot = []) by reflexivity.
  assert (H5 : dict_in "tools" (sys_modules tools_bot) = true) by reflexivity.
  repeat (split; [assumption|]).
  destruct (reload_module_on_empty_registries "tools" tools_bot _ H1 H2 H3 H4)
    as [_ Hcached].
  destruct (Hcached H5 (Raised boom) _ eq_refl) as [Hr [Hmod [Hsys _]]].
  repeat split; assumption.
Defined.

(** ** Removing a cog *)

Lemma dict_get_in {V} (k : string) (v : V) (d : dict V) :
  dict_get k d = Some v -> In (k, v) d.
Proof.
  induction d as [|[k' v'] d IH]; simpl; [discriminate|].
  destruct (String.eqb k' k) eqn:E.
  - apply String.eqb_eq in E. subst k'. intros [= <-]. now left.
  - intros H. right. now apply IH.
Qed.

Lemma dict_in_get {V} (k : string) (v : V) (d : dict V) :
  distinct_keys d -> In (k, v) d -> dict_get k d = Some v.
Proof.
  unfold distinct_keys, dict_keys. induction d as [|[k' v'] d IH]; simpl;
    intros Hd Hin; [contradiction|].
  inversion Hd as [|x l Hnin Hnd]; subst.
  destruct Hin as [[= -> ->]|Hin].
  - now rewrite String.eqb_refl.
  - destruct (String.eqb k' k) eqn:E; [|now apply IH].
    apply String.eqb_eq in E. subst k'. elim Hnin.
    apply in_map_iff. now exists (k, v).
Qed.

Lemma dict_keys_remove_subset {V} (k x : string) (d : dict V) :
  In x (dict_keys (dict_remove k d)) -> In x (dict_keys d).
Proof.
  unfold dict_keys. induction d as [|[k' v'] d IH]; simpl; [tauto|].
  destruct (String.eqb k' k); simpl; [tauto|].
  intros [H|H]; [now left | right; now apply IH].
Qed.

Lemma dict_remove_distinct {V} (k : string) (d : dict V) :
  distinct_keys d -> distinct_keys (dict_remove k d).
Proof.
  unfold distinct_keys. induction d as [|[k' v'] d IH]; simpl; intros Hd.
  - constructor.
  - inversion Hd as [|x l Hnin Hnd]; subst.
    destruct (String.eqb k' k); [exact Hnd|]. simpl. constructor.
    + intros Hin. apply Hnin. now apply (dict_keys_remove_subset k).
    + now apply IH.
Qed.

Lemma dict_get_none_remove {V} (k n : string) (d : dict V) :
  dict_get n d = None -> dict_get n (dict_remove k d) = None.
Proof.
  rewrite !dict_get_none_not_in. intros H Hin. apply H.
  now apply (dict_keys_remove_subset k).
Qed.

Lemma remove_all_other {V} (ks : list string) (n : string) (d : dict V) :
  ~ In n ks ->
  dict_get n (fold_left (fun d k => dict_remove k d) ks d) = dict_get n d.
Proof.
  revert d. induction ks as [|k ks IH]; intros d H; simpl; [reflexivity|].
  rewrite IH by (intros Hin; apply H; now right).
  apply dict_get_remove_other. intros ->. apply H. now left.
Qed.

Lemma remove_all_none {V} (ks : list string) (n : string) (d : dict V) :
  dict_get n d = None ->
  dict_get n (fold_left (fun d k => dict_remove k d) ks d) = None.
Proof.
  revert d. induction ks as [|k ks IH]; intros d H; simpl; [exact H|].
  apply IH. now apply dict_get_none_remove.
Qed.

Lemma remove_all_listed {V} (ks : list string) (n : string) (d : dict V) :
  distinct_keys d -> In n ks ->
  dict_get n (fold_left (fun d k => dict_remove k d) ks d) = None.
Proof.
  revert d. induction ks as [|k ks IH]; intros d Hd Hin; simpl; [contradiction|].
  destruct (String.eqb k n) eqn:E.
  - apply String.eqb_eq in E. subst k. apply remove_all_none.
    now apply dict_get_remove_same.
  - apply String.eqb_neq in E. destruct Hin as [Hk|Hin]; [contradiction|].
    apply IH; [now apply dict_remove_distinct | exact Hin].
Qed.

(** The state [remove_cog] has reached when it comes to scan the aliases:
    the cog popped and its commands deleted. *)
Lemma remove_cog_cases (cn : string) (b : Bot) (cg : Cog) :
  dict_get cn (_cogs b) = Some cg ->
  exists b2,
    _cogs b2 = dict_remove cn (_cogs b) /\
    _command_aliases b2 = _command_aliases b /\
    _commands b2
    = fold_left (fun d k => dict_remove k d)
        (map fst (filter (fun kv => owned_by cg (snd kv)) (_commands b)))
        (_commands b) /\
    remove_cog cn b
    = match for_pairs_in_keys "cog" (dict_keys (_command_aliases b)) (@nil string) with
      | Raised e => (Raised e, b2)
      | Returned _ => (Returned tt, b2)
      end.
Proof.
  intros Hc. unfold remove_cog. rewrite (dict_pop_get _ _ _ Hc). simpl.
  eexists. split; [|split; [|split]]; cycle 3.
  - destruct (_command_aliases b) as [|[k v] als] eqn:Ha.
    + simpl. 
      instantiate (1 := with_commands
                          (fold_left (fun d k => dict_remove k d)
                             (map fst (filter (fun kv => owned_by cg (snd kv)) (_commands b)))
                             (_commands b))
                          (with_cogs (dict_remove cn (_cogs b)) b)).
      destruct b. simpl in *. subst. reflexivity.
    + simpl. destruct (unpack_key k); reflexivity.
  - reflexivity.
  - reflexivity.
  - reflexivity.
Qed.

(** X26: with no alias registered, [remove_cog] removes the cog and exactly
    the commands owned by a cog of its name: a command of that cog is no
    longer registered, every other command is still registered as it was. *)
Theorem remove_cog_removes_its_commands (cn : string) (b : Bot) (cg : Cog) :
  dict_get cn (_cogs b) = Some cg ->
  _command_aliases b = [] ->
  distinct_keys (_commands b) ->
  fst (remove_cog cn b) = Returned tt /\
  _cogs (snd (remove_cog cn b)) = dict_remove cn (_cogs b) /\
  forall n cmd,
    dict_get n (_commands b) = Some cmd ->
    dict_get n (_commands (snd (remove_cog cn b)))
    = if owned_by cg cmd then None else Some cmd.
Proof.
  intros Hc Ha Hd.
  destruct (remove_cog_cases cn b cg Hc) as [b2 [Hcogs [_ [Hcmds ->]]]].
  rewrite Ha. simpl. split; [reflexivity|]. split; [exact Hcogs|].
  intros n cmd Hn. rewrite Hcmds.
  destruct (owned_by cg cmd) eqn:Ho.
  - apply remove_all_listed; [exact Hd|].
    apply in_map_iff. exists (n, cmd). split; [reflexivity|].
    apply filter_In. split; [now apply dict_get_in | exact Ho].
  - rewrite remove_all_other; [exact Hn|].
    intros Hin. apply in_map_iff in Hin. destruct Hin as [[n' cmd'] [Hfst Hf]].
    simpl in Hfst. subst n'. apply filter_In in Hf. destruct Hf as [Hin Ho'].
    rewrite (dict_in_get _ _ _ Hd Hin) in Hn. injection Hn as ->.
    simpl in Ho'. congruence.
Qed.

Lemma remove_cog_removes_its_commands_witness :
  dict_get "Fun" (_cogs cog_bot) = Some fun_cog /\
  _command_aliases cog_bot = [] /\
  distinct_keys (_commands cog_bot) /\
  fst (remove_cog "Fun" cog_bot) = Returned tt /\
  dict_get "dice" (_commands (snd (remove_cog "Fun" cog_bot))) = None /\
  dict_get "sub" (_commands (snd (remove_cog "Fun" cog_bot))) = Some sub_command.
Proof.
  assert (H1 : dict_get "Fun" (_cogs cog_bot) = Some fun_cog) by reflexivity.
  assert (H2 : _command_aliases cog_bot = []) by reflexivity.
  assert (H3 : distinct_keys (_commands cog_bot)).
  { repeat constructor; simpl; intuition discriminate. }
  repeat (split; [assumption|]).
  destruct (remove_cog_removes_its_commands "Fun" cog_bot fun_cog H1 H2 H3)
    as [Hr [_ Hall]].
  split; [exact Hr|]. split.
  - exact (Hall "dice" dice_command eq_refl).
  - exact (Hall "sub" sub_command eq_refl).
Defined.

(** X27: with any alias registered, [remove_cog] raises [ValueError] or
    [AttributeError] from its scan of the alias map, after the cog was
    popped and its commands deleted: the cog is gone and the alias map is
    untouched, aliases of the deleted commands included. *)
Theorem remove_cog_fails_on_aliases (cn : string) (b : Bot) (cg : Cog) :
  dict_get cn (_cogs b) = Some cg ->
  _command_aliases b <> [] ->
  exists e,
    fst (remove_cog cn b) = Raised e /\
    (exn_cls e = ValueError \/ exn_cls e = AttributeError) /\
    _cogs (snd (remove_cog cn b)) = dict_remove cn (_cogs b) /\
    _command_aliases (snd (remove_cog cn b)) = _command_aliases b /\
    _commands (snd (remove_cog cn b))
    = fold_left (fun d k => dict_remove k d)
        (map fst (filter (fun kv => owned_by cg (snd kv)) (_commands b)))
        (_commands b).
Proof.
  intros Hc Ha.
  destruct (remove_cog_cases cn b cg Hc) as [b2 [Hcogs [Hals [Hcmds ->]]]].
  destruct (for_pairs_in_keys_raises "cog" (dict_keys (_command_aliases b))
              (@nil string) (dict_keys_nonempty _ Ha)) as [e [-> He]].
  exists e. simpl. now repeat split.
Qed.

Lemma remove_cog_fails_on_aliases_witness :
  dict_get "Fun" (_cogs cog_alias_bot) = Some fun_cog /\
  _command_aliases cog_alias_bot <> [] /\
  exists e,
    fst (remove_cog "Fun" cog_alias_bot) = Raised e /\
    dict_keys (_cogs (snd (remove_cog "Fun" cog_alias_bot))) = [] /\
    dict_keys (_commands (snd (remove_cog "Fun" cog_alias_bot))) = ["sub"] /\
    _command_aliases (snd (remove_cog "Fun" cog_alias_bot)) = [("roll", "dice")].
Proof.
  assert (H1 : dict_get "Fun" (_cogs cog_alias_bot) = Some fun_cog) by reflexivity.
  assert (H2 : _command_aliases cog_alias_bot <> []) by discriminate.
  repeat (split; [assumption|]).
  destruct (remove_cog_fails_on_aliases "Fun" cog_alias_bot fun_cog H1 H2)
    as [e [He [_ [Hcogs [Hals Hcmds]]]]].
  exists e. rewrite Hcogs, Hals, Hcmds. repeat split. exact He.
Defined.

(** ** Construction without collisions *)

Lemma add_aliases_succeeds (c : Command) (als : list string) (b : Bot) :
  Forall (fun a => dict_in a (_commands b) = false) als ->
  fst (add_aliases c als b) = Returned tt.
Proof.
  revert b. induction als as [|alias rest IH]; intros b H; simpl; [reflexivity|].
  inversion H as [|x l Ha Hrest]; subst. rewrite Ha. now apply IH.
Qed.

Lemma add_command_succeeds (c : Command) (b : Bot) :
  dict_in (name c) (_commands b) = false ->
  callback_iscoroutinefunction c = true ->
  (forall a, In a (aliases c) -> a <> name c /\ dict_in a (_commands b) = false) ->
  fst (add_command c b) = Returned tt /\
  _commands (snd (add_command c b)) = dict_set (name c) c (_commands b) /\
  trace (snd (add_command c b)) = trace b.
Proof.
  intros Hn Hco Hal.
  assert (Hr : fst (add_command c b) = Returned tt).
  { unfold add_command. rewrite Hn, Hco. simpl.
    destruct (aliases c) as [|alias rest] eqn:E; [reflexivity|].
    apply add_aliases_succeeds. simpl. apply Forall_forall. intros a Ha.
    destruct (Hal a Ha) as [Hne Hfree]. unfold dict_in in *.
    rewrite dict_get_set_other by (intros Heq; now apply Hne). exact Hfree. }
  split; [exact Hr|]. split.
  - exact (proj1 (add_command_success c b Hr)).
  - exact (proj1 (add_command_cases c b)).
Qed.

Lemma init_commands_all_registered (self : Inst) (members : list (string * Member))
  (b : Bot) :
  Forall (fun c => callback_iscoroutinefunction c = true) (command_members members) ->
  NoDup (map name (command_members members)) ->
  (forall c, In c (command_members members) ->
     dict_in (name c) (_commands b) = false /\
     forall a, In a (aliases c) ->
       ~ In a (map name (command_members members)) /\
       dict_in a (_commands b) = false) ->
  fst (__init__commands__ self members b) = Returned tt /\
  trace (snd (__init__commands__ self members b)) = trace b /\
  dict_keys (_commands (snd (__init__commands__ self members b)))
  = dict_keys (_commands b) ++ map name (command_members members) /\
  (forall n v, dict_get n (_commands b) = Some v ->
     dict_get n (_commands (snd (__init__commands__ self members b))) = Some v) /\
  (forall c, In c (command_members members) ->
     dict_get (name c) (_commands (snd (__init__commands__ self members b)))
     = Some (bind_instance self c)).
Proof.
  revert b. induction members as [|[attr [obj|repr]] rest IH]; intros b Hco Hnd Hfree.
  - simpl. rewrite app_nil_r. repeat split; auto. intros c [].
  - simpl in Hco, Hnd, Hfree.
    inversion Hco as [|x l Hco0 Hco']; subst.
    inversion Hnd as [|x l Hnin Hnd']; subst.
    destruct (Hfree obj (or_introl eq_refl)) as [Hn0 Hal0].
    destruct (add_command_succeeds (bind_instance self obj) b Hn0 Hco0)
      as [Hr [Hc Ht]].
    { intros a Ha. destruct (Hal0 a Ha) as [Hnot Hfr]. split; [|exact Hfr].
      intros Heq. apply Hnot. left. now symmetry. }
    simpl __init__commands__.
    destruct (add_command (bind_instance self obj) b) as [r b1].
    simpl in Hr, Hc, Ht. subst r.
    assert (Hother : forall n, n <> name obj ->
                       dict_get n (_commands b1) = dict_get n (_commands b)).
    { intros n Hne. rewrite Hc. simpl. apply dict_get_set_other.
      intros Heq. now apply Hne. }
    destruct (IH b1 Hco' Hnd') as [Hr' [Ht' [Hk' [Hkeep' Hall']]]].
    { intros c Hin. destruct (Hfree c (or_intror Hin)) as [Hn Hal].
      assert (Hne : name c <> name obj).
      { intros Heq. apply Hnin. rewrite <- Heq. now apply in_map. }
      split.
      - unfold dict_in in *. now rewrite Hother.
      - intros a Ha. destruct (Hal a Ha) as [Hnot Hfr]. split.
        + intros Hin'. apply Hnot. now right.
        + unfold dict_in in *. rewrite Hother; [exact Hfr|].
          intros Heq. apply Hnot. left. now symmetry. }
    split; [exact Hr'|]. split; [now rewrite Ht', Ht|]. split; [|split].
    + rewrite Hk', Hc. simpl. rewrite dict_keys_set_absent by exact Hn0.
      now rewrite <- app_assoc.
    + intros n v Hv. apply Hkeep'. rewrite Hother; [exact Hv|].
      intros ->. unfold dict_in in Hn0. now rewrite Hv in Hn0.
    + intros c [<-|Hin]; [|now apply Hall'].
      apply Hkeep'. rewrite Hc. apply (dict_get_set_same (name obj)).
  - simpl in *. now apply IH.
Qed.

(** X28: when the [Command] members of the instance have coroutine
    callbacks and distinct names, and no name or alias of theirs is the name
    of another member or of a command registered already, construction
    registers all of them: nothing is printed, the names are added to the
    registry in member order, each maps to the command bound to the
    instance, and the commands registered before are kept. *)
Theorem init_commands_registers_all (self : Inst) (members : list (string * Member))
  (b : Bot) :
  Forall (fun c => callback_iscoroutinefunction c = true) (command_members members) ->
  NoDup (map name (command_members members)) ->
  (forall c, In c (command_members members) ->
     dict_in (name c) (_commands b) = false /\
     forall a, In a (aliases c) ->
       ~ In a (map name (command_members members)) /\
       dict_in a (_commands b) = false) ->
  fst (__init__commands__ self members b) = Returned tt /\
  trace (snd (__init__commands__ self members b)) = trace b /\
  dict_keys (_commands (snd (__init__commands__ self members b)))
  = dict_keys (_commands b) ++ map name (command_members members) /\
  (forall c, In c (command_members members) ->
     dict_get (name c) (_commands (snd (__init__commands__ self members b)))
     = Some (bind_instance self c)).
Proof.
  intros Hco Hnd Hfree.
  destruct (init_commands_all_registered self members b Hco Hnd Hfree)
    as [Hr [Ht [Hk [_ Hall]]]].
  now repeat split.
Qed.

Lemma init_commands_registers_all_witness :
  Forall (fun c => callback_iscoroutinefunction c = true)
    (command_members distinct_members) /\
  NoDup (map name (command_members distinct_members)) /\
  fst (__init__commands__ "bot" distinct_members fresh_bot) = Returned tt /\
  dict_keys (_commands (snd (__init__commands__ "bot" distinct_members fresh_bot)))
  = ["echo"; "greet"] /\
  dict_get "greet" (_commands (snd (__init__commands__ "bot" distinct_members fresh_bot)))
  = Some (bind_instance "bot" greet_command).
Proof.
  assert (H1 : Forall (fun c => callback_iscoroutinefunction c = true)
                 (command_members distinct_members))
    by (repeat constructor).
  assert (H2 : NoDup (map name (command_members distinct_members))).
  { repeat constructor; simpl; intuition discriminate. }
  assert (H3 : forall c, In c (command_members distinct_members) ->
                 dict_in (name c) (_commands fresh_bot) = false /\
                 forall a, In a (aliases c) ->
                   ~ In a (map name (command_members distinct_members)) /\
                   dict_in a (_commands fresh_bot) = false).
  { intros c [<-|[<-|[]]]; (split; [reflexivity|]);
      intros a [<-|[]]; (split; [|reflexivity]); simpl; intuition discriminate. }
  repeat (split; [assumption|]).
  destruct (init_commands_registers_all "bot" distinct_members fresh_bot H1 H2 H3)
    as [Hr [_ [Hk Hall]]].
  split; [exact Hr|]. split; [exact Hk|].
  apply (Hall greet_command). right. now left.
Defined.

(** ** Subscribing *)

(** X29: [add_event] subscribes nothing, whatever it is given: it raises
    [ValueError] on everything that is not a coroutine object and
    [AttributeError] on a coroutine object, and in both cases the bot is
    left exactly as it was. *)
Theorem add_event_leaves_bot_unchanged (callback : Callable) (nm : option string)
  (b : Bot) :
  snd (add_event callback nm b) = b /\
  exists e,
    fst (add_event callback nm b) = Raised e /\
    exn_cls e = (if iscoroutine callback then AttributeError else ValueError).
Proof.
  unfold add_event, iscoroutine, set_event_attr.
  destruct (c_kind callback); simpl; (split; [reflexivity|]);
    eexists; split; reflexivity.
Qed.
